(** * NexusCRM plugin: a shallow embedding of its own logic

    The plugin is glue code: GraphQL resolvers that build SQL text, a
    database helper that wraps a statement in a tenant-scoped transaction,
    a voice-call manager with its webhook handler, and a Socket.IO broadcast
    layer.  Each part is embedded below as executable definitions, the
    asynchronous code as functions in a state-and-exception monad over an
    explicit world, and the properties of the specification are stated over
    these definitions. *)

From Stdlib Require Import List String Ascii ZArith QArith Qround Bool DecimalString.
Import ListNotations.
Close Scope Q_scope.
Open Scope string_scope.
Set Warnings "-register-all".

(** ** JavaScript values

    The payloads handled by the plugin are typed [any] at the places that
    matter (webhook [data], SQL parameters, analysis output), so values are
    kept dynamic.  A [Date] object remembers the value it was built from. *)

Inductive JSVal : Type :=
| JUndefined
| JNull
| JBool (b : bool)
| JNum (q : Q)
| JStr (s : string)
| JArr (items : list JSVal)
| JObj (fields : list (string * JSVal))
| JDate (src : JSVal).

(** A thrown JavaScript error, with its [message]. *)
Inductive Exn : Type := JsError (message : string).

Definition message (e : Exn) : string := let 'JsError m := e in m.

Module JS.

(** [ToBoolean]: the falsy values are undefined, null, false, 0 and the
    empty string; objects, arrays and Date objects are truthy. *)
Definition truthy (v : JSVal) : bool :=
  match v with
  | JUndefined | JNull => false
  | JBool b => b
  | JNum q => negb (Qnum q =? 0)%Z
  | JStr s => negb (s =? "")
  | JArr _ | JObj _ | JDate _ => true
  end.

(** [a || b]. *)
Definition or (a b : JSVal) : JSVal := if truthy a then a else b.

Fixpoint lookup (k : string) (fields : list (string * JSVal)) : JSVal :=
  match fields with
  | [] => JUndefined
  | (k', v) :: rest => if k' =? k then v else lookup k rest
  end.

(** [v.k]: reading a property of undefined or null throws a TypeError;
    on an object it is the field or undefined; the other values have none
    of the properties read by this code except [length]. *)
Definition get (v : JSVal) (k : string) : Exn + JSVal :=
  match v with
  | JUndefined =>
      inl (JsError ("Cannot read properties of undefined (reading '" ++ k ++ "')"))
  | JNull =>
      inl (JsError ("Cannot read properties of null (reading '" ++ k ++ "')"))
  | JObj fields => inr (lookup k fields)
  | _ => inr JUndefined
  end.

(** The double quote, for the messages that quote. *)
Definition double_quote : string := String (Ascii.ascii_of_nat 34) EmptyString.

Definition nat_to_string (n : nat) : string :=
  NilEmpty.string_of_uint (Nat.to_uint n).

End JS.

(** An optional GraphQL / TypeScript argument: left out, explicit null, or
    given. *)
Inductive Arg (A : Type) : Type :=
| Undef
| Null
| Val (a : A).
Arguments Undef {A}.
Arguments Null {A}.
Arguments Val {A} a.

Definition arg_string_truthy (a : Arg string) : bool :=
  match a with Val s => negb (s =? "") | _ => false end.

Definition arg_defined {A} (a : Arg A) : bool :=
  match a with Undef => false | _ => true end.

Definition arg_to_js {A} (inj : A -> JSVal) (a : Arg A) : JSVal :=
  match a with Undef => JUndefined | Null => JNull | Val x => inj x end.

Definition JInt (z : Z) : JSVal := JNum (inject_Z z).

(** A default parameter value ([limit = 50]) replaces undefined only. *)
Definition default_arg (d : Z) (a : Arg Z) : JSVal :=
  match a with Undef => JInt d | Null => JNull | Val z => JInt z end.

(** ** List queries of the GraphQL layer (src/graphql/resolvers.ts)

    Every list resolver collects [conditions], positional [params] and a
    running [paramIndex], then interpolates them into a SELECT.  The
    conditions are kept as syntax, with the text the resolver writes
    ([cond_text], white space of the template literals normalised to single
    blanks) and the meaning the database gives them ([cond_holds]). *)

Module ListQuery.

Inductive Cond : Type :=
| IsNull (col : string)                    (* col IS NULL *)
| EqParam (col : string) (n : nat)         (* col = $n *)
| GeParam (col : string) (n : nat)         (* col >= $n *)
| LeParam (col : string) (n : nat)         (* col <= $n *)
| ILikeAny (cols : list string) (n : nat). (* (c1 ILIKE $n OR c2 ILIKE $n ...) *)

Definition placeholder (n : nat) : string := "$" ++ JS.nat_to_string n.

Fixpoint join (sep : string) (parts : list string) : string :=
  match parts with
  | [] => ""
  | [p] => p
  | p :: rest => p ++ sep ++ join sep rest
  end.

Definition cond_text (c : Cond) : string :=
  match c with
  | IsNull col => col ++ " IS NULL"
  | EqParam col n => col ++ " = " ++ placeholder n
  | GeParam col n => col ++ " >= " ++ placeholder n
  | LeParam col n => col ++ " <= " ++ placeholder n
  | ILikeAny cols n =>
      "(" ++ join " OR " (map (fun c => c ++ " ILIKE " ++ placeholder n) cols) ++ ")"
  end.

(** The state of the builder: [conditions], [params] and [paramIndex]. *)
Record Builder : Type := mkBuilder {
  conditions : list Cond;
  params : list JSVal;
  paramIndex : nat
}.

(** [conditions.push(`col op $${paramIndex++}`); params.push(v)]. *)
Definition push (mk : nat -> Cond) (v : JSVal) (b : Builder) : Builder :=
  {| conditions := conditions b ++ [mk (paramIndex b)];
     params := params b ++ [v];
     paramIndex := S (paramIndex b) |}.

Definition when (test : bool) (f : Builder -> Builder) (b : Builder) : Builder :=
  if test then f b else b.

(** The SELECT a list resolver sends: table, WHERE conjuncts, the
    placeholders of LIMIT and OFFSET, and the parameters. *)
Record Select : Type := mkSelect {
  table : string;
  where_ : list Cond;
  limit_at : nat;
  offset_at : nat;
  args : list JSVal
}.

(** [params.push(limit, offset)] and
    [LIMIT $${paramIndex++} OFFSET $${paramIndex++}]. *)
Definition finish (tbl : string) (limit offset : Arg Z) (b : Builder) : Select :=
  {| table := tbl;
     where_ := conditions b;
     limit_at := paramIndex b;
     offset_at := S (paramIndex b);
     args := params b ++ [default_arg 50 limit; default_arg 0 offset] |}.

Definition where_text (conds : list Cond) : string :=
  match conds with
  | [] => ""
  | _ => "WHERE " ++ join " AND " (map cond_text conds)
  end.

Definition select_text (q : Select) : string :=
  "SELECT * FROM " ++ table q ++ " " ++ where_text (where_ q)
  ++ " ORDER BY created_at DESC LIMIT " ++ placeholder (limit_at q)
  ++ " OFFSET " ++ placeholder (offset_at q).

(** *** The six resolvers *)

Record ContactFilter : Type := mkContactFilter {
  companyId : Arg string;
  leadStatus : Arg string;
  ownerId : Arg string;
  minLeadScore : Arg Z;
  maxLeadScore : Arg Z;
  search : Arg string
}.

Definition arg_str (a : Arg string) : JSVal := arg_to_js JStr a.
Definition arg_int (a : Arg Z) : JSVal := arg_to_js JInt a.

(** [`%${search}%`]; only reached with a non-empty string. *)
Definition like_pattern (a : Arg string) : JSVal :=
  match a with Val s => JStr ("%" ++ s ++ "%") | _ => JUndefined end.

Definition start_not_deleted : Builder :=
  {| conditions := [IsNull "deleted_at"]; params := []; paramIndex := 1 |}.

Definition start_empty : Builder :=
  {| conditions := []; params := []; paramIndex := 1 |}.

Definition contacts_filter (f : ContactFilter) (b : Builder) : Builder :=
  let b := when (arg_string_truthy (companyId f))
             (push (EqParam "company_id") (arg_str (companyId f))) b in
  let b := when (arg_string_truthy (leadStatus f))
             (push (EqParam "lead_status") (arg_str (leadStatus f))) b in
  let b := when (arg_string_truthy (ownerId f))
             (push (EqParam "owner_id") (arg_str (ownerId f))) b in
  let b := when (arg_defined (minLeadScore f))
             (push (GeParam "lead_score") (arg_int (minLeadScore f))) b in
  let b := when (arg_defined (maxLeadScore f))
             (push (LeParam "lead_score") (arg_int (maxLeadScore f))) b in
  when (arg_string_truthy (search f))
    (push (ILikeAny ["first_name"; "last_name"; "email"]) (like_pattern (search f))) b.

Definition contacts (filter : Arg ContactFilter) (limit offset : Arg Z) : Select :=
  let b := match filter with
           | Val f => contacts_filter f start_not_deleted
           | _ => start_not_deleted
           end in
  finish "nexuscrm.contacts" limit offset b.

(** [companies] writes its placeholders by hand: $1, $2, $3 with a search
    string and $1, $2 without. *)
Definition companies (search : Arg string) (limit offset : Arg Z) : Select :=
  if arg_string_truthy search then
    {| table := "nexuscrm.companies";
       where_ := [IsNull "deleted_at"; ILikeAny ["name"; "domain"] 1];
       limit_at := 2;
       offset_at := 3;
       args := [like_pattern search; default_arg 50 limit; default_arg 0 offset] |}
  else
    {| table := "nexuscrm.companies";
       where_ := [IsNull "deleted_at"];
       limit_at := 1;
       offset_at := 2;
       args := [default_arg 50 limit; default_arg 0 offset] |}.

Definition deals (stage ownerId : Arg string) (limit offset : Arg Z) : Select :=
  let b := start_not_deleted in
  let b := when (arg_string_truthy stage) (push (EqParam "stage") (arg_str stage)) b in
  let b := when (arg_string_truthy ownerId) (push (EqParam "owner_id") (arg_str ownerId)) b in
  finish "nexuscrm.deals" limit offset b.

Definition activities (contactId companyId dealId type : Arg string)
  (limit offset : Arg Z) : Select :=
  let b := start_not_deleted in
  let b := when (arg_string_truthy contactId) (push (EqParam "contact_id") (arg_str contactId)) b in
  let b := when (arg_string_truthy companyId) (push (EqParam "company_id") (arg_str companyId)) b in
  let b := when (arg_string_truthy dealId) (push (EqParam "deal_id") (arg_str dealId)) b in
  let b := when (arg_string_truthy type) (push (EqParam "type") (arg_str type)) b in
  finish "nexuscrm.activities" limit offset b.

Definition campaigns (status : Arg string) (limit offset : Arg Z) : Select :=
  let b := start_not_deleted in
  let b := when (arg_string_truthy status) (push (EqParam "status") (arg_str status)) b in
  finish "nexuscrm.campaigns" limit offset b.

(** [voiceCalls] starts from [conditions = []] and leaves the WHERE clause
    out when no status is given. *)
Definition voiceCalls (status : Arg string) (limit offset : Arg Z) : Select :=
  let b := start_empty in
  let b := when (arg_string_truthy status) (push (EqParam "status") (arg_str status)) b in
  finish "nexuscrm.voice_calls" limit offset b.

(** The list resolvers with their arguments, as one request type. *)
Inductive Request : Type :=
| Contacts (filter : Arg ContactFilter) (limit offset : Arg Z)
| Companies (search : Arg string) (limit offset : Arg Z)
| Deals (stage ownerId : Arg string) (limit offset : Arg Z)
| Activities (contactId companyId dealId type : Arg string) (limit offset : Arg Z)
| Campaigns (status : Arg string) (limit offset : Arg Z)
| VoiceCalls (status : Arg string) (limit offset : Arg Z).

Definition build (r : Request) : Select :=
  match r with
  | Contacts f l o => contacts f l o
  | Companies s l o => companies s l o
  | Deals s w l o => deals s w l o
  | Activities c co d t l o => activities c co d t l o
  | Campaigns s l o => campaigns s l o
  | VoiceCalls s l o => voiceCalls s l o
  end.

Definition is_voiceCalls (r : Request) : bool :=
  match r with VoiceCalls _ _ _ => true | _ => false end.

End ListQuery.

(** *** What the database answers

    Rows are column/value lists.  The comparison operators and the order of
    [created_at] belong to the database; they are taken as an [Engine] of
    three-valued operators ([None] is SQL's unknown).  [IS NULL], the
    conjunction of the WHERE clause, LIMIT and OFFSET are written out. *)

Module Sql.
Import ListQuery.

Definition Row : Type := list (string * JSVal).

Definition column (r : Row) (c : string) : JSVal := JS.lookup c r.

Definition is_null (v : JSVal) : bool :=
  match v with JNull | JUndefined => true | _ => false end.

(** A row is soft-deleted when its [deleted_at] holds a timestamp. *)
Definition soft_deleted (r : Row) : bool := negb (is_null (column r "deleted_at")).

Record Engine : Type := mkEngine {
  sql_eq : JSVal -> JSVal -> option bool;
  sql_ge : JSVal -> JSVal -> option bool;
  sql_le : JSVal -> JSVal -> option bool;
  sql_ilike : JSVal -> JSVal -> option bool;
  created_after : Row -> Row -> bool
}.

(** [$n] is the n-th parameter, counted from 1. *)
Definition param (args : list JSVal) (n : nat) : JSVal := nth (pred n) args JNull.

(** SQL's OR over three-valued operands. *)
Fixpoint or3 (xs : list (option bool)) : option bool :=
  match xs with
  | [] => Some false
  | Some true :: _ => Some true
  | x :: rest =>
      match or3 rest with
      | Some true => Some true
      | Some false => x
      | None => None
      end
  end.

Definition cond_holds (E : Engine) (args : list JSVal) (r : Row) (c : Cond) : option bool :=
  match c with
  | IsNull col => Some (is_null (column r col))
  | EqParam col n => sql_eq E (column r col) (param args n)
  | GeParam col n => sql_ge E (column r col) (param args n)
  | LeParam col n => sql_le E (column r col) (param args n)
  | ILikeAny cols n =>
      or3 (map (fun col => sql_ilike E (column r col) (param args n)) cols)
  end.

(** WHERE keeps a row only when every conjunct is true (not unknown). *)
Definition where_holds (E : Engine) (args : list JSVal) (conds : list Cond) (r : Row) : bool :=
  forallb (fun c => match cond_holds E args r c with Some true => true | _ => false end) conds.

Fixpoint insert_desc (E : Engine) (r : Row) (sorted : list Row) : list Row :=
  match sorted with
  | [] => [r]
  | s :: rest => if created_after E s r then s :: insert_desc E r rest else r :: sorted
  end.

(** ORDER BY created_at DESC. *)
Definition order_desc (E : Engine) (rows : list Row) : list Row :=
  fold_right (insert_desc E) [] rows.

(** The row count of LIMIT / OFFSET: NULL means none given, a negative
    number is refused by the database.  GraphQL's [Int] makes the numbers
    whole. *)
Definition row_count (v : JSVal) : Exn + option nat :=
  match v with
  | JNull | JUndefined => inr None
  | JNum q =>
      if (Qnum q <? 0)%Z then inl (JsError "row count must not be negative")
      else inr (Some (Z.to_nat (Qfloor q)))
  | _ => inl (JsError "invalid input syntax for type bigint")
  end.

Definition take (n : option nat) (rows : list Row) : list Row :=
  match n with Some k => firstn k rows | None => rows end.

Definition drop (n : option nat) (rows : list Row) : list Row :=
  match n with Some k => skipn k rows | None => rows end.

Definition Tables : Type := string -> list Row.

(** The rows the SELECT returns, or the error the database raises. *)
Definition run (E : Engine) (q : Select) (db : Tables) : Exn + list Row :=
  match row_count (param (args q) (limit_at q)), row_count (param (args q) (offset_at q)) with
  | inl e, _ => inl e
  | _, inl e => inl e
  | inr lim, inr off =>
      inr (take lim (drop off
             (order_desc E (filter (where_holds E (args q) (where_ q)) (db (table q))))))
  end.

(** The property of the specification, for one resolver call: whatever the
    tables hold, no returned row is soft-deleted. *)
Definition excludes_soft_deleted (E : Engine) (req : Request) : Prop :=
  forall (db : Tables) (rows : list Row),
    run E (build req) db = inr rows ->
    forall r, In r rows -> soft_deleted r = false.

(** A concrete engine for examples: equality on strings, nothing else
    known, insertion order kept. *)
Definition text_engine : Engine :=
  {| sql_eq := fun a b => match a, b with
                          | JStr x, JStr y => Some (x =? y)
                          | _, _ => None
                          end;
     sql_ge := fun _ _ => None;
     sql_le := fun _ _ => None;
     sql_ilike := fun _ _ => None;
     created_after := fun _ _ => true |}.

End Sql.

(** ** Asynchronous code as state passing with exceptions

    An [async] function over state [S] either returns a value or throws;
    both leave a new state.  [await] is sequencing. *)

Definition M (S A : Type) : Type := S -> (Exn + A) * S.

Definition ret {S A} (a : A) : M S A := fun s => (inr a, s).

Definition throw {S A} (e : Exn) : M S A := fun s => (inl e, s).

Definition bind {S A B} (m : M S A) (k : A -> M S B) : M S B :=
  fun s => match m s with
           | (inl e, s') => (inl e, s')
           | (inr a, s') => k a s'
           end.

(** [try { body } catch (e) { handler e }]. *)
Definition try_catch {S A} (body : M S A) (handler : Exn -> M S A) : M S A :=
  fun s => match body s with
           | (inl e, s') => handler e s'
           | (inr a, s') => (inr a, s')
           end.

(** [try { body } finally { cleanup }] with a cleanup that cannot throw. *)
Definition finally {S A} (body : M S A) (cleanup : S -> S) : M S A :=
  fun s => let (r, s') := body s in (r, cleanup s').

Definition modify {S} (f : S -> S) : M S unit := fun s => (inr tt, f s).

Definition gets {S A} (f : S -> A) : M S A := fun s => (inr (f s), s).

(** A value computed without effects that may throw ([v.k] and the like). *)
Definition lift {S A} (r : Exn + A) : M S A := fun s => (r, s).

Declare Scope async_scope.
Delimit Scope async_scope with async.
Notation "x <- m ;; k" := (bind m (fun x => k))
  (at level 61, m at next level, right associativity) : async_scope.
Notation "m ;; k" := (bind m (fun _ => k))
  (at level 61, right associativity) : async_scope.
Open Scope async_scope.

(** ** The database helper (src/utils/database.ts)

    The helper is generic in the SQL it is given, so the model is generic in
    the statements [Stmt], the stored data [Store] and the results [Res]; the
    meaning [exec] of a statement may depend on the tenant in place (the
    row-level-security policies live outside this repository).

    The pg driver and the server are modelled as far as the helper can
    observe them: data becomes [store] only through COMMIT or through a
    statement outside a transaction; a failing statement aborts the open
    transaction; a driver-level failure ([faults], e.g. a lost connection)
    makes the call throw and discards the open transaction.  One statement
    of the helper's own is refused by the server whenever it is sent: the
    SET LOCAL of [setOrganizationContext], which carries a bind parameter
    (see there).  The helper's debug logging is left out. *)

Module Database.
Section Driver.

Variables Store Stmt Res : Type.
Variable exec : option string -> Stmt -> Store -> Exn + (Store * Res).

Inductive Command : Type :=
| Connect
| Begin
| Commit
| Rollback
| SetLocalOrg (organizationId : string)
| Query (s : Stmt)          (* client.query inside a transaction *)
| PoolQuery (s : Stmt).     (* pool.query *)

Inductive Outcome : Type := Done | Threw.

Inductive Txn : Type :=
| Idle
| Active (work : Store) (org : option string)
| Aborted.

Record DB : Type := mkDB {
  store : Store;                      (* committed data *)
  txn : Txn;                          (* transaction of the client in use *)
  leased : nat;                       (* clients acquired and not released *)
  sent : list (Command * Outcome);    (* what the driver was asked, oldest first *)
  faults : list bool                  (* true: the next driver call fails *)
}.

Definition set_store (st : Store) (db : DB) : DB :=
  mkDB st (txn db) (leased db) (sent db) (faults db).
Definition set_txn (t : Txn) (db : DB) : DB :=
  mkDB (store db) t (leased db) (sent db) (faults db).
Definition set_leased (n : nat) (db : DB) : DB :=
  mkDB (store db) (txn db) n (sent db) (faults db).
Definition record (c : Command) (o : Outcome) (db : DB) : DB :=
  mkDB (store db) (txn db) (leased db) (sent db ++ [(c, o)]) (faults db).
Definition next_fault (db : DB) : bool * DB :=
  match faults db with
  | [] => (false, db)
  | f :: rest => (f, mkDB (store db) (txn db) (leased db) (sent db) rest)
  end.

Definition connection_lost : Exn := JsError "Connection terminated unexpectedly".
Definition in_failed_transaction : Exn :=
  JsError "current transaction is aborted, commands ignored until end of transaction block".

(** One driver call: a fault throws and discards the open transaction,
    otherwise [step] tells what the server does. *)
Definition driver_call {A} (c : Command) (step : DB -> (Exn + A) * DB) : M DB A :=
  fun db =>
    let (f, db) := next_fault db in
    if f then (inl connection_lost, record c Threw (set_txn Idle db))
    else match step db with
         | (inl e, db') => (inl e, record c Threw db')
         | (inr a, db') => (inr a, record c Done db')
         end.

(** [client.query('BEGIN')], ['COMMIT'], ['ROLLBACK']. *)
Definition client_begin : M DB unit :=
  driver_call Begin (fun db =>
    match txn db with
    | Idle => (inr tt, set_txn (Active (store db) None) db)
    | _ => (inr tt, db)
    end).

Definition client_commit : M DB unit :=
  driver_call Commit (fun db =>
    match txn db with
    | Active work _ => (inr tt, set_txn Idle (set_store work db))
    | _ => (inr tt, set_txn Idle db)
    end).

Definition client_rollback : M DB unit :=
  driver_call Rollback (fun db => (inr tt, set_txn Idle db)).

(** [client.query(text, params)]. *)
Definition client_query (s : Stmt) : M DB Res :=
  driver_call (Query s) (fun db =>
    match txn db with
    | Active work org =>
        match exec org s work with
        | inr (work', r) => (inr r, set_txn (Active work' org) db)
        | inl e => (inl e, set_txn Aborted db)
        end
    | Aborted => (inl in_failed_transaction, db)
    | Idle =>
        match exec None s (store db) with
        | inr (st', r) => (inr r, set_store st' db)
        | inl e => (inl e, db)
        end
    end).

(** [pool.connect()] and [client.release()]. *)
Definition pool_connect : M DB unit :=
  driver_call Connect (fun db => (inr tt, set_leased (S (leased db)) db)).

Definition client_release (db : DB) : DB := set_leased (pred (leased db)) db.

(** [Database.query]: [pool.query(text, params)], one statement on its own,
    outside any tenant context; an error is logged and rethrown. *)
Definition query (s : Stmt) : M DB Res :=
  driver_call (PoolQuery s) (fun db =>
    match exec None s (store db) with
    | inr (st', r) => (inr r, set_store st' db)
    | inl e => (inl e, db)
    end).

(** [Database.transaction]. *)
Definition transaction {T} (callback : M DB T) : M DB T :=
  pool_connect ;;
  finally
    (try_catch
       (client_begin ;;
        result <- callback ;;
        client_commit ;;
        ret result)
       (fun error => client_rollback ;; throw error))
    client_release.

(** What PostgreSQL answers to [SET LOCAL app.current_organization_id = $1]
    sent with a parameter array: SET takes no bind parameters, the statement
    does not parse (SQLSTATE 42601). *)
Definition set_local_refused : Exn :=
  JsError ("syntax error at or near " ++ JS.double_quote ++ "$1" ++ JS.double_quote).

(** [Database.setOrganizationContext]:
    [client.query(`SET LOCAL app.current_organization_id = $1`, [organizationId])].
    The server refuses the statement, which aborts the open transaction; no
    tenant is ever put in place. *)
Definition setOrganizationContext (organizationId : string) : M DB unit :=
  driver_call (SetLocalOrg organizationId) (fun db =>
    match txn db with
    | Active _ _ => (inl set_local_refused, set_txn Aborted db)
    | _ => (inl set_local_refused, db)
    end).

(** [Database.queryWithContext]. *)
Definition queryWithContext (organizationId : string) (s : Stmt) : M DB Res :=
  transaction (setOrganizationContext organizationId ;; client_query s).

(** The driver calls made between two states. *)
Definition new_calls (before after : DB) : list (Command * Outcome) :=
  skipn (List.length (sent before)) (sent after).

(** Rolled back: the call ended in an error, the committed data is what
    it was, no transaction is left open, no COMMIT was sent, and the last
    thing sent was ROLLBACK. *)
Definition rolled_back {T} (before : DB) (run : (Exn + T) * DB) : Prop :=
  (exists e, fst run = inl e) /\
  store (snd run) = store before /\
  txn (snd run) = Idle /\
  ~ In Commit (map fst (new_calls before (snd run))) /\
  (exists earlier o, new_calls before (snd run) = (earlier ++ [(Rollback, o)])%list).

(** A statement of [queryWithContext]'s callback threw: the tenant-context
    SET or the caller's statement. *)
Definition callback_threw (organizationId : string) (s : Stmt)
  (calls : list (Command * Outcome)) : Prop :=
  In (SetLocalOrg organizationId, Threw) calls \/ In (Query s, Threw) calls.

End Driver.

Arguments Connect {Stmt}.
Arguments Begin {Stmt}.
Arguments Commit {Stmt}.
Arguments Rollback {Stmt}.
Arguments SetLocalOrg {Stmt} organizationId.
Arguments Query {Stmt} s.
Arguments PoolQuery {Stmt} s.
Arguments Idle {Store}.
Arguments Active {Store} work org.
Arguments Aborted {Store}.
Arguments store {Store Stmt}.
Arguments txn {Store Stmt}.
Arguments leased {Store Stmt}.
Arguments sent {Store Stmt}.
Arguments faults {Store Stmt}.
Arguments mkDB {Store Stmt}.
Arguments new_calls {Store Stmt}.
Arguments callback_threw {Stmt}.
Arguments rolled_back {Store Stmt T}.
Arguments query {Store Stmt Res}.
Arguments queryWithContext {Store Stmt Res}.
Arguments transaction {Store Stmt T}.

End Database.

(** ** Tables of the voice subsystem

    The records hold the columns of the two tables, named after the fields
    of the [VoiceCall] and [Activity] interfaces of the type definitions; the
    columns never written by the code modelled here (platform, numbers,
    providers, creation time and so on) are kept together in [other], under
    their column names.  Column values are the JavaScript values handed to
    the driver; [JNull] is SQL's NULL. *)

Module VoiceCall.
Record t : Type := mk {
  id : string;
  organizationId : string;
  externalCallId : JSVal;
  status : JSVal;
  answeredAt : JSVal;
  endedAt : JSVal;
  durationSeconds : JSVal;
  transcript : JSVal;
  recordingUrl : JSVal;
  costUsd : JSVal;
  costBreakdown : JSVal;
  sentimentOverall : JSVal;
  keywordsDetected : JSVal;
  topicsDiscussed : JSVal;
  objectionsRaised : JSVal;
  buyingSignals : JSVal;
  actionItems : JSVal;
  callOutcome : JSVal;
  dealScore : JSVal;
  updatedAt : JSVal;
  other : list (string * JSVal)
}.

(** The row as node-postgres hands it to the code: an object keyed by the
    column names of the table, which are those the statements use. *)
Definition row (c : t) : list (string * JSVal) :=
  ([("id", JStr (id c)); ("organization_id", JStr (organizationId c));
    ("external_call_id", externalCallId c); ("status", status c);
    ("answered_at", answeredAt c); ("ended_at", endedAt c);
    ("duration_seconds", durationSeconds c); ("transcript", transcript c);
    ("recording_url", recordingUrl c); ("cost_usd", costUsd c);
    ("cost_breakdown", costBreakdown c); ("sentiment_overall", sentimentOverall c);
    ("keywords_detected", keywordsDetected c); ("topics_discussed", topicsDiscussed c);
    ("objections_raised", objectionsRaised c); ("buying_signals", buyingSignals c);
    ("action_items", actionItems c); ("call_outcome", callOutcome c);
    ("deal_score", dealScore c); ("updated_at", updatedAt c)] ++ other c)%list.

(** [call.k] on a row of a query result.  Nothing in the code renames the
    keys, so [call.id] is the id while [call.organizationId] and
    [call.externalCallId] are undefined unless the table has columns of
    these very names. *)
Definition prop (c : t) (k : string) : JSVal := JS.lookup k (row c).
End VoiceCall.

Module Activity.
Record t : Type := mk {
  id : string;
  organizationId : string;
  metadata : JSVal;
  callStatus : JSVal;
  durationSeconds : JSVal;
  transcript : JSVal;
  recordingUrl : JSVal;
  costUsd : JSVal;
  completedAt : JSVal;
  sentiment : JSVal;
  sentimentScore : JSVal;
  keywordsDetected : JSVal;
  aiSummary : JSVal;
  actionItems : JSVal;
  objectionsRaised : JSVal;
  buyingSignals : JSVal;
  updatedAt : JSVal;
  other : list (string * JSVal)
}.
End Activity.

Module Store.

Record Tables : Type := mkTables {
  voice_calls : list VoiceCall.t;
  activities : list Activity.t;
  current_timestamp : JSVal      (* what CURRENT_TIMESTAMP evaluates to *)
}.

(** The SQL texts sent by the call manager and by the cancelCall mutation. *)
Inductive SqlText : Type :=
| UPDATE_VOICE_CALL_STATUS
    (* UPDATE nexuscrm.voice_calls SET status = $1,
         answered_at = COALESCE($2, answered_at), ended_at = COALESCE($3, ended_at),
         duration_seconds = COALESCE($4, duration_seconds),
         transcript = COALESCE($5, transcript), recording_url = COALESCE($6, recording_url),
         cost_usd = COALESCE($7, cost_usd), cost_breakdown = COALESCE($8, cost_breakdown),
         updated_at = CURRENT_TIMESTAMP
       WHERE external_call_id = $9 RETURNING * *)
| UPDATE_ACTIVITY_CALL_STATUS
    (* UPDATE nexuscrm.activities SET call_status = $1,
         duration_seconds = COALESCE($2, duration_seconds),
         transcript = COALESCE($3, transcript), recording_url = COALESCE($4, recording_url),
         cost_usd = COALESCE($5, cost_usd), completed_at = COALESCE($6, completed_at),
         updated_at = CURRENT_TIMESTAMP
       WHERE metadata->>'vapiCallId' = $7 *)
| UPDATE_VOICE_CALL_ANALYSIS
    (* UPDATE nexuscrm.voice_calls SET sentiment_overall = $1, keywords_detected = $2,
         topics_discussed = $3, objections_raised = $4, buying_signals = $5,
         action_items = $6, call_outcome = $7, deal_score = $8,
         updated_at = CURRENT_TIMESTAMP
       WHERE id = $9 *)
| UPDATE_ACTIVITY_ANALYSIS
    (* UPDATE nexuscrm.activities SET sentiment = $1, sentiment_score = $2,
         keywords_detected = $3, ai_summary = $4, action_items = $5,
         objections_raised = $6, buying_signals = $7, updated_at = CURRENT_TIMESTAMP
       WHERE metadata->>'voiceCallId' = $8 *)
| SELECT_VOICE_CALL_BY_ID
    (* SELECT * FROM nexuscrm.voice_calls WHERE id = $1 *)
| UPDATE_VOICE_CALL_CANCELLED.
    (* UPDATE nexuscrm.voice_calls SET status = 'cancelled',
         ended_at = CURRENT_TIMESTAMP WHERE id = $1 *)

Record Stmt : Type := mkStmt {
  text : SqlText;
  params : list JSVal
}.

(** The part of pg's [QueryResult] that the code reads. *)
Record QueryResult : Type := mkResult {
  rows : list VoiceCall.t;
  rowCount : nat
}.

Definition param (ps : list JSVal) (n : nat) : JSVal := Sql.param ps n.

(** [COALESCE($n, column)]. *)
Definition coalesce (p old : JSVal) : JSVal := if Sql.is_null p then old else p.

(** [column = $n] on text: never true of NULL. *)
Definition text_eq (col p : JSVal) : bool :=
  match col, p with
  | JStr a, JStr b => a =? b
  | _, _ => false
  end.

(** [metadata->>'key']: the text of a string field (the identifiers stored
    there are strings), NULL otherwise. *)
Definition json_text (metadata : JSVal) (key : string) : JSVal :=
  match metadata with
  | JObj fields => match JS.lookup key fields with JStr s => JStr s | _ => JNull end
  | _ => JNull
  end.

Definition update_where {A} (hit : A -> bool) (f : A -> A) (l : list A) : list A :=
  map (fun r => if hit r then f r else r) l.

Definition set_call_status (ps : list JSVal) (now : JSVal) (c : VoiceCall.t) : VoiceCall.t :=
  VoiceCall.mk (VoiceCall.id c) (VoiceCall.organizationId c) (VoiceCall.externalCallId c)
    (param ps 1)
    (coalesce (param ps 2) (VoiceCall.answeredAt c))
    (coalesce (param ps 3) (VoiceCall.endedAt c))
    (coalesce (param ps 4) (VoiceCall.durationSeconds c))
    (coalesce (param ps 5) (VoiceCall.transcript c))
    (coalesce (param ps 6) (VoiceCall.recordingUrl c))
    (coalesce (param ps 7) (VoiceCall.costUsd c))
    (coalesce (param ps 8) (VoiceCall.costBreakdown c))
    (VoiceCall.sentimentOverall c) (VoiceCall.keywordsDetected c)
    (VoiceCall.topicsDiscussed c) (VoiceCall.objectionsRaised c)
    (VoiceCall.buyingSignals c) (VoiceCall.actionItems c)
    (VoiceCall.callOutcome c) (VoiceCall.dealScore c)
    now (VoiceCall.other c).

Definition set_call_analysis (ps : list JSVal) (now : JSVal) (c : VoiceCall.t) : VoiceCall.t :=
  VoiceCall.mk (VoiceCall.id c) (VoiceCall.organizationId c) (VoiceCall.externalCallId c)
    (VoiceCall.status c) (VoiceCall.answeredAt c) (VoiceCall.endedAt c)
    (VoiceCall.durationSeconds c) (VoiceCall.transcript c) (VoiceCall.recordingUrl c)
    (VoiceCall.costUsd c) (VoiceCall.costBreakdown c)
    (param ps 1) (param ps 2) (param ps 3) (param ps 4) (param ps 5) (param ps 6)
    (param ps 7) (param ps 8)
    now (VoiceCall.other c).

Definition set_call_cancelled (now : JSVal) (c : VoiceCall.t) : VoiceCall.t :=
  VoiceCall.mk (VoiceCall.id c) (VoiceCall.organizationId c) (VoiceCall.externalCallId c)
    (JStr "cancelled") (VoiceCall.answeredAt c) now
    (VoiceCall.durationSeconds c) (VoiceCall.transcript c) (VoiceCall.recordingUrl c)
    (VoiceCall.costUsd c) (VoiceCall.costBreakdown c)
    (VoiceCall.sentimentOverall c) (VoiceCall.keywordsDetected c)
    (VoiceCall.topicsDiscussed c) (VoiceCall.objectionsRaised c)
    (VoiceCall.buyingSignals c) (VoiceCall.actionItems c)
    (VoiceCall.callOutcome c) (VoiceCall.dealScore c)
    (VoiceCall.updatedAt c) (VoiceCall.other c).

Definition set_activity_status (ps : list JSVal) (now : JSVal) (a : Activity.t) : Activity.t :=
  Activity.mk (Activity.id a) (Activity.organizationId a) (Activity.metadata a)
    (param ps 1)
    (coalesce (param ps 2) (Activity.durationSeconds a))
    (coalesce (param ps 3) (Activity.transcript a))
    (coalesce (param ps 4) (Activity.recordingUrl a))
    (coalesce (param ps 5) (Activity.costUsd a))
    (coalesce (param ps 6) (Activity.completedAt a))
    (Activity.sentiment a) (Activity.sentimentScore a) (Activity.keywordsDetected a)
    (Activity.aiSummary a) (Activity.actionItems a) (Activity.objectionsRaised a)
    (Activity.buyingSignals a)
    now (Activity.other a).

Definition set_activity_analysis (ps : list JSVal) (now : JSVal) (a : Activity.t) : Activity.t :=
  Activity.mk (Activity.id a) (Activity.organizationId a) (Activity.metadata a)
    (Activity.callStatus a) (Activity.durationSeconds a) (Activity.transcript a)
    (Activity.recordingUrl a) (Activity.costUsd a) (Activity.completedAt a)
    (param ps 1) (param ps 2) (param ps 3) (param ps 4) (param ps 5) (param ps 6)
    (param ps 7)
    now (Activity.other a).

Definition has_external_id (p : JSVal) (c : VoiceCall.t) : bool :=
  text_eq (VoiceCall.externalCallId c) p.

Definition has_id (p : JSVal) (c : VoiceCall.t) : bool :=
  text_eq (JStr (VoiceCall.id c)) p.

Definition points_to (key : string) (p : JSVal) (a : Activity.t) : bool :=
  text_eq (json_text (Activity.metadata a) key) p.

(** An UPDATE of voice_calls; only with RETURNING * are the new rows sent
    back. *)
Definition on_calls (returning : bool) (hit : VoiceCall.t -> bool)
  (f : VoiceCall.t -> VoiceCall.t) (t : Tables) : Tables * QueryResult :=
  (mkTables (update_where hit f (voice_calls t)) (activities t) (current_timestamp t),
   mkResult (if returning then map f (filter hit (voice_calls t)) else [])
     (List.length (filter hit (voice_calls t)))).

Definition on_activities (hit : Activity.t -> bool) (f : Activity.t -> Activity.t)
  (t : Tables) : Tables * QueryResult :=
  (mkTables (voice_calls t) (update_where hit f (activities t)) (current_timestamp t),
   mkResult [] (List.length (filter hit (activities t)))).

(** What each statement does to the tables.  The row-level-security
    policies are defined outside this repository, and no statement of this
    code runs with a tenant in place: [org] has no effect here. *)
Definition exec (org : option string) (s : Stmt) (t : Tables) : Exn + (Tables * QueryResult) :=
  let ps := params s in
  let now := current_timestamp t in
  match text s with
  | UPDATE_VOICE_CALL_STATUS =>
      inr (on_calls true (has_external_id (param ps 9)) (set_call_status ps now) t)
  | UPDATE_ACTIVITY_CALL_STATUS =>
      inr (on_activities (points_to "vapiCallId" (param ps 7)) (set_activity_status ps now) t)
  | UPDATE_VOICE_CALL_ANALYSIS =>
      inr (on_calls false (has_id (param ps 9)) (set_call_analysis ps now) t)
  | UPDATE_ACTIVITY_ANALYSIS =>
      inr (on_activities (points_to "voiceCallId" (param ps 8)) (set_activity_analysis ps now) t)
  | SELECT_VOICE_CALL_BY_ID =>
      inr (t, mkResult (filter (has_id (param ps 1)) (voice_calls t))
                (List.length (filter (has_id (param ps 1)) (voice_calls t))))
  | UPDATE_VOICE_CALL_CANCELLED =>
      inr (on_calls false (has_id (param ps 1)) (set_call_cancelled now) t)
  end.

End Store.

(** ** The world of the voice subsystem

    One state for everything the call manager, the webhook handler and the
    broadcast layer touch: the database, the Socket.IO singleton with what
    was emitted, the log, and the two remote services with the requests
    made to them. *)

Module World.
Import Store.

Inductive Level : Type := Debug | Info | Warn | Error.

Record Emission : Type := mkEmission {
  server : nat;        (* the Socket.IO server the emit went through *)
  room : string;
  event : string;
  payload : JSVal
}.

Record t : Type := mk {
  db : Database.DB Tables Stmt;
  ioInstance : option nat;                 (* the singleton; None is null *)
  emitted : list Emission;
  logs : list (Level * string);
  now : string;                            (* the clock, as an ISO string *)
  lookups : list (string * option string); (* getCall answers: call id, tenant of the call found *)
  reasoning_requests : list JSVal;         (* transcripts sent for analysis *)
  reasoning_reply : JSVal -> Exn + JSVal;  (* what the reasoning service answers *)
  platform_cancels : list string;          (* DELETE /call/:id requests *)
  platform_reply : string -> Exn + unit    (* what the voice platform answers *)
}.

Definition set_db (d : Database.DB Tables Stmt) (w : t) : t :=
  mk d (ioInstance w) (emitted w) (logs w) (now w) (lookups w)
    (reasoning_requests w) (reasoning_reply w) (platform_cancels w) (platform_reply w).

Definition set_ioInstance (io : option nat) (w : t) : t :=
  mk (db w) io (emitted w) (logs w) (now w) (lookups w)
    (reasoning_requests w) (reasoning_reply w) (platform_cancels w) (platform_reply w).

Definition add_emission (e : Emission) (w : t) : t :=
  mk (db w) (ioInstance w) (emitted w ++ [e]) (logs w) (now w) (lookups w)
    (reasoning_requests w) (reasoning_reply w) (platform_cancels w) (platform_reply w).

Definition add_log (l : Level * string) (w : t) : t :=
  mk (db w) (ioInstance w) (emitted w) (logs w ++ [l]) (now w) (lookups w)
    (reasoning_requests w) (reasoning_reply w) (platform_cancels w) (platform_reply w).

Definition add_lookup (l : string * option string) (w : t) : t :=
  mk (db w) (ioInstance w) (emitted w) (logs w) (now w) (lookups w ++ [l])
    (reasoning_requests w) (reasoning_reply w) (platform_cancels w) (platform_reply w).

Definition add_reasoning_request (r : JSVal) (w : t) : t :=
  mk (db w) (ioInstance w) (emitted w) (logs w) (now w) (lookups w)
    (reasoning_requests w ++ [r]) (reasoning_reply w) (platform_cancels w) (platform_reply w).

Definition add_platform_cancel (c : string) (w : t) : t :=
  mk (db w) (ioInstance w) (emitted w) (logs w) (now w) (lookups w)
    (reasoning_requests w) (reasoning_reply w) (platform_cancels w ++ [c]) (platform_reply w).

Definition tables (w : t) : Tables := Database.store (db w).

(** [logger.debug / info / warn / error]: the message, without its
    metadata object. *)
Definition log (l : Level) (msg : string) : M t unit := modify (add_log (l, msg)).

(** A database call made from the world. *)
Definition in_db {A} (m : M (Database.DB Tables Stmt) A) : M t A :=
  fun w => let (r, d) := m (db w) in (r, set_db d w).

Definition db_query (s : Stmt) : M t QueryResult := in_db (Database.query exec s).

Definition db_queryWithContext (organizationId : string) (s : Stmt) : M t QueryResult :=
  in_db (Database.queryWithContext exec organizationId s).

(** What was emitted, and which lookups were answered, between two
    worlds. *)
Definition new_emissions (before after : t) : list Emission :=
  skipn (List.length (emitted before)) (emitted after).

Definition new_lookups (before after : t) : list (string * option string) :=
  skipn (List.length (lookups before)) (lookups after).

(** The log entries added between two worlds. *)
Definition new_logs (before after : t) : list (Level * string) :=
  skipn (List.length (logs before)) (logs after).

(** [m] takes every world to one related to it by [R], whether it returns
    or throws. *)
Definition keeps {A} (R : t -> t -> Prop) (m : M t A) : Prop :=
  forall w, R w (snd (m w)).

(** The broadcast layer and the lookup record are untouched. *)
Definition same_sockets (w w' : t) : Prop :=
  ioInstance w' = ioInstance w /\ emitted w' = emitted w /\ lookups w' = lookups w.

(** No request went to the reasoning service. *)
Definition same_reasoning (w w' : t) : Prop :=
  reasoning_requests w' = reasoning_requests w.

(** The tables and the requests to the reasoning service are untouched. *)
Definition same_data (w w' : t) : Prop :=
  tables w' = tables w /\ reasoning_requests w' = reasoning_requests w.

(** No request went to the voice platform. *)
Definition same_platform (w w' : t) : Prop :=
  platform_cancels w' = platform_cancels w.

(** The log was only added to. *)
Definition logs_grow (w w' : t) : Prop :=
  exists entries, logs w' = (logs w ++ entries)%list.

(** Nothing was stored and nothing asked of the reasoning service; the
    log was only added to, and a driver that was not going to fail still is
    not. *)
Definition data_kept (w w' : t) : Prop :=
  same_data w w' /\ logs_grow w w' /\
  (Database.faults (db w) = [] -> Database.faults (db w') = []).

(** [m] throws, whatever the world it is started in. *)
Definition throws {A} (m : M t A) : Prop :=
  forall w, exists e, fst (m w) = inl e.

(** [m], started in [w], returns [a] and leaves [w']. *)
Definition returns {A} (m : M t A) (w : t) (a : A) (w' : t) : Prop :=
  m w = (inr a, w').

(** The world after a successful database call that left [tables'] and
    made the driver calls [calls]. *)
Definition after_db (tables' : Tables) (calls : list (Database.Command Stmt * Database.Outcome))
  (w : t) : t :=
  set_db (Database.mkDB tables' (Database.txn (db w)) (Database.leased (db w))
            (Database.sent (db w) ++ calls) []) w.

(** The driver will not fail and no transaction is open. *)
Definition clean (w : t) : Prop :=
  Database.faults (db w) = [] /\ Database.txn (db w) = Database.Idle.

(** [new Date()]. *)
Definition new_Date : M t JSVal := gets (fun w => JDate (JStr (now w))).

(** [new Date().toISOString()]. *)
Definition now_iso : M t JSVal := gets (fun w => JStr (now w)).

End World.

(** ** The WebSocket manager (src/websocket/manager.ts) *)

Module WebSocketManager.
Import World.

Definition initializeWebSocketManager (io : nat) : M World.t unit :=
  fun w =>
    match ioInstance w with
    | Some _ => log Warn "WebSocket manager already initialized" w
    | None => log Info "WebSocket manager initialized" (set_ioInstance (Some io) w)
    end.

(** [ioInstance.to(room).emit(event, data)]. *)
Definition emit (io : nat) (room event : string) (data : JSVal) : M World.t unit :=
  modify (add_emission (mkEmission io room event data)).

Definition broadcastToOrganization (organizationId event : string) (data : JSVal)
  : M World.t unit :=
  io <- gets ioInstance ;;
  match io with
  | None => log Warn "Cannot broadcast: WebSocket manager not initialized"
  | Some io =>
      emit io ("org:" ++ organizationId) event data ;;
      log Debug "Broadcasted event to organization"
  end.

Definition broadcastToCall (callId event : string) (data : JSVal) : M World.t unit :=
  io <- gets ioInstance ;;
  match io with
  | None => log Warn "Cannot broadcast: WebSocket manager not initialized"
  | Some io =>
      emit io ("call:" ++ callId) event data ;;
      log Debug "Broadcasted event to call room"
  end.

Definition broadcastTranscriptUpdate (callId organizationId : string) (transcript : JSVal)
  : M World.t unit :=
  io <- gets ioInstance ;;
  match io with
  | None => log Warn "Cannot broadcast transcript: WebSocket manager not initialized"
  | Some _ =>
      timestamp <- now_iso ;;
      let event := "call:transcript:update" in
      let data := JObj [("callId", JStr callId); ("transcript", transcript);
                        ("timestamp", timestamp)] in
      broadcastToCall callId event data ;;
      broadcastToOrganization organizationId event data ;;
      text <- lift (JS.get transcript "text") ;;
      _ <- lift (JS.get text "length") ;;
      log Debug "Broadcasted transcript update"
  end.

Definition broadcastCallStatus (callId organizationId status : string) (metadata : JSVal)
  : M World.t unit :=
  io <- gets ioInstance ;;
  match io with
  | None => log Warn "Cannot broadcast call status: WebSocket manager not initialized"
  | Some _ =>
      timestamp <- now_iso ;;
      let event := "call:status" in
      let data := JObj [("callId", JStr callId); ("status", JStr status);
                        ("metadata", metadata); ("timestamp", timestamp)] in
      broadcastToCall callId event data ;;
      broadcastToOrganization organizationId event data ;;
      log Debug "Broadcasted call status update"
  end.

(** The four broadcast functions behind one type, for statements about all
    of them. *)
Inductive Broadcast : Type :=
| ToOrganization (organizationId event : string) (data : JSVal)
| ToCall (callId event : string) (data : JSVal)
| TranscriptUpdate (callId organizationId : string) (transcript : JSVal)
| CallStatus (callId organizationId status : string) (metadata : JSVal).

Definition broadcast (b : Broadcast) : M World.t unit :=
  match b with
  | ToOrganization o e d => broadcastToOrganization o e d
  | ToCall c e d => broadcastToCall c e d
  | TranscriptUpdate c o t => broadcastTranscriptUpdate c o t
  | CallStatus c o s m => broadcastCallStatus c o s m
  end.

End WebSocketManager.

(** ** The voice subsystem: remote clients, call manager, webhook handler *)

Module Voice.
Import Store World WebSocketManager.

(** The optional [data] argument of [updateCallStatus]; a field left out is
    [JUndefined]. *)
Record StatusData : Type := mkStatusData {
  answeredAt : JSVal;
  endedAt : JSVal;
  durationSeconds : JSVal;
  transcript : JSVal;
  recordingUrl : JSVal;
  cost : JSVal;
  costBreakdown : JSVal
}.

Definition no_data : StatusData :=
  mkStatusData JUndefined JUndefined JUndefined JUndefined JUndefined JUndefined JUndefined.

(** [VapiWebhookEvent].  [type], [timestamp] and [data] arrive as parsed
    JSON and are kept dynamic. *)
Record VapiWebhookEvent : Type := mkEvent {
  type : JSVal;
  callId : string;
  timestamp : JSVal;
  data : JSVal
}.

(** The part of an Express request the webhook code reads: the
    [x-vapi-signature] header and the parsed body. *)
Record Request : Type := mkRequest {
  signature : option string;
  body : option VapiWebhookEvent
}.

Record Response : Type := mkResponse {
  status : nat;
  json : JSVal
}.

Inductive Passed : Type :=
| Next                         (* next() was called *)
| Responded (res : Response).  (* the middleware answered itself *)

(** [v === 'literal']. *)
Definition is_string (v : JSVal) (literal : string) : bool :=
  match v with JStr s => s =? literal | _ => false end.

(** A value used where the code expects a string; what is not a string is
    kept as the empty text. *)
Definition as_string (v : JSVal) : string :=
  match v with JStr s => s | _ => "" end.

(** [mageClient.analyze(task, data, schema)]: one request to the reasoning
    service through [reason], which logs, and wraps a failure in a new
    error; the answer is [response.data.output]. *)
Definition mage_analyze (transcript : JSVal) : M World.t JSVal :=
  log Info "MageAgent reasoning" ;;
  try_catch
    (output <- (fun w => (reasoning_reply w transcript, add_reasoning_request transcript w)) ;;
     log Info "MageAgent reasoning complete" ;;
     ret output)
    (fun error =>
       log Error "Failed to execute MageAgent reasoning" ;;
       throw (JsError ("MageAgent reasoning failed: " ++ message error))).

(** [vapiClient.cancelCall]: DELETE /call/:id. *)
Definition vapi_cancelCall (callId : string) : M World.t unit :=
  try_catch
    ((fun w => (platform_reply w callId, add_platform_cancel callId w)) ;;
     log Info "Call cancelled")
    (fun error =>
       log Error "Failed to cancel call" ;;
       throw (JsError ("Failed to cancel call: " ++ message error))).

(** The pair of emissions of [broadcastCallStatus] and
    [broadcastTranscriptUpdate]. *)
Definition to_both_rooms (io : nat) (callId organizationId event : string) (data : JSVal)
  : list Emission :=
  [mkEmission io ("call:" ++ callId) event data;
   mkEmission io ("org:" ++ organizationId) event data].

(** [callManager.getCall] as the program has it: the class under src/voice
    defines no such method, so the property is undefined and every call of
    it throws a TypeError. *)
Definition missing_getCall (t : Tables) (callId : string) : Exn + option VoiceCall.t :=
  inl (JsError "callManager.getCall is not a function").

Section CallManager.

(** The webhook handlers are written against a method [getCall] of the call
    manager: a lookup by the platform's call id.  They are kept generic in
    what that property does, so that a statement proved for every [getCall]
    holds of the program, whose [getCall] is [missing_getCall]; what the
    program does at the lookup itself is stated with [missing_getCall]. *)
Variable getCall : Tables -> string -> Exn + option VoiceCall.t.

(** [JSON.stringify] on a value, and on a request body (undefined for an
    undefined body). *)
Variable JSON_stringify : JSVal -> JSVal.
Variable body_json : VapiWebhookEvent -> string.

(** [crypto.createHmac('sha256', secret).update(payload).digest('hex')]. *)
Variable hmac_sha256_hex : string -> string -> string.

(** A call of [callManager.getCall]; an answer is recorded in [lookups].
    What the method returns is read by the handlers through the [VoiceCall]
    interface. *)
Definition callManager_getCall (callId : string) : M World.t (option VoiceCall.t) :=
  fun w =>
    match getCall (tables w) callId with
    | inl e => (inl e, w)
    | inr None => (inr None, add_lookup (callId, None) w)
    | inr (Some call) =>
        (inr (Some call), add_lookup (callId, Some (VoiceCall.organizationId call)) w)
    end.

(** A field of the analysis returned by the reasoning service. *)
Definition analysis_field (analysis : JSVal) (k : string) : JSVal :=
  match analysis with
  | JObj fields => JS.lookup k fields
  | _ => JUndefined
  end.

(** [CallManager.analyzeCallTranscript].  [organizationId] is whatever the
    caller read from the row; the SET LOCAL it goes into is refused before
    any parameter is bound, and the trace of the driver keeps its text. *)
Definition analyzeCallTranscript_body (callId : string) (transcript : JSVal)
  (organizationId : JSVal) : M World.t unit :=
  log Info "Analyzing call transcript" ;;
  analysis <- mage_analyze transcript ;;
  sentiment <- lift (JS.get analysis "sentiment") ;;
  keywords <- lift (JS.get analysis "keywords") ;;
  topicsDiscussed <- lift (JS.get analysis "topicsDiscussed") ;;
  objectionsRaised <- lift (JS.get analysis "objectionsRaised") ;;
  buyingSignals <- lift (JS.get analysis "buyingSignals") ;;
  actionItems <- lift (JS.get analysis "actionItems") ;;
  callOutcome <- lift (JS.get analysis "callOutcome") ;;
  dealScore <- lift (JS.get analysis "dealScore") ;;
  db_queryWithContext (as_string organizationId)
    (mkStmt UPDATE_VOICE_CALL_ANALYSIS
       [sentiment; keywords; JSON_stringify topicsDiscussed;
        JSON_stringify objectionsRaised; JSON_stringify buyingSignals;
        JSON_stringify actionItems; callOutcome; dealScore; JStr callId]) ;;
  sentimentScore <- lift (JS.get analysis "sentimentScore") ;;
  summary <- lift (JS.get analysis "summary") ;;
  db_queryWithContext (as_string organizationId)
    (mkStmt UPDATE_ACTIVITY_ANALYSIS
       [sentiment; sentimentScore; keywords; summary; JSON_stringify actionItems;
        JSON_stringify objectionsRaised; JSON_stringify buyingSignals; JStr callId]) ;;
  log Info "Call transcript analyzed".

Definition analyzeCallTranscript (callId : string) (transcript : JSVal)
  (organizationId : JSVal) : M World.t unit :=
  try_catch (analyzeCallTranscript_body callId transcript organizationId)
    (fun error => log Error "Failed to analyze call transcript").

(** The parameters of the two UPDATEs of [updateCallStatus]; [x || null]
    turns every falsy value into NULL. *)
Definition call_status_params (vapiCallId status : string) (d : StatusData) : list JSVal :=
  [JStr status;
   JS.or (answeredAt d) JNull;
   JS.or (endedAt d) JNull;
   JS.or (durationSeconds d) JNull;
   JS.or (transcript d) JNull;
   JS.or (recordingUrl d) JNull;
   JS.or (cost d) JNull;
   JS.or (costBreakdown d) JNull;
   JStr vapiCallId].

Definition activity_status_params (vapiCallId status : string) (d : StatusData) : list JSVal :=
  [JStr (if status =? "completed" then "completed" else status);
   JS.or (durationSeconds d) JNull;
   JS.or (transcript d) JNull;
   JS.or (recordingUrl d) JNull;
   JS.or (cost d) JNull;
   JS.or (endedAt d) JNull;
   JStr vapiCallId].

(** [CallManager.updateCallStatus]; [call] is the first row of the result,
    read as [call.id] and [call.organizationId]. *)
Definition updateCallStatus (vapiCallId status : string) (d : StatusData) : M World.t unit :=
  try_catch
    (log Info "Updating call status" ;;
     updateResult <- db_query (mkStmt UPDATE_VOICE_CALL_STATUS
                                 (call_status_params vapiCallId status d)) ;;
     match rows updateResult with
     | [] => log Warn "Call not found for update"
     | call :: _ =>
         (if (status =? "completed") && JS.truthy (transcript d)
          then analyzeCallTranscript (VoiceCall.id call) (transcript d)
                 (VoiceCall.prop call "organizationId")
          else ret tt) ;;
         db_query (mkStmt UPDATE_ACTIVITY_CALL_STATUS
                     (activity_status_params vapiCallId status d)) ;;
         log Info "Call status updated"
     end)
    (fun error => log Error "Failed to update call status" ;; throw error).

(** [CallManager.cancelCall]; [call.externalCallId] is read from the row
    of the SELECT. *)
Definition cancelCall (callId organizationId : string) : M World.t unit :=
  try_catch
    (callResult <- db_queryWithContext organizationId
                     (mkStmt SELECT_VOICE_CALL_BY_ID [JStr callId]) ;;
     match rows callResult with
     | [] => throw (JsError "Call not found")
     | call :: _ =>
         let externalCallId := VoiceCall.prop call "externalCallId" in
         (if JS.truthy externalCallId
          then vapi_cancelCall (as_string externalCallId)
          else ret tt) ;;
         endedAt <- new_Date ;;
         updateCallStatus (as_string (JS.or externalCallId (JStr "")))
           "cancelled"
           (mkStatusData JUndefined endedAt JUndefined JUndefined JUndefined JUndefined
              JUndefined) ;;
         log Info "Call cancelled"
     end)
    (fun error => log Error "Failed to cancel call" ;; throw error).

(** *** The webhook handler (src/voice/webhook-handler.ts) *)

(** [crypto.timingSafeEqual] throws unless both buffers have the same byte
    length. *)
Definition timingSafeEqual (a b : string) : Exn + bool :=
  if (String.length a =? String.length b)%nat then inr (a =? b)
  else inl (JsError "Input buffers must have the same byte length").

(** [verifySignature]; the payload is undefined when the body is, and
    [update(undefined)] throws. *)
Definition verifySignature (payload : option string) (signature secret : string)
  : M World.t bool :=
  try_catch
    (payload <- match payload with
                | Some p => ret p
                | None => throw (JsError "The data argument must be of type string")
                end ;;
     let expectedSignature := hmac_sha256_hex secret payload in
     lift (timingSafeEqual signature expectedSignature))
    (fun error => log Error "Failed to verify webhook signature" ;; ret false).

(** The request carries the signature of its own body. *)
Definition signature_matches (secret : string) (req : Request) : Prop :=
  exists event, body req = Some event /\
                signature req = Some (hmac_sha256_hex secret (body_json event)).

Definition unauthorized (reason : string) : Response :=
  mkResponse 401 (JObj [("error", JStr reason)]).

(** [verifyWebhookMiddleware], with [config.voice.vapiWebhookSecret] as
    [webhookSecret] (the empty string when the variable is not set). *)
Definition verifyWebhookMiddleware (webhookSecret : string) (req : Request)
  : M World.t Passed :=
  if webhookSecret =? "" then
    log Warn "Vapi webhook secret not configured - skipping signature verification" ;;
    ret Next
  else
    match signature req with
    | None | Some EmptyString =>
        log Warn "Webhook signature missing" ;;
        ret (Responded (unauthorized "Signature required"))
    | Some signature =>
        let payload := option_map body_json (body req) in
        valid <- verifySignature payload signature webhookSecret ;;
        if valid then ret Next
        else
          log Warn "Invalid webhook signature" ;;
          ret (Responded (unauthorized "Invalid signature"))
    end.

Definition handleCallStarted_body (event : VapiWebhookEvent) : M World.t unit :=
  log Info "Call started" ;;
  updateCallStatus (callId event) "ringing" no_data ;;
  call <- callManager_getCall (callId event) ;;
  match call with
  | Some call =>
      broadcastCallStatus (callId event) (VoiceCall.organizationId call) "initiated"
        (JObj [("startedAt", timestamp event)])
  | None => ret tt
  end.

Definition handleCallStarted (event : VapiWebhookEvent) : M World.t unit :=
  try_catch (handleCallStarted_body event)
    (fun error => log Error "Failed to handle call.started").

Definition handleCallAnswered_body (event : VapiWebhookEvent) : M World.t unit :=
  log Info "Call answered" ;;
  updateCallStatus (callId event) "in-progress"
    (mkStatusData (JDate (timestamp event)) JUndefined JUndefined JUndefined JUndefined
       JUndefined JUndefined) ;;
  call <- callManager_getCall (callId event) ;;
  match call with
  | Some call =>
      broadcastCallStatus (callId event) (VoiceCall.organizationId call) "in-progress"
        (JObj [("answeredAt", timestamp event)])
  | None => ret tt
  end.

Definition handleCallAnswered (event : VapiWebhookEvent) : M World.t unit :=
  try_catch (handleCallAnswered_body event)
    (fun error => log Error "Failed to handle call.answered").

Definition handleCallEnded_body (event : VapiWebhookEvent) : M World.t unit :=
  durationSeconds <- lift (JS.get (data event) "durationSeconds") ;;
  log Info "Call ended" ;;
  transcript <- lift (JS.get (data event) "transcript") ;;
  recordingUrl <- lift (JS.get (data event) "recordingUrl") ;;
  cost <- lift (JS.get (data event) "cost") ;;
  costBreakdown <- lift (JS.get (data event) "costBreakdown") ;;
  updateCallStatus (callId event) "completed"
    (mkStatusData JUndefined (JDate (timestamp event)) durationSeconds transcript
       recordingUrl cost costBreakdown) ;;
  call <- callManager_getCall (callId event) ;;
  match call with
  | Some call =>
      broadcastCallStatus (callId event) (VoiceCall.organizationId call) "completed"
        (JObj [("endedAt", timestamp event); ("durationSeconds", durationSeconds);
               ("cost", cost)])
  | None => ret tt
  end.

Definition handleCallEnded (event : VapiWebhookEvent) : M World.t unit :=
  try_catch (handleCallEnded_body event)
    (fun error => log Error "Failed to handle call.ended").

Definition handleCallFailed_body (event : VapiWebhookEvent) : M World.t unit :=
  reason <- lift (JS.get (data event) "reason") ;;
  log Warn "Call failed" ;;
  let status := if is_string reason "no-answer" then "no-answer" else "failed" in
  updateCallStatus (callId event) status
    (mkStatusData JUndefined (JDate (timestamp event)) JUndefined JUndefined JUndefined
       JUndefined JUndefined) ;;
  call <- callManager_getCall (callId event) ;;
  match call with
  | Some call =>
      broadcastCallStatus (callId event) (VoiceCall.organizationId call) "failed"
        (JObj [("endedAt", timestamp event); ("reason", reason)])
  | None => ret tt
  end.

Definition handleCallFailed (event : VapiWebhookEvent) : M World.t unit :=
  try_catch (handleCallFailed_body event)
    (fun error => log Error "Failed to handle call.failed").

(** [handleFunctionCalled]: logging only. *)
Definition handleFunctionCalled_body (event : VapiWebhookEvent) : M World.t unit :=
  functionName <- lift (JS.get (data event) "functionName") ;;
  parameters <- lift (JS.get (data event) "parameters") ;;
  log Info "Function called during call" ;;
  if is_string functionName "schedule_follow_up" then
    followUpDate <- lift (JS.get parameters "date") ;;
    log Info "Follow-up scheduled during call"
  else ret tt.

Definition handleFunctionCalled (event : VapiWebhookEvent) : M World.t unit :=
  try_catch (handleFunctionCalled_body event)
    (fun error => log Error "Failed to handle function.called").

(** [transcript && transcript.length > 0 ? transcript[transcript.length - 1]
    : null], for the JSON values that have a length: arrays, strings, and
    objects with a field [length].  For an object the element is the field
    named by the number [length - 1]; this is written out for a whole
    number, and a [length] of another kind (a fraction, a numeric string)
    is read as no length. *)
Definition latest_message (transcript : JSVal) : JSVal :=
  match transcript with
  | JArr items => last items JNull
  | JStr s =>
      match String.length s with
      | O => JNull
      | S n => JStr (String.substring n 1 s)
      end
  | JObj fields =>
      match JS.lookup "length" fields with
      | JNum q =>
          if (0 <? Qnum q)%Z && Qeq_bool q (inject_Z (Qfloor q))
          then JS.lookup (JS.nat_to_string (Z.to_nat (Qfloor q - 1))) fields
          else JNull
      | _ => JNull
      end
  | _ => JNull
  end.

Definition handleTranscriptUpdated_body (event : VapiWebhookEvent) : M World.t unit :=
  transcript <- lift (JS.get (data event) "transcript") ;;
  log Debug "Transcript updated" ;;
  call <- callManager_getCall (callId event) ;;
  match call with
  | None => log Warn "Call not found for transcript update"
  | Some call =>
      let latestMessage := latest_message transcript in
      if JS.truthy latestMessage then
        text <- lift (JS.get latestMessage "text") ;;
        content <- lift (JS.get latestMessage "content") ;;
        role <- lift (JS.get latestMessage "role") ;;
        stamp <- lift (JS.get latestMessage "timestamp") ;;
        confidence <- lift (JS.get latestMessage "confidence") ;;
        broadcastTranscriptUpdate (callId event) (VoiceCall.organizationId call)
          (JObj [("text", JS.or (JS.or text content) (JStr ""));
                 ("speaker", JStr (if is_string role "assistant" then "assistant" else "user"));
                 ("timestamp", JS.or stamp (timestamp event));
                 ("confidence", confidence)]) ;;
        log Debug "Transcript broadcasted to WebSocket clients"
      else ret tt
  end.

Definition handleTranscriptUpdated (event : VapiWebhookEvent) : M World.t unit :=
  try_catch (handleTranscriptUpdated_body event)
    (fun error => log Error "Failed to handle transcript.updated").

(** The six event types the switch dispatches on. *)
Inductive Dispatched : Type :=
| CallStarted | CallAnswered | CallEnded | CallFailed | FunctionCalled | TranscriptUpdated.

Definition dispatch (type : JSVal) : option Dispatched :=
  if is_string type "call.started" then Some CallStarted
  else if is_string type "call.answered" then Some CallAnswered
  else if is_string type "call.ended" then Some CallEnded
  else if is_string type "call.failed" then Some CallFailed
  else if is_string type "function.called" then Some FunctionCalled
  else if is_string type "transcript.updated" then Some TranscriptUpdated
  else None.

Definition handler (d : Dispatched) : VapiWebhookEvent -> M World.t unit :=
  match d with
  | CallStarted => handleCallStarted
  | CallAnswered => handleCallAnswered
  | CallEnded => handleCallEnded
  | CallFailed => handleCallFailed
  | FunctionCalled => handleFunctionCalled
  | TranscriptUpdated => handleTranscriptUpdated
  end.

(** The [try] block of each handler, and the message its [catch] logs. *)
Definition handler_body (d : Dispatched) : VapiWebhookEvent -> M World.t unit :=
  match d with
  | CallStarted => handleCallStarted_body
  | CallAnswered => handleCallAnswered_body
  | CallEnded => handleCallEnded_body
  | CallFailed => handleCallFailed_body
  | FunctionCalled => handleFunctionCalled_body
  | TranscriptUpdated => handleTranscriptUpdated_body
  end.

Definition handler_failure (d : Dispatched) : string :=
  match d with
  | CallStarted => "Failed to handle call.started"
  | CallAnswered => "Failed to handle call.answered"
  | CallEnded => "Failed to handle call.ended"
  | CallFailed => "Failed to handle call.failed"
  | FunctionCalled => "Failed to handle function.called"
  | TranscriptUpdated => "Failed to handle transcript.updated"
  end.

(** [handleVapiWebhook]. *)
Definition handleVapiWebhook (req : Request) : M World.t Response :=
  try_catch
    (event <- match body req with
              | Some event => ret event
              | None => throw (JsError "Cannot read properties of undefined (reading 'type')")
              end ;;
     log Info "Received Vapi webhook" ;;
     match dispatch (type event) with
     | Some d => handler d event
     | None => log Debug "Unhandled webhook event type"
     end ;;
     ret (mkResponse 200 (JObj [("received", JBool true)])))
    (fun error =>
       log Error "Failed to handle webhook" ;;
       ret (mkResponse 200 (JObj [("received", JBool true);
                                  ("error", JStr (message error))]))).

(** Whether [updateCallStatus] goes on to analyse the transcript. *)
Definition analysis_due (status : string) (d : StatusData) : bool :=
  (status =? "completed") && JS.truthy (transcript d).

(** The seven optional fields: one that is not supplied keeps its stored
    value. *)
Definition unsupplied_retained (d : StatusData) (r r' : VoiceCall.t) : Prop :=
  (answeredAt d = JUndefined -> VoiceCall.answeredAt r' = VoiceCall.answeredAt r) /\
  (endedAt d = JUndefined -> VoiceCall.endedAt r' = VoiceCall.endedAt r) /\
  (durationSeconds d = JUndefined ->
   VoiceCall.durationSeconds r' = VoiceCall.durationSeconds r) /\
  (transcript d = JUndefined -> VoiceCall.transcript r' = VoiceCall.transcript r) /\
  (recordingUrl d = JUndefined -> VoiceCall.recordingUrl r' = VoiceCall.recordingUrl r) /\
  (cost d = JUndefined -> VoiceCall.costUsd r' = VoiceCall.costUsd r) /\
  (costBreakdown d = JUndefined -> VoiceCall.costBreakdown r' = VoiceCall.costBreakdown r).

(** The columns no statement of [updateCallStatus] assigns. *)
Definition untouched_columns (r r' : VoiceCall.t) : Prop :=
  VoiceCall.id r' = VoiceCall.id r /\
  VoiceCall.organizationId r' = VoiceCall.organizationId r /\
  VoiceCall.externalCallId r' = VoiceCall.externalCallId r /\
  VoiceCall.other r' = VoiceCall.other r.

(** The columns written by transcript analysis. *)
Definition analysis_columns (r : VoiceCall.t) : list JSVal :=
  [VoiceCall.sentimentOverall r; VoiceCall.keywordsDetected r; VoiceCall.topicsDiscussed r;
   VoiceCall.objectionsRaised r; VoiceCall.buyingSignals r; VoiceCall.actionItems r;
   VoiceCall.callOutcome r; VoiceCall.dealScore r].

(** The frame as the specification words it: apart from [status] and the
    supplied fields, nothing in the row changes. *)
Definition only_status_and_supplied_change (d : StatusData) (r r' : VoiceCall.t) : Prop :=
  unsupplied_retained d r r' /\
  untouched_columns r r' /\
  analysis_columns r' = analysis_columns r /\
  VoiceCall.updatedAt r' = VoiceCall.updatedAt r.

(** The frame the code keeps: [updated_at] is free to change, and so are
    the analysis columns when the transcript is analysed. *)
Definition status_update_frame (status : string) (d : StatusData) (r r' : VoiceCall.t) : Prop :=
  unsupplied_retained d r r' /\
  untouched_columns r r' /\
  (analysis_due status d = false -> analysis_columns r' = analysis_columns r).

(** Between two worlds (the first with no transaction open) every
    voice-call row is still there, in place, within the frame. *)
Definition calls_framed (status : string) (d : StatusData) (w w' : World.t) : Prop :=
  Database.txn (db w) = Database.Idle ->
  Database.txn (db w') = Database.Idle /\
  Forall2 (status_update_frame status d) (voice_calls (tables w)) (voice_calls (tables w')).

(** The [data] argument [handleCallEnded] builds from an event whose
    [data] is an object. *)
Definition ended_data (event : VapiWebhookEvent) : StatusData :=
  mkStatusData JUndefined (JDate (timestamp event))
    (analysis_field (data event) "durationSeconds")
    (analysis_field (data event) "transcript")
    (analysis_field (data event) "recordingUrl")
    (analysis_field (data event) "cost")
    (analysis_field (data event) "costBreakdown").

(** The columns of an activity written by transcript analysis. *)
Definition activity_analysis_columns (a : Activity.t) : list JSVal :=
  [Activity.sentiment a; Activity.sentimentScore a; Activity.keywordsDetected a;
   Activity.aiSummary a; Activity.actionItems a; Activity.objectionsRaised a;
   Activity.buyingSignals a].

(** Between two worlds no row has been added, removed or moved, and none
    has another value in a column that transcript analysis writes. *)
Definition analysis_unwritten (w w' : World.t) : Prop :=
  Forall2 (fun r r' => analysis_columns r' = analysis_columns r)
    (voice_calls (tables w)) (voice_calls (tables w')) /\
  Forall2 (fun a a' => activity_analysis_columns a' = activity_analysis_columns a)
    (activities (tables w)) (activities (tables w')).

(** [app.post('/webhooks/vapi', verifyWebhookMiddleware, handleVapiWebhook)]. *)
Definition webhook_route (webhookSecret : string) (req : Request) : M World.t Response :=
  passed <- verifyWebhookMiddleware webhookSecret req ;;
  match passed with
  | Next => handleVapiWebhook req
  | Responded res => ret res
  end.

End CallManager.

End Voice.

(** ** The cancelCall mutation (src/graphql/resolvers.ts)

    [auth] is the organization of [context.auth.user]; [None] stands for a
    request without a verified principal, where reading it throws. *)

Module Mutation.
Import Store World.

Definition cancelCall (callId : string) (auth : option string) : M World.t bool :=
  try_catch
    (organizationId <- match auth with
                       | Some org => ret org
                       | None => throw (JsError "Cannot read properties of null (reading 'user')")
                       end ;;
     result <- db_queryWithContext organizationId
                 (mkStmt UPDATE_VOICE_CALL_CANCELLED [JStr callId]) ;;
     log Info "Voice call cancelled" ;;
     ret (0 <? rowCount result)%nat)
    (fun error => log Error "Failed to cancel call" ;; throw (JsError "Failed to cancel call")).

End Mutation.

(** ** Concrete data for the examples *)

Module Samples.
Import Store World Voice.

Definition call1 : VoiceCall.t :=
  VoiceCall.mk "call-1" "org-1" (JStr "vapi-1") (JStr "in-progress")
    (JDate (JStr "2024-05-01T10:00:05Z")) JNull JNull (JStr "Hi, this is Ann.") JNull JNull JNull
    JNull JNull JNull JNull JNull JNull JNull JNull
    (JDate (JStr "2024-05-01T10:00:05Z"))
    [("platform", JStr "vapi"); ("to_number", JStr "+15550100")].

Definition activity1 : Activity.t :=
  Activity.mk "act-1" "org-1"
    (JObj [("voiceCallId", JStr "call-1"); ("vapiCallId", JStr "vapi-1")])
    (JStr "initiated") JNull JNull JNull JNull JNull
    JNull JNull JNull JNull JNull JNull JNull
    (JDate (JStr "2024-05-01T10:00:00Z")) [("type", JStr "call")].

Definition tables1 : Tables :=
  mkTables [call1] [activity1] (JDate (JStr "2024-05-01T10:03:00Z")).

Definition analysis1 : JSVal :=
  JObj [("sentiment", JStr "positive"); ("sentimentScore", JNum (4 # 5));
        ("keywords", JArr [JStr "pricing"]); ("topicsDiscussed", JArr []);
        ("objectionsRaised", JArr []); ("buyingSignals", JArr []);
        ("actionItems", JArr []); ("callOutcome", JStr "needs_follow_up");
        ("dealScore", JNum (70 # 1)); ("summary", JStr "Asked about pricing.")].

(** A world over [tables1]: the singleton as given, the driver failing as
    listed, both remote services answering. *)
Definition world (io : option nat) (faults : list bool) : World.t :=
  World.mk (Database.mkDB tables1 Database.Idle 0 [] faults) io [] []
    "2024-05-01T10:03:01Z" [] [] (fun _ => inr analysis1) [] (fun _ => inr tt).

Definition stringify (v : JSVal) : JSVal := JObj [("json", v)].

Definition body_text (e : VapiWebhookEvent) : string :=
  "{callId:" ++ callId e ++ "}".

(** A stand-in for the keyed hash: enough to tell bodies apart. *)
Definition toy_hmac (secret payload : string) : string := secret ++ "/" ++ payload.

Definition ended_event (transcript : JSVal) : VapiWebhookEvent :=
  mkEvent (JStr "call.ended") "vapi-1" (JStr "2024-05-01T10:03:00Z")
    (JObj [("durationSeconds", JNum (175 # 1)); ("transcript", transcript);
           ("cost", JNum (7 # 20))]).

Definition started_event (callId : string) : VapiWebhookEvent :=
  mkEvent (JStr "call.started") callId (JStr "2024-05-01T10:00:00Z") (JObj []).

(** A toy database for the helper on its own: the store is the list of
    statements applied, and the statement "INSERT bad" is refused. *)
Definition ledger_exec (org : option string) (s : string) (st : list string)
  : Exn + (list string * nat) :=
  if s =? "INSERT bad" then inl (JsError "syntax error")
  else inr ((st ++ [s])%list, 1).

Definition ledger (faults : list bool) : Database.DB (list string) string :=
  Database.mkDB ["INSERT first"] Database.Idle 0 [] faults.

Definition tampered_request : Request :=
  mkRequest (Some (toy_hmac "s3cret" (body_text (started_event "vapi-1"))))
    (Some (started_event "vapi-2")).

Definition unsigned_request (e : VapiWebhookEvent) : Request := mkRequest None (Some e).

End Samples.

(** ** More of the list queries (src/graphql/resolvers.ts) *)

Module ListShape.
Import ListQuery Sql.

(** The placeholder a condition mentions. *)
Definition cond_placeholder (c : Cond) : option nat :=
  match c with
  | IsNull _ => None
  | EqParam _ n | GeParam _ n | LeParam _ n | ILikeAny _ n => Some n
  end.

Fixpoint placeholders_of (conds : list Cond) : list nat :=
  match conds with
  | [] => []
  | c :: rest =>
      match cond_placeholder c with
      | Some n => n :: placeholders_of rest
      | None => placeholders_of rest
      end
  end.

(** The placeholders of a SELECT in the order of its text: those of the
    WHERE clause, then LIMIT and OFFSET. *)
Definition placeholders (q : Select) : list nat :=
  (placeholders_of (where_ q) ++ [limit_at q; offset_at q])%list.

Definition limit_of (r : Request) : Arg Z :=
  match r with
  | Contacts _ l _ | Companies _ l _ | Deals _ _ l _ | Activities _ _ _ _ l _
  | Campaigns _ l _ | VoiceCalls _ l _ => l
  end.

Definition offset_of (r : Request) : Arg Z :=
  match r with
  | Contacts _ _ o | Companies _ _ o | Deals _ _ _ o | Activities _ _ _ _ _ o
  | Campaigns _ _ o | VoiceCalls _ _ o => o
  end.

(** The most rows a call may return: the limit given, 50 when it is left
    out, no bound when it is an explicit null. *)
Definition window (limit : Arg Z) : option nat :=
  match limit with
  | Undef => Some 50
  | Null => None
  | Val z => Some (Z.to_nat z)
  end.

(** [contactsCount]: SELECT COUNT( * ) over the conditions built from
    [companyId] and [leadStatus], the only two fields of the filter it
    reads. *)
Record Count : Type := mkCount {
  count_table : string;
  count_where : list Cond;
  count_args : list JSVal
}.

Definition contactsCount (filter : Arg ContactFilter) : Count :=
  let b := match filter with
           | Val f =>
               let b := when (arg_string_truthy (companyId f))
                          (push (EqParam "company_id") (arg_str (companyId f)))
                          start_not_deleted in
               when (arg_string_truthy (leadStatus f))
                 (push (EqParam "lead_status") (arg_str (leadStatus f))) b
           | _ => start_not_deleted
           end in
  {| count_table := "nexuscrm.contacts";
     count_where := conditions b;
     count_args := params b |}.

Definition count_text (q : Count) : string :=
  "SELECT COUNT(" ++ "*" ++ ") FROM " ++ count_table q ++ " " ++ where_text (count_where q).

(** The invariant of the builder: the placeholders written so far are
    $1 ... $n for the n parameters pushed, and [paramIndex] is n + 1. *)
Definition well_numbered (b : Builder) : Prop :=
  placeholders_of (conditions b) = seq 1 (List.length (params b)) /\
  paramIndex b = S (List.length (params b)).

(** One builder state continues another: conditions and parameters were
    only added. *)
Definition extends (b b' : Builder) : Prop :=
  exists conds ps,
    conditions b' = (conditions b ++ conds)%list /\ params b' = (params b ++ ps)%list.

(** The number the database answers, which [parseInt] reads back. *)
Definition run_count (E : Engine) (q : Count) (db : Tables) : nat :=
  List.length (filter (where_holds E (count_args q) (count_where q)) (db (count_table q))).

End ListShape.

(** ** Configuration (src/config): reading the environment

    [env] is [process.env]: a variable is absent or holds a string. *)

Module Config.

(** [getEnv]: an absent or empty variable yields the default, or throws
    when none is given. *)
Definition getEnv (env : string -> option string) (key : string)
  (defaultValue : option string) : Exn + string :=
  match env key with
  | None | Some EmptyString =>
      match defaultValue with
      | Some d => inr d
      | None => inl (JsError ("Environment variable " ++ key ++ " is required but not set"))
      end
  | Some value => inr value
  end.

(** [config.voice.vapiWebhookSecret]. *)
Definition vapiWebhookSecret (env : string -> option string) : Exn + string :=
  getEnv env "VAPI_WEBHOOK_SECRET" (Some "").

(** [getEnvBoolean], with [String.prototype.toLowerCase] as a parameter. *)
Definition getEnvBoolean (toLowerCase : string -> string) (env : string -> option string)
  (key : string) (defaultValue : bool) : bool :=
  match env key with
  | None | Some EmptyString => defaultValue
  | Some value => (toLowerCase value =? "true") || (value =? "1")
  end.

End Config.

(** ** The first message of a call (CallManager.extractFirstMessage)

    Strings stand for their UTF-8 bytes, on which splitting at a line feed
    and searching an ASCII needle are what they are on the characters.
    [trim] and [toLowerCase] depend on Unicode tables and are parameters. *)

Module FirstMessage.

(** [s.split(sep)] for a one-character separator: never empty. *)
Fixpoint split_on (sep : ascii) (s : string) : list string :=
  match s with
  | EmptyString => [EmptyString]
  | String c rest =>
      if Ascii.eqb c sep then EmptyString :: split_on sep rest
      else match split_on sep rest with
           | h :: t => String c h :: t
           | [] => [String c EmptyString]
           end
  end.

(** [s.includes(needle)]. *)
Fixpoint includes (s needle : string) : bool :=
  String.prefix needle s ||
  match s with
  | EmptyString => false
  | String _ rest => includes rest needle
  end.

Definition line_feed : ascii := Ascii.ascii_of_nat 10.

Section Extract.

Variable trim : string -> string.
Variable toLowerCase : string -> string.

(** The test of the loop: one of four greetings occurs in the lowered
    line. *)
Definition is_greeting (line : string) : bool :=
  includes (toLowerCase line) "hello" ||
  includes (toLowerCase line) "hi " ||
  includes (toLowerCase line) "good morning" ||
  includes (toLowerCase line) "good afternoon".

(** [script.split('\n').filter((line) => line.trim())]. *)
Definition script_lines (script : string) : list string :=
  filter (fun line => negb (trim line =? "")) (split_on line_feed script).

Definition extractFirstMessage (script : string) : string :=
  match script_lines script with
  | [] => "Hello!"
  | first :: _ =>
      match find is_greeting (script_lines script) with
      | Some line => trim line
      | None => trim first
      end
  end.

End Extract.

End FirstMessage.

(** ** Connecting and probing the database (src/utils/database.ts)

    [Database.connect], [disconnect] and [healthCheck], over the driver
    model of [Database].  The three fixed statements and the two tests made
    on their results are parameters, like the meaning of statements. *)

Module Lifecycle.
Import Database.

Section Handle.

Variables Store Stmt Res : Type.
Variable exec : option string -> Stmt -> Store -> Exn + (Store * Res).

Variable select_now : Stmt.        (* SELECT NOW() *)
Variable schema_check : Stmt.      (* SELECT schema_name FROM information_schema.schemata
                                      WHERE schema_name = 'nexuscrm' *)
Variable select_health : Stmt.     (* SELECT 1 as health *)
Variable no_rows : Res -> bool.    (* result.rows.length === 0 *)
Variable health_is_one : Res -> bool.  (* result.rows[0]?.health === 1 *)

(** The [Database] object: its pool and its [isConnected] flag. *)
Record Handle : Type := mkHandle {
  pool : DB Store Stmt;
  isConnected : bool
}.

Definition on_pool {A} (m : M (DB Store Stmt) A) : M Handle A :=
  fun h => let (r, d) := m (pool h) in (r, mkHandle d (isConnected h)).

Definition schema_missing : Exn :=
  JsError "NexusCRM schema not found. Please run migration 011_nexuscrm_schema.sql first.".

(** [Database.connect]. *)
Definition connect : M Handle unit :=
  fun h =>
    if isConnected h then (inr tt, h)
    else
      try_catch
        (on_pool (pool_connect Store Stmt) ;;
         on_pool (client_query Store Stmt Res exec select_now) ;;
         schemaCheck <- on_pool (client_query Store Stmt Res exec schema_check) ;;
         (if no_rows schemaCheck then throw schema_missing else ret tt) ;;
         modify (fun h => mkHandle (client_release Store Stmt (pool h)) true))
        (fun error => throw error) h.

(** [Database.healthCheck]. *)
Definition healthCheck : M Handle bool :=
  try_catch
    (result <- on_pool (query exec select_health) ;;
     ret (health_is_one result))
    (fun _ => ret false).

End Handle.

Arguments pool {Store Stmt}.
Arguments isConnected {Store Stmt}.
Arguments mkHandle {Store Stmt}.
Arguments connect {Store Stmt Res}.
Arguments healthCheck {Store Stmt Res}.

End Lifecycle.

(** ** Health of the service (src/clients/index.ts, src/index.ts)

    The four clients with a plain health check call GET /health and answer
    whether the status is 200; the GraphRAG client reads three fields of
    the body.  [Remote] holds what each service answers: the HTTP status or
    body, or the error axios throws.  The endpoints' logging is left out,
    as the helper's is. *)

Module Health.
Import Lifecycle.

Record Remote : Type := mkRemote {
  orchestration : Exn + nat;
  mage : Exn + nat;
  graphRAG : Exn + JSVal;
  geo : Exn + nat;
  auth : Exn + nat
}.

(** [healthCheck] of the orchestration, reasoning, geo and auth clients. *)
Definition client_healthCheck (reply : Exn + nat) : bool :=
  match reply with
  | inr status => (status =? 200)%nat
  | inl _ => false
  end.

Record GraphRAGHealth : Type := mkGraphRAGHealth {
  postgres : bool;
  neo4j : bool;
  qdrant : bool
}.

(** [GraphRAGClient.healthCheck]: each field says whether the body's field
    is the string 'healthy'; any error gives three times false. *)
Definition graphRAG_healthCheck (reply : Exn + JSVal) : GraphRAGHealth :=
  match reply with
  | inr data =>
      match JS.get data "postgres", JS.get data "neo4j", JS.get data "qdrant" with
      | inr p, inr n, inr q =>
          mkGraphRAGHealth (Voice.is_string p "healthy") (Voice.is_string n "healthy")
            (Voice.is_string q "healthy")
      | _, _, _ => mkGraphRAGHealth false false false
      end
  | inl _ => mkGraphRAGHealth false false false
  end.

Record ServicesHealth : Type := mkServicesHealth {
  orchestration_healthy : bool;
  mage_healthy : bool;
  graphRAG_healthy : GraphRAGHealth;
  geo_healthy : bool;
  auth_healthy : bool;
  allHealthy : bool
}.

(** [healthCheckAll]; the [.catch] on each check never fires, the checks
    do not throw. *)
Definition healthCheckAll (remote : Remote) : ServicesHealth :=
  let orchestration := client_healthCheck (orchestration remote) in
  let mage := client_healthCheck (mage remote) in
  let graphRAG := graphRAG_healthCheck (graphRAG remote) in
  let geo := client_healthCheck (geo remote) in
  let auth := client_healthCheck (auth remote) in
  mkServicesHealth orchestration mage graphRAG geo auth
    (orchestration && mage && postgres graphRAG && neo4j graphRAG && qdrant graphRAG
     && geo && auth).

Definition services_json (h : ServicesHealth) : JSVal :=
  JObj [("orchestration", JBool (orchestration_healthy h));
        ("mage", JBool (mage_healthy h));
        ("graphRAG", JObj [("postgres", JBool (postgres (graphRAG_healthy h)));
                           ("neo4j", JBool (neo4j (graphRAG_healthy h)));
                           ("qdrant", JBool (qdrant (graphRAG_healthy h)))]);
        ("geo", JBool (geo_healthy h));
        ("auth", JBool (auth_healthy h));
        ("allHealthy", JBool (allHealthy h))].

Section Endpoints.

Variables Store Stmt Res : Type.
Variable exec : option string -> Stmt -> Store -> Exn + (Store * Res).
Variable select_health : Stmt.
Variable health_is_one : Res -> bool.
Variable serviceName : string.   (* config.serviceName *)
Variable now : string.           (* new Date().toISOString() *)

(** GET /health. *)
Definition health (remote : Remote) : M (Handle Store Stmt) Voice.Response :=
  try_catch
    (dbHealthy <- healthCheck exec select_health health_is_one ;;
     let servicesHealth := healthCheckAll remote in
     let status := if dbHealthy && allHealthy servicesHealth then "healthy" else "degraded" in
     let statusCode := if status =? "healthy" then 200 else 503 in
     ret (Voice.mkResponse statusCode
            (JObj [("status", JStr status); ("timestamp", JStr now);
                   ("service", JStr serviceName); ("version", JStr "1.0.0");
                   ("database", JBool dbHealthy);
                   ("services", services_json servicesHealth)])))
    (fun error =>
       ret (Voice.mkResponse 503
              (JObj [("status", JStr "unhealthy"); ("error", JStr (message error))]))).

(** GET /health/ready. *)
Definition ready : M (Handle Store Stmt) Voice.Response :=
  try_catch
    (dbHealthy <- healthCheck exec select_health health_is_one ;;
     if dbHealthy then ret (Voice.mkResponse 200 (JObj [("ready", JBool true)]))
     else ret (Voice.mkResponse 503 (JObj [("ready", JBool false)])))
    (fun _ => ret (Voice.mkResponse 503 (JObj [("ready", JBool false)]))).

(** The [health] query of the GraphQL layer: it looks at the remote
    services only. *)
Definition query_health (remote : Remote) : JSVal :=
  let servicesHealth := healthCheckAll remote in
  JObj [("status", JStr (if allHealthy servicesHealth then "healthy" else "degraded"));
        ("services", services_json servicesHealth);
        ("timestamp", JDate (JStr now))].

(** The probe statement goes through and its first row has health 1. *)
Definition database_answers (h : Handle Store Stmt) : Prop :=
  hd false (Database.faults (pool h)) = false /\
  exists st' r,
    exec None select_health (Database.store (pool h)) = inr (st', r) /\
    health_is_one r = true.

End Endpoints.

(** Every remote service reports healthy. *)
Definition services_answer (remote : Remote) : Prop :=
  orchestration remote = inr 200 /\ mage remote = inr 200 /\
  geo remote = inr 200 /\ auth remote = inr 200 /\
  exists fields,
    graphRAG remote = inr (JObj fields) /\
    JS.lookup "postgres" fields = JStr "healthy" /\
    JS.lookup "neo4j" fields = JStr "healthy" /\
    JS.lookup "qdrant" fields = JStr "healthy".

Arguments health {Store Stmt Res}.
Arguments ready {Store Stmt Res}.
Arguments database_answers {Store Stmt Res}.

End Health.

(** ** More of the WebSocket manager and of the webhook handler *)

Module Sockets.
Import World WebSocketManager.

(** [getIO]. *)
Definition getIO : M World.t nat :=
  fun w =>
    match ioInstance w with
    | None => (inl (JsError "WebSocket manager not initialized. Call initializeWebSocketManager() first."), w)
    | Some io => (inr io, w)
    end.

(** The rooms a broadcast emits to, in order, and the event it emits. *)
Definition rooms_of (b : Broadcast) : list string :=
  match b with
  | ToOrganization organizationId _ _ => ["org:" ++ organizationId]
  | ToCall callId _ _ => ["call:" ++ callId]
  | TranscriptUpdate callId organizationId _ => ["call:" ++ callId; "org:" ++ organizationId]
  | CallStatus callId organizationId _ _ => ["call:" ++ callId; "org:" ++ organizationId]
  end.

Definition event_of (b : Broadcast) : string :=
  match b with
  | ToOrganization _ event _ => event
  | ToCall _ event _ => event
  | TranscriptUpdate _ _ _ => "call:transcript:update"
  | CallStatus _ _ _ _ => "call:status"
  end.

(** Nothing but the log differs between two worlds. *)
Definition only_logged (w w' : World.t) : Prop :=
  exists entries,
    w' = World.mk (db w) (ioInstance w) (emitted w) (logs w ++ entries) (now w)
           (lookups w) (reasoning_requests w) (reasoning_reply w)
           (platform_cancels w) (platform_reply w).

(** The database and the two remote services are untouched. *)
Definition same_backends (w w' : World.t) : Prop :=
  db w' = db w /\
  reasoning_requests w' = reasoning_requests w /\
  platform_cancels w' = platform_cancels w.

(** Two worlds differ in the database and the log at most. *)
Definition only_db_and_log (w w' : World.t) : Prop :=
  ioInstance w' = ioInstance w /\ emitted w' = emitted w /\ now w' = now w /\
  lookups w' = lookups w /\ reasoning_requests w' = reasoning_requests w /\
  reasoning_reply w' = reasoning_reply w /\ platform_cancels w' = platform_cancels w /\
  platform_reply w' = platform_reply w.

(** The event types whose handler calls [updateCallStatus]. *)
Definition updates_status (d : option Voice.Dispatched) : bool :=
  match d with
  | Some Voice.CallStarted | Some Voice.CallAnswered | Some Voice.CallEnded
  | Some Voice.CallFailed => true
  | _ => false
  end.

End Sockets.

Module Statuses.
Import Store World Voice.

(** The activities after [updateCallStatus] ran to its end: the second
    UPDATE is sent only when the first returned a row. *)
Definition activities_after_status (vapiCallId status : string) (d : StatusData)
  (t : Tables) : list Activity.t :=
  match filter (has_external_id (JStr vapiCallId)) (voice_calls t) with
  | [] => activities t
  | _ :: _ =>
      update_where (points_to "vapiCallId" (JStr vapiCallId))
        (set_activity_status (activity_status_params vapiCallId status d)
           (current_timestamp t))
        (activities t)
  end.

(** The reasoning service gave nothing to read fields from: the request
    failed, or its output was undefined or null. *)
Definition no_analysis (reply : Exn + JSVal) : bool :=
  match reply with
  | inl _ | inr JUndefined | inr JNull => true
  | inr _ => false
  end.

Definition calls_after_status (vapiCallId status : string) (d : StatusData)
  (t : Tables) : list VoiceCall.t :=
  update_where (has_external_id (JStr vapiCallId))
    (set_call_status (call_status_params vapiCallId status d) (current_timestamp t))
    (voice_calls t).

(** The status each status handler writes to the row. *)
Definition stored_status (d : Dispatched) (event : VapiWebhookEvent) : string :=
  match d with
  | CallStarted => "ringing"
  | CallAnswered => "in-progress"
  | CallEnded => "completed"
  | CallFailed =>
      if is_string (analysis_field (data event) "reason") "no-answer" then "no-answer"
      else "failed"
  | _ => ""
  end.

(** The [data] argument each status handler gives to [updateCallStatus]
    (for call.ended, from an event whose [data] is an object). *)
Definition handler_data (d : Dispatched) (event : VapiWebhookEvent) : StatusData :=
  match d with
  | CallAnswered =>
      mkStatusData (JDate (timestamp event)) JUndefined JUndefined JUndefined JUndefined
        JUndefined JUndefined
  | CallFailed =>
      mkStatusData JUndefined (JDate (timestamp event)) JUndefined JUndefined JUndefined
        JUndefined JUndefined
  | CallEnded => ended_data event
  | _ => no_data
  end.

End Statuses.

(** ** More concrete data for the examples *)

Module MoreSamples.
Import Store World Voice.

Definition transcript_event : VapiWebhookEvent :=
  mkEvent (JStr "transcript.updated") "vapi-1" (JStr "2024-05-01T10:01:30Z")
    (JObj [("transcript",
            JArr [JObj [("role", JStr "assistant"); ("content", JStr "Hi, this is Ann.")];
                  JObj [("role", JStr "user"); ("text", JStr "Who is calling?")]])]).

Definition failed_event (reason : string) : VapiWebhookEvent :=
  mkEvent (JStr "call.failed") "vapi-1" (JStr "2024-05-01T10:00:40Z")
    (JObj [("reason", JStr reason)]).

Definition unknown_event : VapiWebhookEvent :=
  mkEvent (JStr "speech.started") "vapi-1" (JStr "2024-05-01T10:00:06Z") (JObj []).

(** Remote services that all report healthy. *)
Definition healthy_remote : Health.Remote :=
  Health.mkRemote (inr 200) (inr 200)
    (inr (JObj [("postgres", JStr "healthy"); ("neo4j", JStr "healthy");
                ("qdrant", JStr "healthy")]))
    (inr 200) (inr 200).

(** The toy database of the helper's examples answers the probe with one
    row. *)
Definition ledger_handle (faults : list bool) (connected : bool)
  : Lifecycle.Handle (list string) string :=
  Lifecycle.mkHandle (Samples.ledger faults) connected.

Definition probe_exec (org : option string) (s : string) (st : list string)
  : Exn + (list string * nat) :=
  if s =? "SELECT 1 as health" then inr (st, 1)
  else if s =? "SELECT schema_name" then inr (st, List.length st)
  else Samples.ledger_exec org s st.

(** Two contacts of one company, the second soft-deleted, and a list
    request for that company. *)
Definition contacts_db : Sql.Tables := fun t =>
  if t =? "nexuscrm.contacts" then
    [ [("id", JStr "k1"); ("company_id", JStr "c1"); ("owner_id", JStr "u1");
       ("deleted_at", JNull)];
      [("id", JStr "k2"); ("company_id", JStr "c1"); ("owner_id", JStr "u2");
       ("deleted_at", JNull)];
      [("id", JStr "k3"); ("company_id", JStr "c1"); ("owner_id", JStr "u1");
       ("deleted_at", JDate (JStr "2024-01-01"))] ]
  else [].

Definition owned_by (owner : string) : Arg ListQuery.ContactFilter :=
  Val (ListQuery.mkContactFilter (Val "c1") Undef (Val owner) Undef Undef Undef).

End MoreSamples.

(** ** The resolvers of the GraphQL layer (src/graphql/resolvers.ts)

    Statements are kept as syntax, with the text the resolver sends
    ([stmt_text], white space normalised) and the values bound to its
    placeholders.  What a statement does is left to [exec], as in the
    database helper: most properties of the resolvers hold whatever the
    database answers.  Rows come back as objects.  [auth] is
    [context.auth]: the verified user, or null. *)

Module Resolvers.
Import Database.

Inductive Stmt : Type :=
| SelectById (table : string) (live_only : bool) (id : JSVal)
| SelectList (q : ListQuery.Select)
| SelectCount (q : ListShape.Count)
| InsertContact (values : list JSVal)
| UpdateContact (updates : list (string * nat)) (id_at : nat) (values : list JSVal)
| SoftDeleteContact (id : JSVal)
| UpdateEnrichment (values : list JSVal)
| InsertVoiceCall (values : list JSVal)
| InsertActivity (values : list JSVal)
| ActivateCampaign (values : list JSVal)
| SetCampaignStatus (status : string) (completed : bool) (id : JSVal)
| CancelVoiceCall (id : JSVal).

Definition stmt_text (s : Stmt) : string :=
  match s with
  | SelectById table live_only _ =>
      "SELECT * FROM " ++ table ++ " WHERE id = $1"
      ++ (if live_only then " AND deleted_at IS NULL" else "")
  | SelectList q => ListQuery.select_text q
  | SelectCount q => ListShape.count_text q
  | InsertContact _ =>
      "INSERT INTO nexuscrm.contacts ( company_id, first_name, last_name, email, phone, mobile, job_title, department, seniority, lead_source, owner_id, tags, custom_fields, organization_id ) VALUES ($1, $2, $3, $4, $5, $6, $7, $8, $9, $10, $11, $12, $13, $14) RETURNING *"
  | UpdateContact updates id_at _ =>
      "UPDATE nexuscrm.contacts SET "
      ++ ListQuery.join ", "
           (map (fun u => fst u ++ " = " ++ ListQuery.placeholder (snd u)) updates)
      ++ ", updated_at = CURRENT_TIMESTAMP WHERE id = " ++ ListQuery.placeholder id_at
      ++ " AND deleted_at IS NULL RETURNING *"
  | SoftDeleteContact _ =>
      "UPDATE nexuscrm.contacts SET deleted_at = CURRENT_TIMESTAMP WHERE id = $1 AND deleted_at IS NULL"
  | UpdateEnrichment _ =>
      "UPDATE nexuscrm.contacts SET enrichment_data = $1, enrichment_source = $2, enrichment_confidence = $3, enriched_at = CURRENT_TIMESTAMP, updated_at = CURRENT_TIMESTAMP WHERE id = $4 RETURNING *"
  | InsertVoiceCall _ =>
      "INSERT INTO nexuscrm.voice_calls ( platform, from_number, to_number, status, assistant_config, metadata, organization_id ) VALUES ($1, $2, $3, $4, $5, $6, $7) RETURNING *"
  | InsertActivity _ =>
      "INSERT INTO nexuscrm.activities ( type, direction, contact_id, to_number, call_status, metadata, organization_id, created_by ) VALUES ($1, $2, $3, $4, $5, $6, $7, $8)"
  | ActivateCampaign _ =>
      "UPDATE nexuscrm.campaigns SET status = 'active', orchestration_execution_id = $1, launched_at = CURRENT_TIMESTAMP, updated_at = CURRENT_TIMESTAMP WHERE id = $2"
  | SetCampaignStatus status completed _ =>
      "UPDATE nexuscrm.campaigns SET status = '" ++ status ++ "', "
      ++ (if completed then "completed_at = CURRENT_TIMESTAMP, " else "")
      ++ "updated_at = CURRENT_TIMESTAMP WHERE id = $1 RETURNING *"
  | CancelVoiceCall _ =>
      "UPDATE nexuscrm.voice_calls SET status = 'cancelled', ended_at = CURRENT_TIMESTAMP WHERE id = $1"
  end.

Definition stmt_values (s : Stmt) : list JSVal :=
  match s with
  | SelectById _ _ id | SoftDeleteContact id | SetCampaignStatus _ _ id
  | CancelVoiceCall id => [id]
  | SelectList q => ListQuery.args q
  | SelectCount q => ListShape.count_args q
  | InsertContact values | UpdateContact _ _ values | UpdateEnrichment values
  | InsertVoiceCall values | InsertActivity values | ActivateCampaign values => values
  end.

(** The part of pg's [QueryResult] the resolvers read; [rowCount] may be
    null. *)
Record Rows : Type := mkRows {
  rows : list JSVal;
  rowCount : option nat
}.

(** [context.auth.user]. *)
Record AuthUser : Type := mkAuthUser {
  user_id : string;
  user_organizationId : string
}.

(** A GraphQL input object. *)
Definition Input : Type := list (string * JSVal).

Definition field (input : Input) (k : string) : JSVal := JS.lookup k input.

(** [updateContact]: the fields of the input in the order the resolver
    tests them, each with the column it sets. *)
Definition contact_fields : list (string * string) :=
  [("firstName", "first_name"); ("lastName", "last_name"); ("email", "email");
   ("phone", "phone"); ("mobile", "mobile"); ("jobTitle", "job_title");
   ("department", "department"); ("seniority", "seniority");
   ("leadStatus", "lead_status"); ("leadScore", "lead_score");
   ("lifecycleStage", "lifecycle_stage"); ("doNotCall", "do_not_call");
   ("doNotEmail", "do_not_email"); ("tags", "tags"); ("customFields", "custom_fields")].

Record Updates : Type := mkUpdates {
  updates : list (string * nat);
  params : list JSVal;
  paramIndex : nat
}.

(** [if (input.f !== undefined) { updates.push(`col = $${paramIndex++}`);
    params.push(input.f); }] *)
Definition add_field (input : Input) (u : Updates) (fc : string * string) : Updates :=
  match field input (fst fc) with
  | JUndefined => u
  | v => {| updates := updates u ++ [(snd fc, paramIndex u)];
            params := params u ++ [v];
            paramIndex := S (paramIndex u) |}
  end.

Definition collect_updates (input : Input) : Updates :=
  fold_left (add_field input) contact_fields {| updates := []; params := []; paramIndex := 1 |}.

(** The fields of [contact_fields] the input defines (null counts). *)
Definition is_defined (v : JSVal) : bool :=
  match v with JUndefined => false | _ => true end.

Definition given (input : Input) : list (string * string) :=
  filter (fun fc => is_defined (field input (fst fc))) contact_fields.

Section World.

Variable Store : Type.

(** The state the resolvers work on: the database, the log, and the
    requests made to the orchestration and GraphRAG services with what
    these answer ([response.data], or the error axios throws). *)
Record t : Type := mk {
  db : DB Store Stmt;
  logs : list (World.Level * string);
  executions : list JSVal;
  execute_reply : JSVal -> Exn + JSVal;
  documents : list (JSVal * JSVal);
  storeDocument_reply : JSVal -> JSVal -> Exn + JSVal;
  enrichments : list string;
  enrichContact_reply : string -> Exn + JSVal
}.

Definition set_db (d : DB Store Stmt) (w : t) : t :=
  mk d (logs w) (executions w) (execute_reply w) (documents w) (storeDocument_reply w)
    (enrichments w) (enrichContact_reply w).

Definition add_log (l : World.Level * string) (w : t) : t :=
  mk (db w) (logs w ++ [l]) (executions w) (execute_reply w) (documents w)
    (storeDocument_reply w) (enrichments w) (enrichContact_reply w).

Definition add_execution (r : JSVal) (w : t) : t :=
  mk (db w) (logs w) (executions w ++ [r]) (execute_reply w) (documents w)
    (storeDocument_reply w) (enrichments w) (enrichContact_reply w).

Definition add_document (d : JSVal * JSVal) (w : t) : t :=
  mk (db w) (logs w) (executions w) (execute_reply w) (documents w ++ [d])
    (storeDocument_reply w) (enrichments w) (enrichContact_reply w).

Definition add_enrichment (c : string) (w : t) : t :=
  mk (db w) (logs w) (executions w) (execute_reply w) (documents w)
    (storeDocument_reply w) (enrichments w ++ [c]) (enrichContact_reply w).

Definition log (l : World.Level) (msg : string) : M t unit := modify (add_log (l, msg)).

Variable exec : option string -> Stmt -> Store -> Exn + (Store * Rows).

(** [JSON.stringify], and the conversion to text a template literal
    makes. *)
Variable JSON_stringify : JSVal -> JSVal.
Variable template : JSVal -> string.

(** [parseInt(s, 10)]. *)
Variable parseInt : JSVal -> JSVal.

(** [sources.join(',')]: the items of an array as text, null and undefined
    as the empty text; a value that is no array has no [join]. *)
Definition join_item (v : JSVal) : string :=
  match v with
  | JUndefined | JNull => ""
  | _ => template v
  end.

Definition join_sources (sources : JSVal) : Exn + JSVal :=
  match sources with
  | JArr items => inr (JStr (ListQuery.join "," (map join_item items)))
  | JUndefined =>
      inl (JsError "Cannot read properties of undefined (reading 'join')")
  | JNull =>
      inl (JsError "Cannot read properties of null (reading 'join')")
  | _ => inl (JsError "enrichment.sources.join is not a function")
  end.

Definition queryWithContext (organizationId : string) (s : Stmt) : M t Rows :=
  fun w => let (r, d) := Database.queryWithContext exec organizationId s (db w) in
           (r, set_db d w).

(** [context.auth.user]: reading it throws when [context.auth] is null. *)
Definition user_of (auth : option AuthUser) : M t AuthUser :=
  match auth with
  | Some user => ret user
  | None => throw (JsError "Cannot read properties of null (reading 'user')")
  end.

(** *** The clients the resolvers call *)

(** [orchestrationClient.execute]. *)
Definition execute_request (goal metadata : JSVal) : JSVal :=
  JObj [("goal", goal); ("metadata", JS.or metadata (JObj []))].

Definition orchestration_execute (goal metadata : JSVal) : M t JSVal :=
  try_catch
    (log World.Info "Executing orchestration goal" ;;
     let request := execute_request goal metadata in
     data <- (fun w => (execute_reply w request, add_execution request w)) ;;
     executionId <- lift (JS.get data "executionId") ;;
     status <- lift (JS.get data "status") ;;
     output <- lift (JS.get data "output") ;;
     duration <- lift (JS.get data "duration") ;;
     log World.Info "Orchestration execution started" ;;
     ret (JObj [("executionId", executionId); ("status", status); ("output", output);
                ("duration", duration)]))
    (fun error =>
       log World.Error "Failed to execute orchestration" ;;
       throw (JsError ("OrchestrationAgent execution failed: " ++ message error))).

(** [graphRAGClient.storeDocument]. *)
Definition graphRAG_storeDocument (content metadata : JSVal) : M t JSVal :=
  try_catch
    (log World.Info "Storing document in GraphRAG" ;;
     data <- (fun w => (storeDocument_reply w content metadata,
                        add_document (content, metadata) w)) ;;
     documentId <- lift (JS.get data "documentId") ;;
     chunks <- lift (JS.get data "chunks") ;;
     log World.Info "Document stored in GraphRAG" ;;
     ret (JObj [("documentId", documentId); ("chunks", chunks)]))
    (fun error =>
       log World.Error "Failed to store document in GraphRAG" ;;
       throw (JsError ("Failed to store document: " ++ message error))).

(** [graphRAGClient.enrichContact]. *)
Definition graphRAG_enrichContact (contactId : string) : M t JSVal :=
  try_catch
    (data <- (fun w => (enrichContact_reply w contactId, add_enrichment contactId w)) ;;
     enrichmentData <- lift (JS.get data "enrichmentData") ;;
     sources <- lift (JS.get data "sources") ;;
     confidence <- lift (JS.get data "confidence") ;;
     ret (JObj [("enrichmentData", enrichmentData); ("sources", sources);
                ("confidence", confidence)]))
    (fun error =>
       log World.Error "Failed to enrich contact" ;;
       throw (JsError ("Failed to enrich contact: " ++ message error))).

(** *** Queries *)

(** The six resolvers that fetch one row by id:
    [return result.rows[0] || null]. *)
Definition fetch_one (table : string) (live_only : bool) (failure : string) (id : string)
  (auth : option AuthUser) : M t JSVal :=
  try_catch
    (user <- user_of auth ;;
     result <- queryWithContext (user_organizationId user)
                 (SelectById table live_only (JStr id)) ;;
     ret (JS.or (hd JUndefined (rows result)) JNull))
    (fun error => log World.Error failure ;; throw (JsError failure)).

Definition contact := fetch_one "nexuscrm.contacts" true "Failed to fetch contact".
Definition company := fetch_one "nexuscrm.companies" true "Failed to fetch company".
Definition deal := fetch_one "nexuscrm.deals" true "Failed to fetch deal".
Definition activity := fetch_one "nexuscrm.activities" true "Failed to fetch activity".
Definition campaign := fetch_one "nexuscrm.campaigns" true "Failed to fetch campaign".
Definition voiceCall := fetch_one "nexuscrm.voice_calls" false "Failed to fetch voice call".

Definition list_failure (r : ListQuery.Request) : string :=
  match r with
  | ListQuery.Contacts _ _ _ => "Failed to fetch contacts"
  | ListQuery.Companies _ _ _ => "Failed to fetch companies"
  | ListQuery.Deals _ _ _ _ => "Failed to fetch deals"
  | ListQuery.Activities _ _ _ _ _ _ => "Failed to fetch activities"
  | ListQuery.Campaigns _ _ _ => "Failed to fetch campaigns"
  | ListQuery.VoiceCalls _ _ _ => "Failed to fetch voice calls"
  end.

(** The six list resolvers: the SELECT is built, sent under the caller's
    organization, and its rows are returned. *)
Definition fetch_list (r : ListQuery.Request) (auth : option AuthUser) : M t (list JSVal) :=
  try_catch
    (let query := ListQuery.build r in
     user <- user_of auth ;;
     result <- queryWithContext (user_organizationId user) (SelectList query) ;;
     ret (rows result))
    (fun error => log World.Error (list_failure r) ;; throw (JsError (list_failure r))).

Definition contactsCount (filter : Arg ListQuery.ContactFilter) (auth : option AuthUser)
  : M t JSVal :=
  try_catch
    (let query := ListShape.contactsCount filter in
     user <- user_of auth ;;
     result <- queryWithContext (user_organizationId user) (SelectCount query) ;;
     count <- lift (JS.get (hd JUndefined (rows result)) "count") ;;
     ret (parseInt count))
    (fun error =>
       log World.Error "Failed to count contacts" ;;
       throw (JsError "Failed to count contacts")).

(** *** Mutations *)

(** The values [createContact] binds to $1 ... $14. *)
Definition contact_values (input : Input) (user : AuthUser) : list JSVal :=
  [JS.or (field input "companyId") JNull;
   JS.or (field input "firstName") JNull;
   JS.or (field input "lastName") JNull;
   JS.or (field input "email") JNull;
   JS.or (field input "phone") JNull;
   JS.or (field input "mobile") JNull;
   JS.or (field input "jobTitle") JNull;
   JS.or (field input "department") JNull;
   JS.or (field input "seniority") JNull;
   JS.or (field input "leadSource") JNull;
   JS.or (field input "ownerId") (JStr (user_id user));
   JS.or (field input "tags") (JArr []);
   JS.or (field input "customFields") (JObj []);
   JStr (user_organizationId user)].

(** The document stored for a contact: its content and its metadata. *)
Definition document_content (fullName email phone jobTitle : JSVal) : JSVal :=
  JSON_stringify (JObj [("name", fullName); ("email", email); ("phone", phone);
                        ("jobTitle", jobTitle)]).

Definition document_metadata (id tags : JSVal) : JSVal :=
  JObj [("type", JStr "contact"); ("source", JStr "crm"); ("entityType", JStr "contact");
        ("entityId", id); ("tags", JS.or tags (JArr []))].

Definition createContact (input : Input) (auth : option AuthUser) : M t JSVal :=
  try_catch
    (user <- user_of auth ;;
     result <- queryWithContext (user_organizationId user)
                 (InsertContact (contact_values input user)) ;;
     let contact := hd JUndefined (rows result) in
     email <- lift (JS.get contact "email") ;;
     phone <- lift (JS.get contact "phone") ;;
     (if JS.truthy email || JS.truthy phone then
        fullName <- lift (JS.get contact "fullName") ;;
        jobTitle <- lift (JS.get contact "jobTitle") ;;
        id <- lift (JS.get contact "id") ;;
        tags <- lift (JS.get contact "tags") ;;
        graphRAG_storeDocument (document_content fullName email phone jobTitle)
          (document_metadata id tags) ;;
        ret tt
      else ret tt) ;;
     log World.Info "Contact created" ;;
     ret contact)
    (fun error =>
       log World.Error "Failed to create contact" ;;
       throw (JsError "Failed to create contact")).

(** The UPDATE [updateContact] sends: [params.push(id)], and the id is
    the placeholder [$${paramIndex++}]. *)
Definition update_statement (id : string) (input : Input) : Stmt :=
  let u := collect_updates input in
  UpdateContact (updates u) (paramIndex u) (params u ++ [JStr id]).

Definition updateContact (id : string) (input : Input) (auth : option AuthUser) : M t JSVal :=
  try_catch
    (let statement := update_statement id input in
     user <- user_of auth ;;
     result <- queryWithContext (user_organizationId user) statement ;;
     match rows result with
     | [] => throw (JsError "Contact not found")
     | contact :: _ => log World.Info "Contact updated" ;; ret contact
     end)
    (fun error =>
       log World.Error "Failed to update contact" ;;
       throw (JsError "Failed to update contact")).

Definition deleteContact (id : string) (auth : option AuthUser) : M t bool :=
  try_catch
    (user <- user_of auth ;;
     result <- queryWithContext (user_organizationId user) (SoftDeleteContact (JStr id)) ;;
     log World.Info "Contact deleted" ;;
     ret (match rowCount result with Some n => (0 <? n)%nat | None => false end))
    (fun error =>
       log World.Error "Failed to delete contact" ;;
       throw (JsError "Failed to delete contact")).

Definition enrichContact (id : string) (auth : option AuthUser) : M t JSVal :=
  try_catch
    (user <- user_of auth ;;
     contactResult <- queryWithContext (user_organizationId user)
                        (SelectById "nexuscrm.contacts" true (JStr id)) ;;
     match rows contactResult with
     | [] => throw (JsError "Contact not found")
     | _ :: _ =>
         enrichment <- graphRAG_enrichContact id ;;
         sources <- lift (join_sources (Voice.analysis_field enrichment "sources")) ;;
         updateResult <- queryWithContext (user_organizationId user)
                           (UpdateEnrichment
                              [Voice.analysis_field enrichment "enrichmentData"; sources;
                               Voice.analysis_field enrichment "confidence"; JStr id]) ;;
         log World.Info "Contact enriched" ;;
         ret (hd JUndefined (rows updateResult))
     end)
    (fun error =>
       log World.Error "Failed to enrich contact" ;;
       throw (JsError "Failed to enrich contact")).

(** The goal and the metadata the [makeCall] mutation hands to the
    orchestration service. *)
Definition makeCall_goal (input : Input) : JSVal :=
  JStr ("Make a voice call to " ++ template (field input "toNumber")
        ++ " using the following script: " ++ template (field input "script")).

Definition makeCall_metadata (input : Input) : JSVal :=
  JObj [("contactId", field input "contactId");
        ("toNumber", field input "toNumber");
        ("script", field input "script");
        ("language", JS.or (field input "language") (JStr "en"));
        ("voiceId", field input "voiceId");
        ("model", field input "model");
        ("tools", JS.or (field input "tools") (JArr []))].

(** The [makeCall] mutation: the orchestration service is asked before
    [context.auth] is read. *)
Definition makeCall (input : Input) (auth : option AuthUser) : M t JSVal :=
  try_catch
    (log World.Info "Initiating voice call" ;;
     orchestrationResult <-
       orchestration_execute (makeCall_goal input) (makeCall_metadata input) ;;
     user <- user_of auth ;;
     callResult <- queryWithContext (user_organizationId user)
                     (InsertVoiceCall
                        [JStr "vapi"; JStr "system"; field input "toNumber"; JStr "initiated";
                         JObj [("script", field input "script");
                               ("language", field input "language");
                               ("voiceId", field input "voiceId")];
                         JObj [("orchestrationExecutionId",
                                Voice.analysis_field orchestrationResult "executionId")];
                         JStr (user_organizationId user)]) ;;
     let call := hd JUndefined (rows callResult) in
     (if JS.truthy (field input "contactId") then
        callId <- lift (JS.get call "id") ;;
        queryWithContext (user_organizationId user)
          (InsertActivity
             [JStr "call"; JStr "outbound"; field input "contactId"; field input "toNumber";
              JStr "initiated"; JObj [("voiceCallId", callId)];
              JStr (user_organizationId user); JStr (user_id user)]) ;;
        ret tt
      else ret tt) ;;
     callId <- lift (JS.get call "id") ;;
     log World.Info "Voice call initiated" ;;
     ret (JObj [("callId", callId); ("status", JStr "initiated");
                ("message", JStr "Call initiated successfully")]))
    (fun error =>
       log World.Error "Failed to make call" ;;
       throw (JsError ("Failed to make call: " ++ message error))).

(** The [cancelCall] mutation: one UPDATE by the call's id; the voice
    platform is not told. *)
Definition cancelCall (callId : string) (auth : option AuthUser) : M t bool :=
  try_catch
    (user <- user_of auth ;;
     result <- queryWithContext (user_organizationId user) (CancelVoiceCall (JStr callId)) ;;
     log World.Info "Voice call cancelled" ;;
     ret (match rowCount result with Some n => (0 <? n)%nat | None => false end))
    (fun error =>
       log World.Error "Failed to cancel call" ;;
       throw (JsError "Failed to cancel call")).

Definition launchCampaign (input : Input) (auth : option AuthUser) : M t JSVal :=
  try_catch
    (user <- user_of auth ;;
     campaignResult <- queryWithContext (user_organizationId user)
                         (SelectById "nexuscrm.campaigns" true (field input "campaignId")) ;;
     match rows campaignResult with
     | [] => throw (JsError "Campaign not found")
     | campaign :: _ =>
         id <- lift (JS.get campaign "id") ;;
         type <- lift (JS.get campaign "type") ;;
         log World.Info "Launching campaign" ;;
         workflowGoal <- lift (JS.get campaign "workflowGoal") ;;
         name <- lift (JS.get campaign "name") ;;
         targetCount <- lift (JS.get campaign "targetCount") ;;
         orchestrationResult <-
           orchestration_execute
             (if JS.truthy workflowGoal then workflowGoal
              else JStr ("Execute " ++ template type ++ " campaign: " ++ template name))
             (JObj [("campaignId", id); ("segmentId", field input "segmentId");
                    ("type", type); ("targetCount", targetCount)]) ;;
         queryWithContext (user_organizationId user)
           (ActivateCampaign [Voice.analysis_field orchestrationResult "executionId"; id]) ;;
         log World.Info "Campaign launched" ;;
         ret (JObj [("campaignId", id); ("jobsCreated", JInt 1);
                    ("jobs", JArr [Voice.analysis_field orchestrationResult "executionId"])])
     end)
    (fun error =>
       log World.Error "Failed to launch campaign" ;;
       throw (JsError ("Failed to launch campaign: " ++ message error))).

(** [pauseCampaign], [resumeCampaign] and [cancelCampaign]. *)
Definition set_campaign_status (status : string) (completed : bool) (done failure : string)
  (campaignId : string) (auth : option AuthUser) : M t JSVal :=
  try_catch
    (user <- user_of auth ;;
     result <- queryWithContext (user_organizationId user)
                 (SetCampaignStatus status completed (JStr campaignId)) ;;
     match rows result with
     | [] => throw (JsError "Campaign not found")
     | campaign :: _ => log World.Info done ;; ret campaign
     end)
    (fun error => log World.Error failure ;; throw (JsError failure)).

Definition pauseCampaign :=
  set_campaign_status "paused" false "Campaign paused" "Failed to pause campaign".
Definition resumeCampaign :=
  set_campaign_status "active" false "Campaign resumed" "Failed to resume campaign".
Definition cancelCampaign :=
  set_campaign_status "cancelled" true "Campaign cancelled" "Failed to cancel campaign".

(** *** All of them behind one type

    Every query and mutation of the file but the [health] query, which
    reads neither the context nor the database. *)

Inductive Call : Type :=
| Contact (id : string) | Company (id : string) | Deal (id : string)
| Activity (id : string) | Campaign (id : string) | VoiceCall (id : string)
| List (r : ListQuery.Request)
| ContactsCount (filter : Arg ListQuery.ContactFilter)
| CreateContact (input : Input)
| UpdateContactOf (id : string) (input : Input)
| DeleteContact (id : string)
| EnrichContact (id : string)
| MakeCall (input : Input)
| LaunchCampaign (input : Input)
| PauseCampaign (id : string) | ResumeCampaign (id : string) | CancelCampaign (id : string)
| CancelCall (callId : string).

Definition resolve (c : Call) (auth : option AuthUser) : M t JSVal :=
  match c with
  | Contact id => contact id auth
  | Company id => company id auth
  | Deal id => deal id auth
  | Activity id => activity id auth
  | Campaign id => campaign id auth
  | VoiceCall id => voiceCall id auth
  | List r => rows <- fetch_list r auth ;; ret (JArr rows)
  | ContactsCount filter => contactsCount filter auth
  | CreateContact input => createContact input auth
  | UpdateContactOf id input => updateContact id input auth
  | DeleteContact id => deleted <- deleteContact id auth ;; ret (JBool deleted)
  | EnrichContact id => enrichContact id auth
  | MakeCall input => makeCall input auth
  | LaunchCampaign input => launchCampaign input auth
  | PauseCampaign id => pauseCampaign id auth
  | ResumeCampaign id => resumeCampaign id auth
  | CancelCampaign id => cancelCampaign id auth
  | CancelCall callId => cancelled <- cancelCall callId auth ;; ret (JBool cancelled)
  end.

(** The message each resolver gives to an error; [makeCall] and
    [launchCampaign] append the message of the error caught. *)
Definition failure (c : Call) : string :=
  match c with
  | Contact _ => "Failed to fetch contact"
  | Company _ => "Failed to fetch company"
  | Deal _ => "Failed to fetch deal"
  | Activity _ => "Failed to fetch activity"
  | Campaign _ => "Failed to fetch campaign"
  | VoiceCall _ => "Failed to fetch voice call"
  | List r => list_failure r
  | ContactsCount _ => "Failed to count contacts"
  | CreateContact _ => "Failed to create contact"
  | UpdateContactOf _ _ => "Failed to update contact"
  | DeleteContact _ => "Failed to delete contact"
  | EnrichContact _ => "Failed to enrich contact"
  | MakeCall _ => "Failed to make call"
  | LaunchCampaign _ => "Failed to launch campaign"
  | PauseCampaign _ => "Failed to pause campaign"
  | ResumeCampaign _ => "Failed to resume campaign"
  | CancelCampaign _ => "Failed to cancel campaign"
  | CancelCall _ => "Failed to cancel call"
  end.

Definition appends_cause (c : Call) : bool :=
  match c with MakeCall _ | LaunchCampaign _ => true | _ => false end.

(** The driver calls a resolver may make for a caller of organization
    [org]: nothing goes through [pool.query], and every SET LOCAL names
    [org]. *)
Definition scoped_to (org : string) (call : Command Stmt * Outcome) : Prop :=
  match fst call with
  | PoolQuery _ => False
  | SetLocalOrg organizationId => organizationId = org
  | _ => True
  end.

(** [m] takes every state to one related to it by [R]. *)
Definition preserves {A} (R : t -> t -> Prop) (m : M t A) : Prop :=
  forall w, R w (snd (m w)).

(** The driver was only asked more, and all of it within [org]. *)
Definition within (org : string) (w w' : t) : Prop :=
  exists calls,
    sent (db w') = (sent (db w) ++ calls)%list /\ Forall (scoped_to org) calls.

(** [m] throws from every state, and takes it to one related to it by
    [R]. *)
Definition fails {A} (R : t -> t -> Prop) (m : M t A) : Prop :=
  forall w, (exists e, fst (m w) = inl e) /\ R w (snd (m w)).

(** The committed data is as it was, the driver was only asked more and no
    statement among it, and no remote service was asked anything. *)
Definition nothing_ran (w w' : t) : Prop :=
  Database.store (db w') = Database.store (db w) /\
  (exists calls,
     sent (db w') = (sent (db w) ++ calls)%list /\
     forall q o, ~ In (Database.Query q, o) calls) /\
  executions w' = executions w /\
  documents w' = documents w /\
  enrichments w' = enrichments w.

End World.

Arguments db {Store}.
Arguments logs {Store}.
Arguments executions {Store}.
Arguments execute_reply {Store}.
Arguments documents {Store}.
Arguments storeDocument_reply {Store}.
Arguments enrichments {Store}.
Arguments enrichContact_reply {Store}.
Arguments mk {Store}.
Arguments add_log {Store}.
Arguments add_execution {Store}.
Arguments add_document {Store}.
Arguments add_enrichment {Store}.
Arguments set_db {Store}.
Arguments log {Store}.
Arguments user_of {Store}.
Arguments queryWithContext {Store}.
Arguments orchestration_execute {Store}.
Arguments execute_request : clear implicits.
Arguments graphRAG_storeDocument {Store}.
Arguments graphRAG_enrichContact {Store}.
Arguments preserves {Store A}.
Arguments within {Store}.
Arguments fails {Store A}.
Arguments nothing_ran {Store}.
Arguments resolve {Store}.
Arguments fetch_one {Store}.
Arguments fetch_list {Store}.
Arguments contact {Store}.
Arguments company {Store}.
Arguments deal {Store}.
Arguments activity {Store}.
Arguments campaign {Store}.
Arguments voiceCall {Store}.
Arguments contactsCount {Store}.
Arguments createContact {Store}.
Arguments updateContact {Store}.
Arguments deleteContact {Store}.
Arguments enrichContact {Store}.
Arguments makeCall {Store}.
Arguments cancelCall {Store}.
Arguments launchCampaign {Store}.
Arguments set_campaign_status {Store}.
Arguments pauseCampaign {Store}.
Arguments resumeCampaign {Store}.
Arguments cancelCampaign {Store}.

End Resolvers.

(** ** Concrete data for the resolvers *)

Module ResolverSamples.
Import Resolvers.

Definition ann : AuthUser := mkAuthUser "u1" "org-1".

(** A store that records what was sent and answers every statement with
    one row. *)
Definition echo_exec (org : option string) (s : Stmt) (st : list string)
  : Exn + (list string * Rows) :=
  inr ((st ++ [stmt_text s])%list,
       mkRows [JObj [("id", JStr "k1"); ("email", JStr "ann@example.com")]] (Some 1)).

Definition world (faults : list bool) : t (list string) :=
  mk (Database.mkDB [] Database.Idle 0 [] faults) [] []
    (fun _ => inr (JObj [("executionId", JStr "x1"); ("status", JStr "running")]))
    [] (fun _ _ => inr (JObj [("documentId", JStr "d1"); ("chunks", JInt 1)]))
    [] (fun _ => inr (JObj [("enrichmentData", JObj []); ("sources", JArr [JStr "crm"]);
                            ("confidence", JInt 1)])).

Definition text_of (v : JSVal) : string :=
  match v with JStr s => s | _ => "" end.

Definition call_input : Input :=
  [("toNumber", JStr "+15550100"); ("script", JStr "Hello, this is Ann.")].

End ResolverSamples.

(** * Properties *)

(** ** List resolvers and soft-deleted rows *)

Module ListQueryFacts.
Import ListQuery Sql.

Example contacts_text :
  select_text (contacts (Val (mkContactFilter (Val "c1") Undef Undef (Val 10%Z) Undef (Val "ann")))
                 Undef Undef)
  = "SELECT * FROM nexuscrm.contacts WHERE deleted_at IS NULL AND company_id = $1 AND lead_score >= $2 AND (first_name ILIKE $3 OR last_name ILIKE $3 OR email ILIKE $3) ORDER BY created_at DESC LIMIT $4 OFFSET $5".
Proof. reflexivity. Qed.

Example voiceCalls_text :
  select_text (voiceCalls Undef Undef Undef)
  = "SELECT * FROM nexuscrm.voice_calls  ORDER BY created_at DESC LIMIT $1 OFFSET $2".
Proof. reflexivity. Qed.

Lemma push_keeps (c : Cond) mk v b :
  In c (conditions b) -> In c (conditions (push mk v b)).
Proof. intros H. unfold push; simpl. apply in_or_app; now left. Qed.

Lemma when_push_keeps (c : Cond) test mk v b :
  In c (conditions b) -> In c (conditions (when test (push mk v) b)).
Proof. intros H. unfold when. destruct test; [now apply push_keeps|exact H]. Qed.

Create HintDb keeps.
#[local] Hint Resolve when_push_keeps : keeps.

Lemma start_not_deleted_has : In (IsNull "deleted_at") (conditions start_not_deleted).
Proof. simpl; auto. Qed.

#[local] Hint Resolve start_not_deleted_has : keeps.

(** Every resolver but [voiceCalls] sends the conjunct
    [deleted_at IS NULL], whatever its arguments. *)
Lemma build_filters_deleted (req : Request) :
  is_voiceCalls req = false -> In (IsNull "deleted_at") (where_ (build req)).
Proof.
  destruct req as [f l o|s l o|s w l o|c co d t l o|s l o|s l o]; simpl; intros Hv;
    try discriminate.
  - destruct f as [| |f]; unfold contacts_filter; simpl; auto 10 with keeps.
  - unfold companies. destruct (arg_string_truthy s); simpl; auto.
  - auto 10 with keeps.
  - auto 10 with keeps.
  - auto 10 with keeps.
Qed.

Lemma insert_desc_in E (r x : Row) (l : list Row) :
  In x (insert_desc E r l) -> x = r \/ In x l.
Proof.
  induction l as [|s rest IH]; simpl.
  - intros [->|[]]; auto.
  - destruct (created_after E s r); simpl.
    + intros [->|H]; auto. destruct (IH H); auto.
    + intros [->|H]; auto.
Qed.

Lemma order_desc_in E (x : Row) (l : list Row) :
  In x (order_desc E l) -> In x l.
Proof.
  induction l as [|r rest IH]; simpl; auto.
  intros H. apply insert_desc_in in H. destruct H as [->|H]; auto.
Qed.

Lemma take_in n (x : Row) l : In x (take n l) -> In x l.
Proof.
  destruct n as [k|]; simpl; auto.
  intros H. rewrite <- (firstn_skipn k l). apply in_or_app; now left.
Qed.

Lemma drop_in n (x : Row) l : In x (drop n l) -> In x l.
Proof.
  destruct n as [k|]; simpl; auto.
  intros H. rewrite <- (firstn_skipn k l). apply in_or_app; now right.
Qed.

(** A returned row satisfies every conjunct of the WHERE clause. *)
Lemma run_rows_satisfy E q db rows r :
  run E q db = inr rows -> In r rows -> where_holds E (args q) (where_ q) r = true.
Proof.
  unfold run.
  destruct (row_count (param (args q) (limit_at q))) as [e|lim]; try discriminate.
  destruct (row_count (param (args q) (offset_at q))) as [e|off]; try discriminate.
  intros [= <-] H.
  apply take_in, drop_in, order_desc_in, filter_In in H. tauto.
Qed.

Lemma where_not_deleted E a conds r :
  In (IsNull "deleted_at") conds -> where_holds E a conds r = true -> soft_deleted r = false.
Proof.
  unfold where_holds, soft_deleted. intros Hin Hall.
  rewrite forallb_forall in Hall. specialize (Hall _ Hin). simpl in Hall.
  destruct (is_null (column r "deleted_at")); [reflexivity|discriminate].
Qed.

(** C1, as amended: for contacts, companies, deals, activities and campaigns,
    and every combination of their optional arguments, no row whose
    [deleted_at] is set is returned.  ([voiceCalls] adds no such conjunct.) *)
Theorem list_resolvers_exclude_soft_deleted (E : Engine) (req : Request) :
  is_voiceCalls req = false -> excludes_soft_deleted E req.
Proof.
  intros Hv db rows Hrun r Hin.
  eapply where_not_deleted.
  - apply build_filters_deleted, Hv.
  - eapply run_rows_satisfy; eauto.
Qed.

Definition two_contacts : Tables := fun t =>
  if t =? "nexuscrm.contacts" then
    [ [("id", JStr "k1"); ("company_id", JStr "c1"); ("deleted_at", JNull)];
      [("id", JStr "k2"); ("company_id", JStr "c1"); ("deleted_at", JDate (JStr "2024-01-01"))] ]
  else [].

Definition by_company : Request :=
  Contacts (Val (mkContactFilter (Val "c1") Undef Undef Undef Undef Undef)) Undef Undef.

Lemma list_resolvers_exclude_soft_deleted_witness :
  is_voiceCalls by_company = false /\
  run text_engine (build by_company) two_contacts
    = inr [ [("id", JStr "k1"); ("company_id", JStr "c1"); ("deleted_at", JNull)] ] /\
  excludes_soft_deleted text_engine by_company.
Proof.
  split; [reflexivity|]. split; [reflexivity|].
  apply (list_resolvers_exclude_soft_deleted text_engine by_company). reflexivity.
Defined.

Definition deleted_call : Row :=
  [("id", JStr "v1"); ("status", JStr "completed"); ("deleted_at", JDate (JStr "2024-01-01"))].

Definition one_deleted_call : Tables := fun t =>
  if t =? "nexuscrm.voice_calls" then [deleted_call] else [].

(** C1, as stated, fails for [voiceCalls]: with no status filter the query
    has no WHERE clause at all, and a voice-call row carrying a [deleted_at]
    timestamp is returned. *)
Lemma voiceCalls_returns_soft_deleted :
  ~ (forall (E : Engine) (req : Request), excludes_soft_deleted E req).
Proof.
  intros H.
  specialize (H text_engine (VoiceCalls Undef Undef Undef) one_deleted_call [deleted_call]
                eq_refl deleted_call (or_introl eq_refl)).
  discriminate H.
Qed.

(** The WHERE conjuncts of [voiceCalls] never mention [deleted_at]. *)
Lemma voiceCalls_conditions status limit offset :
  where_ (voiceCalls status limit offset) = [] \/
  where_ (voiceCalls status limit offset) = [EqParam "status" 1].
Proof. unfold voiceCalls. destruct (arg_string_truthy status); simpl; auto. Qed.

End ListQueryFacts.

(** ** Transactions of the database helper *)

Module DatabaseFacts.
Import Database.

Lemma skipn_length_app {A} (l new : list A) : skipn (List.length l) (l ++ new)%list = new.
Proof. induction l; simpl; auto. Qed.

Ltac unfold_driver :=
  unfold queryWithContext, transaction, pool_connect, client_begin, client_commit,
    client_rollback, client_query, setOrganizationContext, query, finally, try_catch,
    bind, ret, throw, driver_call, next_fault, new_calls, record, set_txn, set_store,
    set_leased, client_release in *.

Ltac driver_case :=
  match goal with
  | |- context [match ?fs with [] => _ | _ :: _ => _ end] =>
      is_var fs; destruct fs as [|[] fs]
  | |- context [match ?t with Idle => _ | Active _ _ => _ | Aborted => _ end] =>
      is_var t; destruct t
  | |- context [match ?x with inl _ => _ | inr _ => _ end] =>
      match x with
      | context [match _ with _ => _ end] => fail 1
      | _ => destruct x as [?|[? ?]] eqn:?
      end
  end.

Ltac split_last :=
  match goal with
  | |- exists earlier o, ?l = _ =>
      exists (removelast l), (snd (last l (Connect, Done))); reflexivity
  end.

(** C3: [queryWithContext] releases its client in every case, and when
    the tenant-context SET or the caller's statement throws, the call ends
    in an error with nothing committed: no COMMIT is sent, ROLLBACK is the
    last statement sent, and the committed data is what it was. *)
Theorem queryWithContext_rolls_back {Store Stmt Res : Type}
  (exec : option string -> Stmt -> Store -> Exn + (Store * Res))
  (org : string) (s : Stmt) (db : DB Store Stmt) :
  leased (snd (queryWithContext exec org s db)) = leased db /\
  (callback_threw org s (new_calls db (snd (queryWithContext exec org s db))) ->
   rolled_back db (queryWithContext exec org s db)).
Proof.
  destruct db as [st t n tr fs].
  unfold_driver. unfold callback_threw, rolled_back, new_calls. simpl.
  repeat (simpl; driver_case).
  all: simpl; repeat rewrite <- app_assoc; rewrite ?skipn_length_app; simpl.
  all: split; [reflexivity|].
  all: intros Hthrew; repeat split.
  all: try solve [eexists; reflexivity].
  all: try solve [intuition congruence].
  all: try split_last.
Qed.

Lemma queryWithContext_rolls_back_witness :
  callback_threw "org-1" "INSERT bad"
    (new_calls (Samples.ledger [])
       (snd (queryWithContext Samples.ledger_exec "org-1" "INSERT bad" (Samples.ledger [])))) /\
  rolled_back (Samples.ledger [])
    (queryWithContext Samples.ledger_exec "org-1" "INSERT bad" (Samples.ledger [])).
Proof.
  assert (H : callback_threw "org-1" "INSERT bad"
                (new_calls (Samples.ledger [])
                   (snd (queryWithContext Samples.ledger_exec "org-1" "INSERT bad"
                           (Samples.ledger []))))).
  { left. vm_compute. auto 10. }
  split; [exact H|].
  apply (queryWithContext_rolls_back Samples.ledger_exec "org-1" "INSERT bad"
           (Samples.ledger [])).
  exact H.
Defined.

(** With no driver failure pending, a statement the database accepts is
    applied by [query]. *)
Lemma query_clean {Store Stmt Res : Type}
  (exec : option string -> Stmt -> Store -> Exn + (Store * Res))
  (s : Stmt) (db : DB Store Stmt) (st' : Store) (r : Res) :
  faults db = [] ->
  exec None s (store db) = inr (st', r) ->
  query exec s db
  = (inr r, mkDB st' (txn db) (leased db) (sent db ++ [(PoolQuery s, Done)]) []).
Proof.
  destruct db as [st t n tr fs]; simpl. intros -> Hexec.
  unfold_driver; simpl. rewrite Hexec. reflexivity.
Qed.

(** [queryWithContext] with no driver failure pending: the SET LOCAL is
    refused, the transaction is rolled back and the refusal comes back; the
    caller's statement is not sent. *)
Lemma queryWithContext_refused {Store Stmt Res : Type}
  (exec : option string -> Stmt -> Store -> Exn + (Store * Res))
  (org : string) (s : Stmt) (db : DB Store Stmt) :
  faults db = [] ->
  txn db = Idle ->
  queryWithContext exec org s db
  = (inl set_local_refused,
     mkDB (store db) Idle (leased db)
       (sent db ++ [(Connect, Done); (Begin, Done); (SetLocalOrg org, Threw);
                    (Rollback, Done)]) []).
Proof.
  destruct db as [st t n tr fs]; simpl. intros -> ->.
  unfold_driver; simpl. repeat rewrite <- app_assoc. reflexivity.
Qed.

(** Whatever happens, [query] leaves the committed data as it was or as the
    statement made it. *)
Lemma query_outcome {Store Stmt Res : Type}
  (exec : option string -> Stmt -> Store -> Exn + (Store * Res))
  (s : Stmt) (db : DB Store Stmt) :
  (txn (snd (query exec s db)) = txn db \/ txn (snd (query exec s db)) = Idle) /\
  (store (snd (query exec s db)) = store db \/
   exists r, exec None s (store db) = inr (store (snd (query exec s db)), r)).
Proof.
  destruct db as [st t n tr fs].
  unfold_driver. simpl.
  repeat (simpl; driver_case).
  all: simpl; split; eauto.
Qed.

(** Whatever happens, [queryWithContext] throws, leaves the committed data
    as it was and no transaction open, and has only added to what the driver
    was asked. *)
Lemma queryWithContext_throws {Store Stmt Res : Type}
  (exec : option string -> Stmt -> Store -> Exn + (Store * Res))
  (org : string) (s : Stmt) (db : DB Store Stmt) :
  (exists e, fst (queryWithContext exec org s db) = inl e) /\
  store (snd (queryWithContext exec org s db)) = store db /\
  txn (snd (queryWithContext exec org s db)) = Idle /\
  exists calls,
    sent (snd (queryWithContext exec org s db)) = (sent db ++ calls)%list /\
    forall c o, In (c, o) calls ->
                c = Connect \/ c = Begin \/ c = SetLocalOrg org \/ c = Rollback.
Proof.
  destruct db as [st t n tr fs].
  unfold_driver. simpl.
  repeat (simpl; driver_case).
  all: simpl; repeat rewrite <- app_assoc.
  all: split; [eexists; reflexivity|].
  all: split; [reflexivity|].
  all: split; [reflexivity|].
  all: eexists; split; [reflexivity|].
  all: intros c o Hin; simpl in Hin.
  all: repeat (destruct Hin as [Hin|Hin]; [injection Hin as <- _; auto|]).
  all: contradiction.
Qed.

Lemma queryWithContext_faults {Store Stmt Res : Type}
  (exec : option string -> Stmt -> Store -> Exn + (Store * Res))
  (org : string) (s : Stmt) (db : DB Store Stmt) :
  faults db = [] -> faults (snd (queryWithContext exec org s db)) = [].
Proof.
  destruct db as [st t n tr fs]. simpl. intros ->.
  unfold_driver. simpl.
  repeat (simpl; driver_case).
  all: reflexivity.
Qed.

(** What the driver is asked: the statement itself is never sent, whether
    the database would refuse or accept it. *)
Example refused_statement_trace :
  map fst (sent (snd (queryWithContext Samples.ledger_exec "org-1" "INSERT bad"
                        (Samples.ledger []))))
  = [Connect; Begin; SetLocalOrg "org-1"; Rollback].
Proof. reflexivity. Qed.

Example acceptable_statement_is_not_sent :
  let run := queryWithContext Samples.ledger_exec "org-1" "INSERT second" (Samples.ledger []) in
  fst run = inl set_local_refused /\
  store (snd run) = ["INSERT first"] /\
  sent (snd run)
  = [(Connect, Done); (Begin, Done); (SetLocalOrg "org-1", Threw); (Rollback, Done)].
Proof. repeat split. Qed.

(** [transaction] on its own commits what a callback that returns has
    done. *)
Example transaction_commits :
  let run := transaction (client_query (list string) string nat Samples.ledger_exec
                            "INSERT second") (Samples.ledger []) in
  fst run = inr 1 /\
  store (snd run) = ["INSERT first"; "INSERT second"] /\
  map fst (sent (snd run)) = [Connect; Begin; Query "INSERT second"; Commit] /\
  leased (snd run) = 0.
Proof. repeat split. Qed.

(** A failure of the driver at the SET (a lost connection) also ends with
    ROLLBACK and nothing committed. *)
Example failing_set_local :
  let run := queryWithContext Samples.ledger_exec "org-1" "INSERT second"
               (Samples.ledger [false; false; true]) in
  fst run = inl connection_lost /\
  store (snd run) = ["INSERT first"] /\
  sent (snd run)
  = [(Connect, Done); (Begin, Done); (SetLocalOrg "org-1", Threw); (Rollback, Done)].
Proof. repeat split. Qed.

End DatabaseFacts.

(** ** Broadcasting before initialization *)

Module WebSocketFacts.
Import World WebSocketManager.

(** C9: with the singleton still null, each of the four broadcast
    functions returns normally, adds one warning to the log and leaves
    everything else, the emissions in particular, as it was. *)
Theorem broadcast_before_initialize (b : Broadcast) (w : World.t) :
  ioInstance w = None ->
  exists msg, broadcast b w = (inr tt, add_log (Warn, msg) w)
              /\ emitted (add_log (Warn, msg) w) = emitted w.
Proof.
  intros Hnull.
  destruct b; simpl;
    unfold broadcastToOrganization, broadcastToCall, broadcastTranscriptUpdate,
      broadcastCallStatus, bind, gets, log, modify;
    rewrite Hnull; eexists; split; reflexivity.
Qed.

Lemma broadcast_before_initialize_witness :
  ioInstance (Samples.world None []) = None /\
  exists msg,
    broadcast (CallStatus "vapi-1" "org-1" "completed" JUndefined) (Samples.world None [])
      = (inr tt, add_log (Warn, msg) (Samples.world None [])) /\
    emitted (add_log (Warn, msg) (Samples.world None [])) = emitted (Samples.world None []).
Proof.
  split; [reflexivity|].
  apply (broadcast_before_initialize
           (CallStatus "vapi-1" "org-1" "completed" JUndefined) (Samples.world None [])).
  reflexivity.
Defined.

(** Initialization happens once; a second call only logs a warning. *)
Example initialize_once :
  let w1 := snd (initializeWebSocketManager 7 (Samples.world None [])) in
  let w2 := snd (initializeWebSocketManager 8 w1) in
  ioInstance w1 = Some 7 /\ ioInstance w2 = Some 7 /\
  In (Warn, "WebSocket manager already initialized") (logs w2).
Proof. vm_compute. intuition. Qed.

(** Once initialized, a status broadcast reaches the call room and then the
    organization room. *)
Example broadcast_after_initialize :
  map (fun e => (room e, event e))
    (emitted (snd (broadcast (CallStatus "vapi-1" "org-1" "completed" JUndefined)
                     (Samples.world (Some 7) []))))
  = [("call:vapi-1", "call:status"); ("org:org-1", "call:status")].
Proof. reflexivity. Qed.

End WebSocketFacts.

(** ** What a computation leaves alone *)

Module FrameFacts.
Import Store World WebSocketManager Voice.

Section Keeps.

Variable R : World.t -> World.t -> Prop.
Hypothesis R_refl : forall w, R w w.
Hypothesis R_trans : forall a b c, R a b -> R b c -> R a c.

Lemma keeps_ret {A} (a : A) : keeps R (ret a).
Proof. intros w. apply R_refl. Qed.

Lemma keeps_throw {A} (e : Exn) : keeps R (@throw World.t A e).
Proof. intros w. apply R_refl. Qed.

Lemma keeps_lift {A} (r : Exn + A) : keeps R (lift r).
Proof. intros w. apply R_refl. Qed.

Lemma keeps_gets {A} (f : World.t -> A) : keeps R (gets f).
Proof. intros w. apply R_refl. Qed.

Lemma keeps_bind {A B} (m : M World.t A) (k : A -> M World.t B) :
  keeps R m -> (forall a, keeps R (k a)) -> keeps R (bind m k).
Proof.
  intros Hm Hk w. unfold bind. specialize (Hm w).
  destruct (m w) as [[e|a] w1]; simpl in *; [exact Hm|].
  eapply R_trans; [exact Hm|apply Hk].
Qed.

(** After [x <- lift r], the continuation runs only on the value of [r]. *)
Lemma keeps_bind_lift {A B} (r : Exn + A) (k : A -> M World.t B) :
  (forall a, r = inr a -> keeps R (k a)) -> keeps R (bind (lift r) k).
Proof.
  intros Hk w. unfold bind, lift. destruct r as [e|a]; simpl; [apply R_refl|].
  now apply Hk.
Qed.

Lemma keeps_try_catch {A} (body : M World.t A) (h : Exn -> M World.t A) :
  keeps R body -> (forall e, keeps R (h e)) -> keeps R (try_catch body h).
Proof.
  intros Hb Hh w. unfold try_catch. specialize (Hb w).
  destruct (body w) as [[e|a] w1]; simpl in *; [|exact Hb].
  eapply R_trans; [exact Hb|apply Hh].
Qed.

Lemma keeps_log (l : Level) (msg : string) :
  (forall w e, R w (add_log e w)) -> keeps R (log l msg).
Proof. intros H w. apply H. Qed.

Lemma keeps_in_db {A} (m : M (Database.DB Tables Stmt) A) :
  (forall w d, R w (set_db d w)) -> keeps R (in_db m).
Proof. intros H w. unfold in_db. destruct (m (db w)) as [r d]. apply H. Qed.

Lemma keeps_mage_analyze (transcript : JSVal) :
  (forall w e, R w (add_log e w)) ->
  (forall w r, R w (add_reasoning_request r w)) ->
  keeps R (mage_analyze transcript).
Proof.
  intros Hlog Hreq. unfold mage_analyze.
  apply keeps_bind; [now apply keeps_log|intros _].
  apply keeps_try_catch.
  - apply keeps_bind.
    + intros w. apply Hreq.
    + intros a. apply keeps_bind; [now apply keeps_log|intros _; apply keeps_ret].
  - intros e. apply keeps_bind; [now apply keeps_log|intros _; apply keeps_throw].
Qed.

Lemma keeps_vapi_cancelCall (callId : string) :
  (forall w e, R w (add_log e w)) ->
  (forall w c, R w (add_platform_cancel c w)) ->
  keeps R (vapi_cancelCall callId).
Proof.
  intros Hlog Hreq. unfold vapi_cancelCall.
  apply keeps_try_catch.
  - apply keeps_bind; [intros w; apply Hreq|intros _; now apply keeps_log].
  - intros e. apply keeps_bind; [now apply keeps_log|intros _; apply keeps_throw].
Qed.

Lemma keeps_callManager_getCall getCall (callId : string) :
  (forall w l, R w (add_lookup l w)) -> keeps R (callManager_getCall getCall callId).
Proof.
  intros H w. unfold callManager_getCall.
  destruct (getCall (tables w) callId) as [e|[call|]]; simpl; auto.
Qed.

Lemma keeps_broadcastToCall callId event data :
  (forall w e, R w (add_log e w)) ->
  (forall w e, R w (add_emission e w)) ->
  keeps R (broadcastToCall callId event data).
Proof.
  intros Hlog Hemit. unfold broadcastToCall, emit.
  apply keeps_bind; [apply keeps_gets|intros [io|]].
  - apply keeps_bind; [intros w; apply Hemit|intros _; now apply keeps_log].
  - now apply keeps_log.
Qed.

Lemma keeps_broadcastToOrganization organizationId event data :
  (forall w e, R w (add_log e w)) ->
  (forall w e, R w (add_emission e w)) ->
  keeps R (broadcastToOrganization organizationId event data).
Proof.
  intros Hlog Hemit. unfold broadcastToOrganization, emit.
  apply keeps_bind; [apply keeps_gets|intros [io|]].
  - apply keeps_bind; [intros w; apply Hemit|intros _; now apply keeps_log].
  - now apply keeps_log.
Qed.

Lemma keeps_broadcastCallStatus callId organizationId status metadata :
  (forall w e, R w (add_log e w)) ->
  (forall w e, R w (add_emission e w)) ->
  keeps R (broadcastCallStatus callId organizationId status metadata).
Proof.
  intros Hlog Hemit. unfold broadcastCallStatus, now_iso.
  apply keeps_bind; [apply keeps_gets|intros [io|]]; [|now apply keeps_log].
  apply keeps_bind; [apply keeps_gets|intros stamp].
  apply keeps_bind; [now apply keeps_broadcastToCall|intros _].
  apply keeps_bind; [now apply keeps_broadcastToOrganization|intros _].
  now apply keeps_log.
Qed.

End Keeps.

Ltac keeps_step :=
  first
    [ apply keeps_ret; assumption
    | apply keeps_throw; assumption
    | apply keeps_lift; assumption
    | apply keeps_gets; assumption
    | apply keeps_log; assumption
    | apply keeps_in_db; assumption
    | apply keeps_mage_analyze; assumption
    | apply keeps_vapi_cancelCall; assumption
    | apply keeps_callManager_getCall; assumption
    | apply keeps_broadcastCallStatus; assumption
    | apply keeps_bind; try assumption; intros
    | apply keeps_try_catch; try assumption; intros
    | match goal with
      | |- keeps _ (match ?x with _ => _ end) => destruct x
      end ].

Ltac keeps_auto := repeat keeps_step.

Section UpdateCallStatus.

Variable JSON_stringify : JSVal -> JSVal.
Variable R : World.t -> World.t -> Prop.
Hypothesis R_refl : forall w, R w w.
Hypothesis R_trans : forall a b c, R a b -> R b c -> R a c.
Hypothesis R_log : forall w e, R w (add_log e w).
Hypothesis R_db : forall w d, R w (set_db d w).

(** A relation that logging and database calls respect is respected by
    [analyzeCallTranscript] if requests to the reasoning service respect it,
    and by [updateCallStatus] as long as no analysis is called for. *)
Lemma analyzeCallTranscript_keeps callId transcript organizationId :
  (forall w r, R w (add_reasoning_request r w)) ->
  keeps R (analyzeCallTranscript JSON_stringify callId transcript organizationId).
Proof.
  intros R_req. unfold analyzeCallTranscript, analyzeCallTranscript_body, db_queryWithContext. keeps_auto.
Qed.

Lemma updateCallStatus_keeps vapiCallId status d :
  (forall w r, R w (add_reasoning_request r w)) ->
  keeps R (updateCallStatus JSON_stringify vapiCallId status d).
Proof.
  intros R_req. unfold updateCallStatus, db_query. keeps_auto.
Qed.

Lemma updateCallStatus_keeps_without_analysis vapiCallId status d :
  (status =? "completed") && JS.truthy (transcript d) = false ->
  keeps R (updateCallStatus JSON_stringify vapiCallId status d).
Proof.
  intros Hno. unfold updateCallStatus, db_query. rewrite Hno. keeps_auto.
Qed.

End UpdateCallStatus.

Lemma Forall2_same {A} (P : A -> A -> Prop) (l : list A) :
  (forall x, P x x) -> Forall2 P l l.
Proof. intros H. induction l; constructor; auto. Qed.

Lemma Forall2_chain {A} (P : A -> A -> Prop) (l1 l2 l3 : list A) :
  (forall a b c, P a b -> P b c -> P a c) ->
  Forall2 P l1 l2 -> Forall2 P l2 l3 -> Forall2 P l1 l3.
Proof.
  intros Htrans H12. revert l3.
  induction H12; intros l3 H23; inversion H23; subst; constructor; eauto.
Qed.

Lemma Forall2_update_where {A} (P : A -> A -> Prop) hit f (l : list A) :
  (forall x, P x x) -> (forall x, P x (f x)) -> Forall2 P l (update_where hit f l).
Proof.
  intros Hrefl Hf. induction l as [|a l IH]; simpl; constructor; auto.
  destruct (hit a); auto.
Qed.

Section Respects.

(** A relation that every change of the world respects is respected by the
    webhook code, whatever [getCall] does. *)
Variable getCall : Tables -> string -> Exn + option VoiceCall.t.
Variable JSON_stringify : JSVal -> JSVal.
Variable body_json : VapiWebhookEvent -> string.
Variable hmac_sha256_hex : string -> string -> string.

Variable R : World.t -> World.t -> Prop.
Hypothesis R_refl : forall w, R w w.
Hypothesis R_trans : forall a b c, R a b -> R b c -> R a c.
Hypothesis R_log : forall w e, R w (add_log e w).
Hypothesis R_db : forall w d, R w (set_db d w).
Hypothesis R_req : forall w r, R w (add_reasoning_request r w).
Hypothesis R_lookup : forall w l, R w (add_lookup l w).
Hypothesis R_emit : forall w e, R w (add_emission e w).

Lemma broadcastTranscriptUpdate_respects callId organizationId transcript :
  keeps R (broadcastTranscriptUpdate callId organizationId transcript).
Proof.
  unfold broadcastTranscriptUpdate, now_iso.
  apply keeps_bind; [assumption|apply keeps_gets; assumption|intros [io|]];
    [|apply keeps_log; assumption].
  apply keeps_bind; [assumption|apply keeps_gets; assumption|intros stamp].
  apply keeps_bind; [assumption|apply keeps_broadcastToCall; assumption|intros _].
  apply keeps_bind;
    [assumption|apply keeps_broadcastToOrganization; assumption|intros _].
  keeps_auto.
Qed.

Lemma handleFunctionCalled_respects event : keeps R (handleFunctionCalled event).
Proof. unfold handleFunctionCalled, handleFunctionCalled_body. keeps_auto. Qed.

Lemma handleTranscriptUpdated_body_respects event :
  keeps R (handleTranscriptUpdated_body getCall event).
Proof.
  unfold handleTranscriptUpdated_body.
  apply keeps_bind; [assumption|keeps_auto|intros transcript].
  apply keeps_bind; [assumption|keeps_auto|intros _].
  apply keeps_bind; [assumption|keeps_auto|intros [call|]]; [|keeps_auto].
  destruct (JS.truthy (latest_message transcript)); [|keeps_auto].
  do 5 (apply keeps_bind; [assumption|apply keeps_lift; assumption|intros ?]).
  apply keeps_bind;
    [assumption|apply broadcastTranscriptUpdate_respects|intros _].
  keeps_auto.
Qed.

Lemma handleTranscriptUpdated_respects event :
  keeps R (handleTranscriptUpdated getCall event).
Proof.
  unfold handleTranscriptUpdated.
  apply keeps_try_catch; [assumption|apply handleTranscriptUpdated_body_respects|].
  intros e. keeps_auto.
Qed.

(** The four status handlers respect what [updateCallStatus] respects. *)
Lemma status_handler_respects (d : Dispatched) (event : VapiWebhookEvent) :
  (forall status sd, keeps R (updateCallStatus JSON_stringify (callId event) status sd)) ->
  keeps R (handler getCall JSON_stringify d event).
Proof.
  intros Hupdate.
  destruct d; simpl;
    [| | | |apply handleFunctionCalled_respects|apply handleTranscriptUpdated_respects];
    unfold handleCallStarted, handleCallAnswered, handleCallEnded, handleCallFailed,
      handleCallStarted_body, handleCallAnswered_body, handleCallEnded_body,
      handleCallFailed_body.
  all: repeat first [ apply Hupdate | keeps_step ].
Qed.

Lemma handleVapiWebhook_respects (req : Request) :
  (forall d event, keeps R (handler getCall JSON_stringify d event)) ->
  keeps R (handleVapiWebhook getCall JSON_stringify req).
Proof.
  intros Hhandler. unfold handleVapiWebhook.
  apply keeps_try_catch; [assumption| |intros; keeps_auto].
  apply keeps_bind; [assumption|destruct (body req); keeps_auto|intros event].
  apply keeps_bind; [assumption|keeps_auto|intros _].
  apply keeps_bind; [assumption| |intros _; keeps_auto].
  destruct (dispatch (type event)) as [d|]; [apply Hhandler|keeps_auto].
Qed.

Lemma handler_body_respects (d : Dispatched) (event : VapiWebhookEvent) :
  keeps R (handler_body getCall JSON_stringify d event).
Proof.
  destruct d; simpl;
    [| | | | |apply handleTranscriptUpdated_body_respects];
    unfold handleCallStarted_body, handleCallAnswered_body, handleCallEnded_body,
      handleCallFailed_body, handleFunctionCalled_body.
  all: repeat first
         [ apply updateCallStatus_keeps; assumption
         | keeps_step ].
Qed.

Lemma verifyWebhookMiddleware_respects webhookSecret req :
  keeps R (verifyWebhookMiddleware body_json hmac_sha256_hex webhookSecret req).
Proof.
  unfold verifyWebhookMiddleware, verifySignature.
  destruct (webhookSecret =? ""); [keeps_auto|].
  destruct (signature req) as [[|c sig]|]; keeps_auto.
Qed.

End Respects.

Lemma logs_grow_refl w : logs_grow w w.
Proof. exists []. symmetry. apply app_nil_r. Qed.

Lemma logs_grow_trans a b c : logs_grow a b -> logs_grow b c -> logs_grow a c.
Proof.
  intros (l1 & H1) (l2 & H2). exists (l1 ++ l2)%list. rewrite H2, H1. symmetry. apply app_assoc.
Qed.

Lemma logs_grow_same w w' : logs w' = logs w -> logs_grow w w'.
Proof. intros H. exists []. rewrite H. symmetry. apply app_nil_r. Qed.

Lemma logs_grow_log w e : logs_grow w (add_log e w).
Proof. exists [e]. reflexivity. Qed.

(** An entry logged after the log has grown is among the new entries. *)
Lemma logged_last_is_new w w1 e :
  logs_grow w w1 -> In e (new_logs w (add_log e w1)).
Proof.
  intros (l & Hl). unfold new_logs. simpl. rewrite Hl, <- app_assoc.
  rewrite DatabaseFacts.skipn_length_app. apply in_or_app. right. left. reflexivity.
Qed.

Lemma same_sockets_refl w : same_sockets w w.
Proof. repeat split. Qed.

Lemma same_sockets_trans a b c : same_sockets a b -> same_sockets b c -> same_sockets a c.
Proof. unfold same_sockets. intuition congruence. Qed.

Lemma same_reasoning_refl w : same_reasoning w w.
Proof. reflexivity. Qed.

Lemma same_reasoning_trans a b c :
  same_reasoning a b -> same_reasoning b c -> same_reasoning a c.
Proof. unfold same_reasoning. congruence. Qed.

Lemma same_data_refl w : same_data w w.
Proof. split; reflexivity. Qed.

Lemma same_data_trans a b c : same_data a b -> same_data b c -> same_data a c.
Proof. unfold same_data. intuition congruence. Qed.

Lemma same_platform_refl w : same_platform w w.
Proof. reflexivity. Qed.

Lemma same_platform_trans a b c : same_platform a b -> same_platform b c -> same_platform a c.
Proof. unfold same_platform. congruence. Qed.

End FrameFacts.

(** ** The webhook endpoint *)

Module WebhookFacts.
Import Store World WebSocketManager Voice FrameFacts.

Section Endpoint.

Variable getCall : Tables -> string -> Exn + option VoiceCall.t.
Variable JSON_stringify : JSVal -> JSVal.
Variable body_json : VapiWebhookEvent -> string.
Variable hmac_sha256_hex : string -> string -> string.

Lemma string_eqb_false (a b : string) : a <> b -> (a =? b) = false.
Proof. intros H. destruct (String.eqb_spec a b); [contradiction|reflexivity]. Qed.

Lemma verifySignature_total payload signature secret w :
  exists ok w', verifySignature hmac_sha256_hex payload signature secret w = (inr ok, w').
Proof.
  unfold verifySignature, try_catch, bind, lift, timingSafeEqual, ret, throw, log, modify.
  destruct payload as [p|]; simpl.
  - destruct (String.length signature =? String.length (hmac_sha256_hex secret p))%nat;
      eauto.
  - eauto.
Qed.

(** A signature is accepted only when it is the keyed hash of the body. *)
Lemma verifySignature_sound payload signature secret w w' :
  verifySignature hmac_sha256_hex payload signature secret w = (inr true, w') ->
  exists p, payload = Some p /\ signature = hmac_sha256_hex secret p.
Proof.
  unfold verifySignature, try_catch, bind, lift, timingSafeEqual, ret, throw, log, modify.
  destruct payload as [p|]; simpl.
  - destruct (String.length signature =? String.length (hmac_sha256_hex secret p))%nat.
    + intros [= Heq _]. exists p. split; [reflexivity|]. now apply String.eqb_eq.
    + intros [=].
  - intros [=].
Qed.

Lemma middleware_rejects (webhookSecret : string) (req : Request) (w : World.t) :
  webhookSecret <> "" ->
  ~ signature_matches body_json hmac_sha256_hex webhookSecret req ->
  exists res w',
    verifyWebhookMiddleware body_json hmac_sha256_hex webhookSecret req w
      = (inr (Responded res), w') /\ status res = 401.
Proof.
  intros Hsecret Hbad.
  unfold verifyWebhookMiddleware.
  rewrite (string_eqb_false _ _ Hsecret).
  destruct (signature req) as [[|c sig]|] eqn:Hsig.
  - unfold bind, log, modify, ret; simpl. eauto.
  - unfold bind at 1.
    destruct (verifySignature_total (option_map body_json (body req))
                (String c sig) webhookSecret w) as (ok & w' & Hrun).
    rewrite Hrun. destruct ok.
    + exfalso. apply Hbad.
      apply verifySignature_sound in Hrun. destruct Hrun as (p & Hp & Hs).
      destruct (body req) as [e|] eqn:Hbody; [|discriminate].
      injection Hp as <-. exists e. split; [exact Hbody|]. rewrite Hsig, Hs. reflexivity.
    + unfold bind, log, modify, ret; simpl. eauto.
  - unfold bind, log, modify, ret; simpl. eauto.
Qed.

(** C4: with a secret configured, a request whose signature header is
    missing or is not the HMAC of its body is answered 401 by the
    middleware and the handler is not run; with no secret configured the
    middleware lets every request through. *)
Theorem webhook_signature_gate (webhookSecret : string) (req : Request) (w : World.t) :
  (webhookSecret <> "" ->
   ~ signature_matches body_json hmac_sha256_hex webhookSecret req ->
   exists res w',
     verifyWebhookMiddleware body_json hmac_sha256_hex webhookSecret req w
       = (inr (Responded res), w') /\
     status res = 401 /\
     webhook_route getCall JSON_stringify body_json hmac_sha256_hex webhookSecret req w
       = (inr res, w')) /\
  (webhookSecret = "" ->
   exists w',
     verifyWebhookMiddleware body_json hmac_sha256_hex webhookSecret req w = (inr Next, w') /\
     webhook_route getCall JSON_stringify body_json hmac_sha256_hex webhookSecret req w
       = handleVapiWebhook getCall JSON_stringify req w').
Proof.
  split.
  - intros Hsecret Hbad.
    destruct (middleware_rejects webhookSecret req w Hsecret Hbad) as (res & w' & Hm & H401).
    exists res, w'. repeat split; auto.
    unfold webhook_route, bind. rewrite Hm. reflexivity.
  - intros ->. unfold webhook_route, verifyWebhookMiddleware; simpl.
    unfold bind, log, modify, ret; simpl. eauto.
Qed.

(** The handler never throws and always answers 200. *)
Lemma handleVapiWebhook_200 (req : Request) (w : World.t) :
  exists res w', handleVapiWebhook getCall JSON_stringify req w = (inr res, w') /\ status res = 200.
Proof.
  unfold handleVapiWebhook, try_catch, bind, ret, throw, log, modify.
  destruct (body req) as [event|]; simpl.
  - destruct (dispatch (type event)) as [d|].
    + destruct (handler getCall JSON_stringify d event _) as [[e|[]] w']; simpl; eauto.
    + simpl; eauto.
  - eauto.
Qed.

(** Each handler is its [try] block under a [catch] that logs. *)
Lemma handler_catches (d : Dispatched) (event : VapiWebhookEvent) :
  handler getCall JSON_stringify d event
  = try_catch (handler_body getCall JSON_stringify d event)
      (fun _ => log Error (handler_failure d)).
Proof. destruct d; reflexivity. Qed.

(** What the handler logs when processing throws: the error of a missing
    body in its own [catch], the error of an event handler in the [catch]
    of that handler. *)
Lemma handleVapiWebhook_logs_failures (req : Request) (w0 w : World.t) :
  logs_grow w0 w ->
  (body req = None ->
   In (Error, "Failed to handle webhook")
      (new_logs w0 (snd (handleVapiWebhook getCall JSON_stringify req w)))) /\
  (forall event d e,
      body req = Some event ->
      dispatch (type event) = Some d ->
      fst (handler_body getCall JSON_stringify d event
             (add_log (Info, "Received Vapi webhook") w)) = inl e ->
      In (Error, handler_failure d)
         (new_logs w0 (snd (handleVapiWebhook getCall JSON_stringify req w)))).
Proof.
  intros Hgrow. split.
  - intros Hbody. unfold handleVapiWebhook. rewrite Hbody.
    unfold try_catch, bind, throw, log, modify, ret. simpl.
    apply logged_last_is_new, Hgrow.
  - intros event d e Hbody Hd Hthrows.
    unfold handleVapiWebhook. rewrite Hbody.
    unfold try_catch at 1. unfold bind at 1 2 3. unfold ret at 1.
    change (log Info "Received Vapi webhook" w)
      with (@inr Exn unit tt, add_log (Info, "Received Vapi webhook") w).
    cbv beta iota. rewrite Hd, handler_catches.
    pose proof (handler_body_respects getCall JSON_stringify logs_grow
                  logs_grow_refl logs_grow_trans logs_grow_log
                  (fun w d => logs_grow_refl w) (fun w r => logs_grow_refl w)
                  (fun w l => logs_grow_refl w) (fun w e => logs_grow_refl w)
                  d event (add_log (Info, "Received Vapi webhook") w)) as Hbodygrow.
    unfold try_catch.
    destruct (handler_body getCall JSON_stringify d event
                (add_log (Info, "Received Vapi webhook") w)) as [[e0|[]] w2];
      [|discriminate Hthrows].
    simpl in *. apply logged_last_is_new.
    eapply logs_grow_trans; [exact Hgrow|].
    eapply logs_grow_trans; [apply logs_grow_log|exact Hbodygrow].
Qed.

(** C6: a request let through by the verification middleware is answered
    with HTTP 200, whatever happens while its event is processed, and what
    processing throws is logged: when the request has no body, the handler
    logs "Failed to handle webhook"; when the [try] block of the handler of
    the event throws, that handler logs its own "Failed to handle ...". *)
Theorem webhook_always_200 (webhookSecret : string) (req : Request) (w : World.t) :
  fst (verifyWebhookMiddleware body_json hmac_sha256_hex webhookSecret req w) = inr Next ->
  exists res w',
    webhook_route getCall JSON_stringify body_json hmac_sha256_hex webhookSecret req w
    = (inr res, w') /\
    status res = 200 /\
    (body req = None -> In (Error, "Failed to handle webhook") (new_logs w w')) /\
    (forall event d e,
        body req = Some event ->
        dispatch (type event) = Some d ->
        fst (handler_body getCall JSON_stringify d event
               (add_log (Info, "Received Vapi webhook")
                  (snd (verifyWebhookMiddleware body_json hmac_sha256_hex webhookSecret
                          req w)))) = inl e ->
        In (Error, handler_failure d) (new_logs w w')).
Proof.
  unfold webhook_route, bind at 1.
  pose proof (verifyWebhookMiddleware_respects body_json hmac_sha256_hex logs_grow
                logs_grow_refl logs_grow_trans logs_grow_log webhookSecret req w) as Hgrow.
  destruct (verifyWebhookMiddleware body_json hmac_sha256_hex webhookSecret req w)
    as [[e|[|res]] w1]; simpl in *; try discriminate.
  intros _.
  destruct (handleVapiWebhook_200 req w1) as (res & w' & Hrun & Hstatus).
  destruct (handleVapiWebhook_logs_failures req w w1 Hgrow) as [Hnone Hsome].
  rewrite Hrun in Hnone, Hsome. simpl in Hnone, Hsome.
  exists res, w'. repeat split; assumption.
Qed.

End Endpoint.

Lemma webhook_signature_gate_witness :
  (exists res w',
     verifyWebhookMiddleware Samples.body_text Samples.toy_hmac "s3cret"
       Samples.tampered_request (Samples.world None [])
       = (inr (Responded res), w') /\
     status res = 401 /\
     webhook_route missing_getCall Samples.stringify Samples.body_text Samples.toy_hmac
       "s3cret" Samples.tampered_request (Samples.world None [])
       = (inr res, w')) /\
  (exists w',
     verifyWebhookMiddleware Samples.body_text Samples.toy_hmac ""
       Samples.tampered_request (Samples.world None []) = (inr Next, w') /\
     webhook_route missing_getCall Samples.stringify Samples.body_text Samples.toy_hmac
       "" Samples.tampered_request (Samples.world None [])
       = handleVapiWebhook missing_getCall Samples.stringify Samples.tampered_request w').
Proof.
  split.
  - apply (webhook_signature_gate missing_getCall Samples.stringify Samples.body_text
             Samples.toy_hmac "s3cret" Samples.tampered_request (Samples.world None [])).
    + discriminate.
    + intros (e & Hbody & Hsig). injection Hbody as <-. discriminate Hsig.
  - apply (webhook_signature_gate missing_getCall Samples.stringify Samples.body_text
             Samples.toy_hmac "" Samples.tampered_request (Samples.world None [])).
    reflexivity.
Defined.

(** The same request carrying the signature of its own body passes. *)
Example signed_request_passes :
  fst (verifyWebhookMiddleware Samples.body_text Samples.toy_hmac "s3cret"
         (mkRequest (Some (Samples.toy_hmac "s3cret"
                             (Samples.body_text (Samples.started_event "vapi-1"))))
            (Some (Samples.started_event "vapi-1")))
         (Samples.world None []))
  = inr Next.
Proof. reflexivity. Qed.

Lemma webhook_always_200_witness :
  let req := Samples.unsigned_request (Samples.started_event "vapi-404") in
  let w := Samples.world None [] in
  fst (verifyWebhookMiddleware Samples.body_text Samples.toy_hmac "" req w) = inr Next /\
  fst (handler_body missing_getCall Samples.stringify CallStarted
         (Samples.started_event "vapi-404")
         (add_log (Info, "Received Vapi webhook")
            (snd (verifyWebhookMiddleware Samples.body_text Samples.toy_hmac "" req w))))
  = inl (JsError "callManager.getCall is not a function") /\
  exists res w',
    webhook_route missing_getCall Samples.stringify Samples.body_text Samples.toy_hmac ""
      req w = (inr res, w') /\
    status res = 200 /\
    In (Error, "Failed to handle call.started") (new_logs w w').
Proof.
  split; [reflexivity|]. split; [reflexivity|].
  destruct (webhook_always_200 missing_getCall Samples.stringify Samples.body_text
              Samples.toy_hmac "" (Samples.unsigned_request (Samples.started_event "vapi-404"))
              (Samples.world None []) eq_refl)
    as (res & w' & Hrun & Hstatus & _ & Hlogged).
  exists res, w'. split; [exact Hrun|]. split; [exact Hstatus|].
  exact (Hlogged (Samples.started_event "vapi-404") CallStarted _ eq_refl eq_refl eq_refl).
Defined.

(** An event for an unknown call, with the lookup the program has: the
    failure is logged by the handler of the event and the answer is still
    200. *)
Example unknown_call_is_acknowledged :
  let run := webhook_route missing_getCall Samples.stringify Samples.body_text
               Samples.toy_hmac ""
               (Samples.unsigned_request (Samples.started_event "vapi-404"))
               (Samples.world None []) in
  fst run = inr (mkResponse 200 (JObj [("received", JBool true)])) /\
  In (Error, "Failed to handle call.started") (logs (snd run)).
Proof. vm_compute. intuition. Qed.

(** A request without a body makes the handler itself throw; the outer
    catch answers 200 with the error message. *)
Example missing_body_is_acknowledged :
  fst (handleVapiWebhook missing_getCall Samples.stringify (mkRequest None None)
         (Samples.world None []))
  = inr (mkResponse 200
           (JObj [("received", JBool true);
                  ("error", JStr "Cannot read properties of undefined (reading 'type')")])).
Proof. reflexivity. Qed.

End WebhookFacts.

(** ** The call manager *)

Module CallManagerFacts.
Import Store World WebSocketManager Voice.

Lemma filter_none {A} (hit : A -> bool) (l : list A) :
  (forall x, In x l -> hit x = false) -> filter hit l = [].
Proof.
  induction l as [|a l IH]; simpl; intros H; [reflexivity|].
  rewrite (H a (or_introl eq_refl)). apply IH. intros x Hx. apply H. now right.
Qed.

Lemma update_where_none {A} (hit : A -> bool) (f : A -> A) (l : list A) :
  (forall x, In x l -> hit x = false) -> update_where hit f l = l.
Proof.
  induction l as [|a l IH]; simpl; intros H; [reflexivity|].
  rewrite (H a (or_introl eq_refl)). f_equal. apply IH. intros x Hx. apply H. now right.
Qed.

Section Manager.

Variable JSON_stringify : JSVal -> JSVal.

(** C10: when no voice-call row carries the given external call id and the
    driver runs the UPDATE, [updateCallStatus] returns normally after that
    one statement: the tables are unchanged, no analysis is requested, no
    statement on the activities table is sent, and the warning is logged. *)
Theorem updateCallStatus_unknown_call (vapiCallId status : string) (d : StatusData)
  (w : World.t) :
  (forall c, In c (voice_calls (tables w)) -> has_external_id (JStr vapiCallId) c = false) ->
  hd false (Database.faults (db w)) = false ->
  exists w',
    updateCallStatus JSON_stringify vapiCallId status d w = (inr tt, w') /\
    tables w' = tables w /\
    reasoning_requests w' = reasoning_requests w /\
    Database.new_calls (db w) (db w')
      = [(Database.PoolQuery (mkStmt UPDATE_VOICE_CALL_STATUS
                                (call_status_params vapiCallId status d)),
          Database.Done)] /\
    logs w' = (logs w ++ [(Info, "Updating call status");
                          (Warn, "Call not found for update")])%list.
Proof.
  destruct w as [[st tx le se fs] io em lg nw lk rr rp pc pp]. unfold tables. simpl.
  intros Hnone Hfault.
  unfold updateCallStatus, try_catch, bind, log, modify, db_query, in_db,
    Database.query, Database.driver_call, Database.next_fault. simpl.
  destruct fs as [|[] fs]; simpl in *; try discriminate.
  all: change (param (call_status_params vapiCallId status d) 9) with (JStr vapiCallId).
  all: rewrite (filter_none _ _ Hnone), (update_where_none _ _ _ Hnone); simpl.
  all: eexists; repeat split; simpl.
  all: try (destruct st; reflexivity).
  all: try (unfold Database.new_calls; simpl; apply DatabaseFacts.skipn_length_app).
  all: rewrite <- app_assoc; reflexivity.
Qed.

End Manager.

(** When the driver fails on that UPDATE instead, the error is logged and
    rethrown and the tables are as they were. *)
Example updateCallStatus_driver_failure :
  let run := updateCallStatus Samples.stringify "vapi-404" "ringing" no_data
               (Samples.world None [true]) in
  fst run = inl Database.connection_lost /\
  tables (snd run) = tables (Samples.world None [true]) /\
  In (Error, "Failed to update call status") (logs (snd run)).
Proof. vm_compute. intuition. Qed.

Lemma updateCallStatus_unknown_call_witness :
  (forall c, In c (voice_calls (tables (Samples.world None []))) ->
             has_external_id (JStr "vapi-404") c = false) /\
  hd false (Database.faults (db (Samples.world None []))) = false /\
  exists w',
    updateCallStatus Samples.stringify "vapi-404" "ringing" no_data (Samples.world None [])
      = (inr tt, w') /\
    tables w' = tables (Samples.world None []).
Proof.
  assert (Hnone : forall c, In c (voice_calls (tables (Samples.world None []))) ->
                            has_external_id (JStr "vapi-404") c = false).
  { intros c [<-|[]]. reflexivity. }
  split; [exact Hnone|]. split; [reflexivity|].
  destruct (updateCallStatus_unknown_call Samples.stringify "vapi-404" "ringing" no_data
              (Samples.world None []) Hnone eq_refl) as (w' & Hrun & Htables & _).
  exists w'. split; assumption.
Defined.

End CallManagerFacts.

(** ** The handlers of the six event types *)

Module HandlerFacts.
Import Store World WebSocketManager Voice FrameFacts.

Lemma new_lookups_same w w' : lookups w' = lookups w -> new_lookups w w' = [].
Proof. intros H. unfold new_lookups. rewrite H. apply skipn_all. Qed.

Lemma new_emissions_same w w' : emitted w' = emitted w -> new_emissions w w' = [].
Proof. intros H. unfold new_emissions. rewrite H. apply skipn_all. Qed.

Lemma new_emissions_more w w' l :
  emitted w' = (emitted w ++ l)%list -> new_emissions w w' = l.
Proof. intros H. unfold new_emissions. rewrite H. apply DatabaseFacts.skipn_length_app. Qed.

Lemma broadcastCallStatus_initialized callId organizationId status metadata w io :
  ioInstance w = Some io ->
  exists w',
    broadcastCallStatus callId organizationId status metadata w = (inr tt, w') /\
    lookups w' = lookups w /\
    emitted w' = (emitted w ++ to_both_rooms io callId organizationId "call:status"
                    (JObj [("callId", JStr callId); ("status", JStr status);
                           ("metadata", metadata); ("timestamp", JStr (now w))]))%list.
Proof.
  destruct w as [d i em lg nw lk rr rp pc pp]; simpl. intros ->.
  unfold broadcastCallStatus, broadcastToCall, broadcastToOrganization, emit, now_iso,
    bind, gets, log, modify. simpl.
  eexists; split; [reflexivity|]. simpl. rewrite <- app_assoc. split; reflexivity.
Qed.

Lemma try_catch_log {A} l msg (k : unit -> M World.t A) h w :
  try_catch (bind (log l msg) k) h w = try_catch (k tt) h (add_log (l, msg) w).
Proof. reflexivity. Qed.

Lemma try_catch_lift {A B} (r : Exn + A) (k : A -> M World.t B) h w :
  try_catch (bind (lift r) k) h w
  = match r with inl e => h e w | inr a => try_catch (k a) h w end.
Proof. destruct r; reflexivity. Qed.

(** [function.called] is only logged: the handler leaves the database, the
    sockets and the lookups alone. *)
Lemma handleFunctionCalled_only_logs (event : VapiWebhookEvent) (w : World.t) :
  exists entries,
    handleFunctionCalled event w
    = (inr tt, World.mk (db w) (ioInstance w) (emitted w) (logs w ++ entries) (now w)
                 (lookups w) (reasoning_requests w) (reasoning_reply w)
                 (platform_cancels w) (platform_reply w)).
Proof.
  destruct w as [d i em lg nw lk rr rp pc pp].
  unfold handleFunctionCalled, handleFunctionCalled_body, try_catch, bind, lift, log,
    modify, ret, add_log; simpl.
  destruct (JS.get (data event) "functionName") as [e|fn]; simpl; [eauto|].
  destruct (JS.get (data event) "parameters") as [e|ps]; simpl; [eauto|].
  destruct (is_string fn "schedule_follow_up"); simpl.
  - destruct (JS.get ps "date") as [e|date]; simpl; rewrite <- ?app_assoc; eauto.
  - eauto.
Qed.

(** Where the program calls [callManager.getCall], the call throws and what
    follows it in the [try] block is not run. *)
Lemma keeps_missing_getCall (R : World.t -> World.t -> Prop) {B} (callId : string)
  (k : option VoiceCall.t -> M World.t B) :
  (forall w, R w w) ->
  keeps R (call <- callManager_getCall missing_getCall callId ;; k call).
Proof. intros R_refl w. apply R_refl. Qed.

Section Handlers.

Variable JSON_stringify : JSVal -> JSVal.

Lemma updateCallStatus_same_sockets vapiCallId status d :
  keeps same_sockets (updateCallStatus JSON_stringify vapiCallId status d).
Proof.
  apply (updateCallStatus_keeps JSON_stringify same_sockets
           same_sockets_refl same_sockets_trans); intros; repeat split.
Qed.

(** With the lookup the program has, no handler reaches the broadcast
    layer. *)
Lemma handler_keeps_sockets (d : Dispatched) (event : VapiWebhookEvent) :
  keeps same_sockets (handler missing_getCall JSON_stringify d event).
Proof.
  pose proof same_sockets_refl as Hrefl. pose proof same_sockets_trans as Htrans.
  assert (Hlog : forall w e, same_sockets w (add_log e w)) by (intros; repeat split).
  destruct d; simpl;
    unfold handleCallStarted, handleCallAnswered, handleCallEnded, handleCallFailed,
      handleFunctionCalled, handleTranscriptUpdated,
      handleCallStarted_body, handleCallAnswered_body, handleCallEnded_body,
      handleCallFailed_body, handleFunctionCalled_body, handleTranscriptUpdated_body.
  all: repeat first
         [ apply keeps_missing_getCall; assumption
         | apply updateCallStatus_same_sockets
         | keeps_step ].
Qed.

(** C2 (the code departs from it): [callManager.getCall], which the
    handlers of call.started, call.answered, call.ended, call.failed and
    transcript.updated call before they broadcast, is not defined by the
    class; the call throws, the handler's [catch] logs the error, and the
    broadcast is not reached.  So no handler emits anything, whatever the
    event and the state: not with the sockets initialized, not when the row
    of the call exists and was just updated.  (The handler of
    function.called does not broadcast by its own code.) *)
Theorem handlers_never_broadcast (d : Dispatched) (event : VapiWebhookEvent) (w : World.t) :
  fst (handler missing_getCall JSON_stringify d event w) = inr tt /\
  new_emissions w (snd (handler missing_getCall JSON_stringify d event w)) = [] /\
  new_lookups w (snd (handler missing_getCall JSON_stringify d event w)) = [].
Proof.
  destruct (handler_keeps_sockets d event w) as (_ & Hemitted & Hlookups).
  split; [|split].
  - rewrite WebhookFacts.handler_catches.
    unfold try_catch, log, modify.
    destruct (handler_body missing_getCall JSON_stringify d event w) as [[e|[]] w1];
      reflexivity.
  - apply new_emissions_same, Hemitted.
  - apply new_lookups_same, Hlookups.
Qed.

End Handlers.

(** At a call that is known and was just updated, with the sockets
    initialized: the status is stored, the lookup throws, and nothing is
    announced. *)
Example without_getCall_nothing_is_broadcast :
  let w := Samples.world (Some 7) [] in
  let w' := snd (handler missing_getCall Samples.stringify CallStarted
                   (Samples.started_event "vapi-1") w) in
  map VoiceCall.externalCallId (voice_calls (tables w)) = [JStr "vapi-1"] /\
  ioInstance w = Some 7 /\
  map VoiceCall.status (voice_calls (tables w')) = [JStr "ringing"] /\
  emitted w' = [] /\
  In (Error, "Failed to handle call.started") (logs w').
Proof. vm_compute. intuition. Qed.

(** The same for a transcript update: the latest message is not passed
    on. *)
Example transcript_update_is_not_broadcast :
  let event := mkEvent (JStr "transcript.updated") "vapi-1" (JStr "2024-05-01T10:01:30Z")
                 (JObj [("transcript",
                         JArr [JObj [("role", JStr "user"); ("text", JStr "Hello?")]])]) in
  let w' := snd (handler missing_getCall Samples.stringify TranscriptUpdated event
                   (Samples.world (Some 7) [])) in
  emitted w' = [] /\
  In (Error, "Failed to handle transcript.updated") (logs w').
Proof. vm_compute. intuition. Qed.

End HandlerFacts.

(** ** Cancelling a call *)

Module CancelFacts.
Import Store World Voice FrameFacts.

(** C7 (the code departs from it): whatever the call and its external
    call id, the cancelCall mutation sends no request to the voice platform;
    it only updates the row. *)
Theorem cancelCall_mutation_never_reaches_platform (callId : string) (auth : option string)
  (w : World.t) :
  platform_cancels (snd (Mutation.cancelCall callId auth w)) = platform_cancels w.
Proof.
  change (same_platform w (snd (Mutation.cancelCall callId auth w))).
  revert w. change (keeps same_platform (Mutation.cancelCall callId auth)).
  assert (Hlog : forall w e, same_platform w (add_log e w)) by reflexivity.
  assert (Hdb : forall w d, same_platform w (set_db d w)) by reflexivity.
  pose proof same_platform_refl as Hrefl. pose proof same_platform_trans as Htrans.
  unfold Mutation.cancelCall, db_queryWithContext. keeps_auto.
Qed.

(** At a call that has an external call id: the platform has received
    nothing.  The row is not cancelled either: the helper's SET LOCAL is
    refused, the UPDATE is not sent and the mutation throws. *)
Example cancelCall_mutation_on_live_call :
  let run := Mutation.cancelCall "call-1" (Some "org-1") (Samples.world None []) in
  VoiceCall.externalCallId Samples.call1 = JStr "vapi-1" /\
  platform_cancels (snd run) = [] /\
  fst run = inl (JsError "Failed to cancel call") /\
  map VoiceCall.status (voice_calls (tables (snd run))) = [JStr "in-progress"].
Proof. vm_compute. intuition. Qed.

(** The call manager's own [cancelCall], which is written to ask the
    platform, is not what the mutation calls; on the same call it stops at
    its SELECT, for the same reason. *)
Example callManager_cancelCall_on_live_call :
  let run := cancelCall Samples.stringify "call-1" "org-1" (Samples.world None []) in
  fst run = inl Database.set_local_refused /\
  map VoiceCall.status (voice_calls (tables (snd run))) = [JStr "in-progress"] /\
  platform_cancels (snd run) = [].
Proof. vm_compute. intuition. Qed.

End CancelFacts.

(** ** A completed call and its transcript *)

Module AnalysisFacts.
Import Store World WebSocketManager Voice Statuses FrameFacts.

Lemma returns_ret {A} (a : A) w : returns (ret a) w a w.
Proof. reflexivity. Qed.

Lemma returns_bind {A B} (m : M World.t A) (k : A -> M World.t B) w a w1 b w2 :
  returns m w a w1 -> returns (k a) w1 b w2 -> returns (bind m k) w b w2.
Proof. unfold returns, bind. intros -> ->. reflexivity. Qed.

Lemma returns_try_catch {A} (body : M World.t A) h w a w' :
  returns body w a w' -> returns (try_catch body h) w a w'.
Proof. unfold returns, try_catch. intros ->. reflexivity. Qed.

Lemma returns_log l msg w : returns (log l msg) w tt (add_log (l, msg) w).
Proof. reflexivity. Qed.

Lemma returns_lift {A} (r : Exn + A) a w : r = inr a -> returns (lift r) w a w.
Proof. intros ->. reflexivity. Qed.

Lemma returns_db_query s w tables' r :
  Database.faults (db w) = [] ->
  exec None s (tables w) = inr (tables', r) ->
  returns (db_query s) w r (after_db tables' [(Database.PoolQuery s, Database.Done)] w).
Proof.
  intros Hf Hexec. unfold returns, db_query, in_db.
  rewrite (DatabaseFacts.query_clean exec s (db w) tables' r Hf Hexec). reflexivity.
Qed.

Lemma returns_mage_analyze transcript w output :
  reasoning_reply w transcript = inr output ->
  returns (mage_analyze transcript) w output
    (add_log (Info, "MageAgent reasoning complete")
       (add_reasoning_request transcript (add_log (Info, "MageAgent reasoning") w))).
Proof.
  intros Hreply. unfold returns, mage_analyze, try_catch, bind, log, modify, ret. simpl.
  rewrite Hreply. reflexivity.
Qed.

Lemma clean_after_db tables' calls w : clean w -> clean (after_db tables' calls w).
Proof. intros [Hf Ht]. split; simpl; auto. Qed.

Lemma clean_add_log e w : clean w -> clean (add_log e w).
Proof. intros H; exact H. Qed.

Lemma clean_add_reasoning_request r w : clean w -> clean (add_reasoning_request r w).
Proof. intros H; exact H. Qed.

Create HintDb clean.
#[local] Hint Resolve clean_after_db clean_add_log clean_add_reasoning_request : clean.

Lemma find_filter {A} (hit : A -> bool) (l : list A) (c : A) :
  find hit l = Some c -> exists rest, filter hit l = c :: rest.
Proof.
  induction l as [|a l IH]; simpl; [discriminate|].
  destruct (hit a); [intros [= ->]; eauto|exact IH].
Qed.

Lemma try_catch_returns {A B} (m : M World.t A) (k : A -> M World.t B) h w a w1 :
  returns m w a w1 -> try_catch (bind m k) h w = try_catch (k a) h w1.
Proof. unfold returns, try_catch, bind. intros ->. reflexivity. Qed.

Lemma same_data_log w e : same_data w (add_log e w).
Proof. split; reflexivity. Qed.

Lemma same_data_lookup w l : same_data w (add_lookup l w).
Proof. split; reflexivity. Qed.

Lemma same_data_emission w e : same_data w (add_emission e w).
Proof. split; reflexivity. Qed.

(** *** What throws, and what is kept while it does *)

Lemma throws_bind {A B} (m : M World.t A) (k : A -> M World.t B) :
  throws m -> throws (bind m k).
Proof.
  intros Hm w. unfold bind. destruct (Hm w) as (e & He).
  destruct (m w) as [[e0|a] w1]; simpl in *; [eauto|discriminate He].
Qed.

Lemma throws_then {A B} (m : M World.t A) (k : A -> M World.t B) :
  (forall a, throws (k a)) -> throws (bind m k).
Proof.
  intros Hk w. unfold bind. destruct (m w) as [[e|a] w1]; simpl; [eauto|apply Hk].
Qed.

(** [queryWithContext] never returns: the SET LOCAL it starts with is
    refused. *)
Lemma db_queryWithContext_throws org s : throws (db_queryWithContext org s).
Proof.
  intros w. unfold db_queryWithContext, in_db.
  destruct (DatabaseFacts.queryWithContext_throws exec org s (db w)) as ((e & He) & _).
  destruct (Database.queryWithContext exec org s (db w)) as [r d]. simpl in *. eauto.
Qed.

Lemma data_kept_refl w : data_kept w w.
Proof. split; [apply same_data_refl|]. split; [apply logs_grow_refl|auto]. Qed.

Lemma data_kept_trans a b c : data_kept a b -> data_kept b c -> data_kept a c.
Proof.
  intros (D1 & L1 & F1) (D2 & L2 & F2). split; [|split].
  - eapply same_data_trans; eassumption.
  - eapply logs_grow_trans; eassumption.
  - auto.
Qed.

Lemma data_kept_log w e : data_kept w (add_log e w).
Proof. split; [apply same_data_log|]. split; [apply logs_grow_log|auto]. Qed.

Lemma data_kept_lookup w l : data_kept w (add_lookup l w).
Proof. split; [apply same_data_lookup|]. split; [now apply logs_grow_same|auto]. Qed.

Lemma data_kept_emission w e : data_kept w (add_emission e w).
Proof. split; [apply same_data_emission|]. split; [now apply logs_grow_same|auto]. Qed.

Lemma db_queryWithContext_keeps_data org s : keeps data_kept (db_queryWithContext org s).
Proof.
  intros w. unfold db_queryWithContext, in_db.
  pose proof (DatabaseFacts.queryWithContext_throws exec org s (db w)) as (_ & Hstore & _).
  pose proof (DatabaseFacts.queryWithContext_faults exec org s (db w)) as Hfaults.
  destruct (Database.queryWithContext exec org s (db w)) as [r d]. simpl in *.
  split; [split; [exact Hstore|reflexivity]|]. split; [now apply logs_grow_same|exact Hfaults].
Qed.

(** The analysis columns are respected by everything but a statement that
    writes them. *)
Lemma unwritten_refl w : analysis_unwritten w w.
Proof. split; apply Forall2_same; reflexivity. Qed.

Lemma unwritten_trans a b c :
  analysis_unwritten a b -> analysis_unwritten b c -> analysis_unwritten a c.
Proof.
  intros (C1 & A1) (C2 & A2). split.
  - eapply Forall2_chain; [|exact C1|exact C2]. intros x y z H1 H2. congruence.
  - eapply Forall2_chain; [|exact A1|exact A2]. intros x y z H1 H2. congruence.
Qed.

Lemma unwritten_same_tables w w' : tables w' = tables w -> analysis_unwritten w w'.
Proof. intros H. unfold analysis_unwritten. rewrite H. apply unwritten_refl. Qed.

Lemma db_query_unwritten s :
  (forall t t' r,
      exec None s t = inr (t', r) ->
      Forall2 (fun r r' => analysis_columns r' = analysis_columns r)
        (voice_calls t) (voice_calls t') /\
      Forall2 (fun a a' => activity_analysis_columns a' = activity_analysis_columns a)
        (activities t) (activities t')) ->
  keeps analysis_unwritten (db_query s).
Proof.
  intros Hexec w. unfold db_query, in_db.
  pose proof (DatabaseFacts.query_outcome exec s (db w)) as [_ Hs].
  destruct (Database.query exec s (db w)) as [r d']. simpl in *.
  destruct Hs as [Hs|(r0 & Hs)].
  - apply unwritten_same_tables. exact Hs.
  - exact (Hexec _ _ _ Hs).
Qed.

Lemma db_queryWithContext_unwritten org s :
  keeps analysis_unwritten (db_queryWithContext org s).
Proof.
  intros w. apply unwritten_same_tables.
  destruct (db_queryWithContext_keeps_data org s w) as ((Ht & _) & _). exact Ht.
Qed.

Section Analysis.

Variable getCall : Tables -> string -> Exn + option VoiceCall.t.
Variable JSON_stringify : JSVal -> JSVal.

(** The [try] block of [analyzeCallTranscript] always throws: the reasoning
    service fails, or its answer cannot be read, or else the first UPDATE is
    reached and its [queryWithContext] throws. *)
Lemma analyzeCallTranscript_body_throws callId transcript organizationId :
  throws (analyzeCallTranscript_body JSON_stringify callId transcript organizationId).
Proof.
  unfold analyzeCallTranscript_body.
  apply throws_then; intros _.
  apply throws_then; intros analysis.
  do 8 (apply throws_then; intros ?).
  apply throws_bind, db_queryWithContext_throws.
Qed.

(** One request goes to the reasoning service whatever it answers. *)
Lemma mage_analyze_asks transcript w :
  tables (snd (mage_analyze transcript w)) = tables w /\
  reasoning_requests (snd (mage_analyze transcript w))
  = (reasoning_requests w ++ [transcript])%list /\
  logs_grow w (snd (mage_analyze transcript w)) /\
  Database.faults (db (snd (mage_analyze transcript w))) = Database.faults (db w).
Proof.
  unfold mage_analyze, try_catch, bind, log, modify, ret, throw. simpl.
  destruct (reasoning_reply w transcript) as [e|output]; simpl;
    repeat split; eexists; simpl; rewrite <- ?app_assoc; reflexivity.
Qed.

(** A [try] block that logs, asks the reasoning service and goes on with
    steps that throw and store nothing, under a [catch] that logs. *)
Lemma ask_then_throw transcript (k : JSVal -> M World.t unit) l1 msg1 l2 msg2 w :
  (forall a, throws (k a)) ->
  (forall a, keeps data_kept (k a)) ->
  exists w',
    try_catch (log l1 msg1 ;; analysis <- mage_analyze transcript ;; k analysis)
      (fun _ => log l2 msg2) w = (inr tt, w') /\
    tables w' = tables w /\
    reasoning_requests w' = (reasoning_requests w ++ [transcript])%list /\
    In (l2, msg2) (logs w') /\
    logs_grow w w' /\
    (Database.faults (db w) = [] -> Database.faults (db w') = []).
Proof.
  intros Hthrows Hkept.
  unfold try_catch. unfold bind at 1. unfold log at 1, modify at 1. unfold bind at 1.
  destruct (mage_analyze_asks transcript (add_log (l1, msg1) w)) as (Ht1 & Hr1 & Hl1 & Hf1).
  destruct (mage_analyze transcript (add_log (l1, msg1) w)) as [[e1|analysis] w1];
    simpl in Ht1, Hr1, Hl1, Hf1.
  - eexists. split; [reflexivity|]. simpl.
    repeat split; try assumption.
    + apply in_or_app. right. left. reflexivity.
    + eapply logs_grow_trans; [apply logs_grow_log|].
      eapply logs_grow_trans; [exact Hl1|apply logs_grow_log].
    + intros Hf. rewrite Hf1. exact Hf.
  - destruct (Hthrows analysis w1) as (e2 & He2).
    pose proof (Hkept analysis w1) as ((Ht2 & Hr2) & Hl2 & Hf2).
    destruct (k analysis w1) as [[e3|[]] w2]; simpl in *; [|discriminate He2].
    eexists. split; [reflexivity|]. simpl.
    repeat split.
    + transitivity (tables w1); [exact Ht2|exact Ht1].
    + transitivity (reasoning_requests w1); [exact Hr2|exact Hr1].
    + apply in_or_app. right. left. reflexivity.
    + eapply logs_grow_trans; [apply logs_grow_log|].
      eapply logs_grow_trans; [exact Hl1|].
      eapply logs_grow_trans; [exact Hl2|apply logs_grow_log].
    + intros Hf. apply Hf2. rewrite Hf1. exact Hf.
Qed.

(** So [analyzeCallTranscript] asks for the analysis and discards it: it
    returns, nothing is stored, and the failure is logged. *)
Lemma analyzeCallTranscript_discards callId transcript organizationId w :
  exists w',
    analyzeCallTranscript JSON_stringify callId transcript organizationId w = (inr tt, w') /\
    tables w' = tables w /\
    reasoning_requests w' = (reasoning_requests w ++ [transcript])%list /\
    In (Error, "Failed to analyze call transcript") (logs w') /\
    logs_grow w w' /\
    (Database.faults (db w) = [] -> Database.faults (db w') = []).
Proof.
  pose proof data_kept_refl as Hrefl. pose proof data_kept_trans as Htrans.
  pose proof data_kept_log as Hlog.
  unfold analyzeCallTranscript, analyzeCallTranscript_body.
  apply ask_then_throw.
  - intros analysis.
    do 8 (apply throws_then; intros ?).
    apply throws_bind, db_queryWithContext_throws.
  - intros analysis.
    repeat first [ apply db_queryWithContext_keeps_data | keeps_step ].
Qed.

(** The status update of a completed call with a transcript, on a driver
    that does not fail: both tables get the status update; the analysis is
    asked for and not stored. *)
Lemma updateCallStatus_completed_run vapiCallId d w call :
  Database.faults (db w) = [] ->
  JS.truthy (transcript d) = true ->
  find (has_external_id (JStr vapiCallId)) (voice_calls (tables w)) = Some call ->
  exists w',
    returns (updateCallStatus JSON_stringify vapiCallId "completed" d) w tt w' /\
    reasoning_requests w' = (reasoning_requests w ++ [transcript d])%list /\
    voice_calls (tables w') = calls_after_status vapiCallId "completed" d (tables w) /\
    activities (tables w') = activities_after_status vapiCallId "completed" d (tables w) /\
    In (Error, "Failed to analyze call transcript") (logs w') /\
    logs_grow w w'.
Proof.
  intros Hfaults Htruthy Hfind.
  destruct (find_filter _ _ _ Hfind) as (rest & Hfilter).
  set (s1 := mkStmt UPDATE_VOICE_CALL_STATUS (call_status_params vapiCallId "completed" d)).
  set (hit := has_external_id (JStr vapiCallId)).
  set (upd := set_call_status (call_status_params vapiCallId "completed" d)
                (current_timestamp (tables w))).
  set (t1 := mkTables (update_where hit upd (voice_calls (tables w)))
               (activities (tables w)) (current_timestamp (tables w))).
  set (r1 := mkResult (map upd (filter hit (voice_calls (tables w))))
               (List.length (filter hit (voice_calls (tables w))))).
  set (w1 := after_db t1 [(Database.PoolQuery s1, Database.Done)]
               (add_log (Info, "Updating call status") w)).
  destruct (analyzeCallTranscript_discards (VoiceCall.id (upd call)) (transcript d)
              (VoiceCall.prop (upd call) "organizationId") w1)
    as (w2 & Hrun & Ht2 & Hr2 & Hin2 & Hl2 & Hf2).
  specialize (Hf2 eq_refl).
  eexists. split.
  - unfold updateCallStatus. apply returns_try_catch.
    eapply returns_bind; [apply returns_log|].
    eapply (returns_bind _ _ _ r1 w1).
    { apply returns_db_query; [exact Hfaults|reflexivity]. }
    unfold r1. cbn [rows]. unfold hit. rewrite Hfilter. cbn [map].
    rewrite Htruthy. cbn [String.eqb Ascii.eqb Bool.eqb andb].
    eapply returns_bind; [exact Hrun|].
    eapply returns_bind.
    { apply returns_db_query; [exact Hf2|]. rewrite Ht2. reflexivity. }
    apply returns_log.
  - unfold calls_after_status, activities_after_status. rewrite Hfilter.
    cbn. repeat split.
    + exact Hr2.
    + apply in_or_app. left. exact Hin2.
    + eapply logs_grow_trans; [|apply logs_grow_log].
      eapply logs_grow_trans; [apply logs_grow_log|exact Hl2].
Qed.

(** After the status update, looking the call up and broadcasting store
    nothing and ask nothing of the reasoning service. *)
Lemma lookup_and_broadcast_keep_data callId status metadata msg :
  keeps data_kept
    (try_catch
       (call <- callManager_getCall getCall callId ;;
        match call with
        | Some call =>
            broadcastCallStatus callId (VoiceCall.organizationId call) status metadata
        | None => ret tt
        end)
       (fun _ => log Error msg)).
Proof.
  pose proof data_kept_refl as Hrefl. pose proof data_kept_trans as Htrans.
  pose proof data_kept_log as Hlog. pose proof data_kept_lookup as Hlookup.
  pose proof data_kept_emission as Hemit.
  keeps_auto.
Qed.

Lemma handleCallEnded_run event w call dfs :
  Database.faults (db w) = [] ->
  data event = JObj dfs ->
  JS.truthy (JS.lookup "transcript" dfs) = true ->
  find (has_external_id (JStr (callId event))) (voice_calls (tables w)) = Some call ->
  let w' := snd (handleCallEnded getCall JSON_stringify event w) in
  reasoning_requests w' = (reasoning_requests w ++ [JS.lookup "transcript" dfs])%list /\
  In (Error, "Failed to analyze call transcript") (logs w') /\
  voice_calls (tables w')
  = calls_after_status (callId event) "completed" (ended_data event) (tables w) /\
  activities (tables w')
  = activities_after_status (callId event) "completed" (ended_data event) (tables w).
Proof.
  intros Hfaults Hdata Htruthy Hfind.
  assert (Htruthy' : JS.truthy (transcript (ended_data event)) = true).
  { unfold ended_data. rewrite Hdata. exact Htruthy. }
  destruct (updateCallStatus_completed_run (callId event) (ended_data event)
              (add_log (Info, "Call ended") w) call Hfaults Htruthy' Hfind)
    as (w2 & Hrun & Hrr & Hvc & Hact & Hin & Hgrow).
  cbv zeta. unfold handleCallEnded, handleCallEnded_body. rewrite Hdata.
  rewrite HandlerFacts.try_catch_lift; cbn [JS.get].
  rewrite HandlerFacts.try_catch_log.
  do 4 (rewrite HandlerFacts.try_catch_lift; cbn [JS.get]).
  unfold ended_data in Hrun. rewrite Hdata in Hrun. cbn [analysis_field] in Hrun.
  rewrite (try_catch_returns _ _ _ _ _ _ Hrun).
  match goal with
  | |- context [snd (try_catch ?rest ?h w2)] =>
      destruct (lookup_and_broadcast_keep_data (callId event) "completed"
                  (JObj [("endedAt", timestamp event);
                         ("durationSeconds", JS.lookup "durationSeconds" dfs);
                         ("cost", JS.lookup "cost" dfs)])
                  "Failed to handle call.ended" w2) as ((Ht & Hr) & (l & Hl) & _)
  end.
  rewrite Ht, Hr, Hl, Hrr, Hvc, Hact.
  unfold ended_data at 1. rewrite Hdata. cbn [transcript analysis_field].
  repeat split. apply in_or_app. left. exact Hin.
Qed.

(** Without a transcript, handling call.ended sends nothing to the
    reasoning service. *)
Lemma handleCallEnded_without_transcript event :
  (forall transcript,
      JS.get (data event) "transcript" = inr transcript -> JS.truthy transcript = false) ->
  keeps same_reasoning (handleCallEnded getCall JSON_stringify event).
Proof.
  intros Hnone.
  pose proof same_reasoning_refl as Hrefl. pose proof same_reasoning_trans as Htrans.
  assert (Hlog : forall w e, same_reasoning w (add_log e w)) by reflexivity.
  assert (Hdb : forall w d, same_reasoning w (set_db d w)) by reflexivity.
  assert (Hlookup : forall w l, same_reasoning w (add_lookup l w)) by reflexivity.
  assert (Hemit : forall w e, same_reasoning w (add_emission e w)) by reflexivity.
  unfold handleCallEnded, handleCallEnded_body.
  apply keeps_try_catch; try assumption.
  apply keeps_bind_lift; try assumption. intros durationSeconds _.
  apply keeps_bind; try assumption. intros _.
  apply keeps_bind_lift; try assumption. intros transcript Htranscript.
  apply keeps_bind_lift; try assumption. intros recordingUrl _.
  apply keeps_bind_lift; try assumption. intros cost _.
  apply keeps_bind_lift; try assumption. intros costBreakdown _.
  apply keeps_bind; try assumption.
  - apply updateCallStatus_keeps_without_analysis; try assumption.
    cbn [Voice.transcript]. rewrite (Hnone _ Htranscript). reflexivity.
  - intros _. keeps_auto.
  - intros _. keeps_auto.
Qed.

(** No statement of [updateCallStatus] that reaches the tables writes an
    analysis column. *)
Lemma updateCallStatus_unwritten vapiCallId status d :
  keeps analysis_unwritten (updateCallStatus JSON_stringify vapiCallId status d).
Proof.
  pose proof unwritten_refl as Hrefl. pose proof unwritten_trans as Htrans.
  assert (Hlog : forall w e, analysis_unwritten w (add_log e w))
    by (intros; now apply unwritten_same_tables).
  assert (Hreq : forall w r, analysis_unwritten w (add_reasoning_request r w))
    by (intros; now apply unwritten_same_tables).
  unfold updateCallStatus, analyzeCallTranscript, analyzeCallTranscript_body.
  repeat first
    [ apply db_query_unwritten
    | apply db_queryWithContext_unwritten
    | keeps_step ].
  all: intros t t' r [= <- _]; simpl; split.
  all: try (apply Forall2_same; reflexivity).
  all: apply Forall2_update_where; reflexivity.
Qed.

Lemma handleVapiWebhook_unwritten (req : Request) :
  keeps analysis_unwritten (handleVapiWebhook getCall JSON_stringify req).
Proof.
  assert (Hlog : forall w e, analysis_unwritten w (add_log e w))
    by (intros; now apply unwritten_same_tables).
  assert (Hlookup : forall w l, analysis_unwritten w (add_lookup l w))
    by (intros; now apply unwritten_same_tables).
  assert (Hemit : forall w e, analysis_unwritten w (add_emission e w))
    by (intros; now apply unwritten_same_tables).
  apply handleVapiWebhook_respects; try assumption;
    try apply unwritten_refl; try apply unwritten_trans.
  intros d event.
  apply status_handler_respects; try assumption;
    try apply unwritten_refl; try apply unwritten_trans.
  intros status sd. apply updateCallStatus_unwritten.
Qed.

(** The run of the endpoint on a call.ended event is that of its
    handler. *)
Lemma call_ended_dispatch (req : Request) (event : VapiWebhookEvent) (w : World.t) :
  body req = Some event ->
  type event = JStr "call.ended" ->
  exists w1,
    handleCallEnded getCall JSON_stringify event (add_log (Info, "Received Vapi webhook") w)
    = (inr tt, w1) /\
    snd (handleVapiWebhook getCall JSON_stringify req w) = w1.
Proof.
  intros Hbody Htype.
  unfold handleVapiWebhook. rewrite Hbody.
  unfold try_catch at 1, bind, ret, log at 1, modify at 1; cbn beta iota. rewrite Htype.
  cbn [dispatch is_string String.eqb Ascii.eqb Bool.eqb handler].
  assert (Hunit : forall w0, fst (handleCallEnded getCall JSON_stringify event w0) = inr tt).
  { intros w0. unfold handleCallEnded, try_catch, log, modify.
    destruct (handleCallEnded_body getCall JSON_stringify event w0) as [[e|[]] w2];
      reflexivity. }
  specialize (Hunit (add_log (Info, "Received Vapi webhook") w)).
  destruct (handleCallEnded getCall JSON_stringify event _) as [[e|[]] w1];
    [discriminate Hunit|].
  exists w1. split; reflexivity.
Qed.

(** C8 (the code departs from it): handling a webhook never writes a column
    of the transcript analysis, on no run, neither on the voice-call rows
    nor on the activities.  For a call.ended event with a non-empty
    transcript and a row found by its external call id, on a driver that
    does not fail, the analysis is requested once from the reasoning
    service, the attempt to store it fails and is logged, and both tables
    are those of the status update alone.  The other half of the claim
    holds: with an empty or absent transcript no analysis is requested. *)
Theorem call_ended_analysis_is_not_written (req : Request) (w : World.t) :
  analysis_unwritten w (snd (handleVapiWebhook getCall JSON_stringify req w)) /\
  (forall event dfs call,
      body req = Some event ->
      type event = JStr "call.ended" ->
      data event = JObj dfs ->
      JS.truthy (JS.lookup "transcript" dfs) = true ->
      Database.faults (db w) = [] ->
      find (has_external_id (JStr (callId event))) (voice_calls (tables w)) = Some call ->
      reasoning_requests (snd (handleVapiWebhook getCall JSON_stringify req w))
      = (reasoning_requests w ++ [JS.lookup "transcript" dfs])%list /\
      In (Error, "Failed to analyze call transcript")
         (logs (snd (handleVapiWebhook getCall JSON_stringify req w))) /\
      voice_calls (tables (snd (handleVapiWebhook getCall JSON_stringify req w)))
      = calls_after_status (callId event) "completed" (ended_data event) (tables w) /\
      activities (tables (snd (handleVapiWebhook getCall JSON_stringify req w)))
      = activities_after_status (callId event) "completed" (ended_data event) (tables w)) /\
  (forall event,
      body req = Some event ->
      type event = JStr "call.ended" ->
      (forall transcript,
          JS.get (data event) "transcript" = inr transcript -> JS.truthy transcript = false) ->
      reasoning_requests (snd (handleVapiWebhook getCall JSON_stringify req w))
      = reasoning_requests w).
Proof.
  split; [apply handleVapiWebhook_unwritten|]. split.
  - intros event dfs call Hbody Htype Hdata Htruthy Hfaults Hfind.
    destruct (call_ended_dispatch req event w Hbody Htype) as (w1 & Hrun & ->).
    pose proof (handleCallEnded_run event (add_log (Info, "Received Vapi webhook") w)
                  call dfs Hfaults Hdata Htruthy Hfind) as Hw.
    cbv zeta in Hw. rewrite Hrun in Hw. exact Hw.
  - intros event Hbody Htype Hnone.
    destruct (call_ended_dispatch req event w Hbody Htype) as (w1 & Hrun & ->).
    pose proof (handleCallEnded_without_transcript event Hnone
                  (add_log (Info, "Received Vapi webhook") w)) as Hw.
    rewrite Hrun in Hw. exact Hw.
Qed.

End Analysis.

(** The sample call after a call.ended event with a transcript, whatever
    the lookup does: the status is stored on both rows, the analysis was
    requested, and nothing of it is on the rows. *)
Lemma call_ended_analysis_is_not_written_witness :
  let req := Samples.unsigned_request (Samples.ended_event (JStr "Hello. Goodbye.")) in
  let w := Samples.world None [] in
  let w' := snd (handleVapiWebhook missing_getCall Samples.stringify req w) in
  reasoning_requests w' = [JStr "Hello. Goodbye."] /\
  In (Error, "Failed to analyze call transcript") (logs w') /\
  voice_calls (tables w')
  = calls_after_status "vapi-1" "completed"
      (ended_data (Samples.ended_event (JStr "Hello. Goodbye."))) (tables w) /\
  activities (tables w')
  = activities_after_status "vapi-1" "completed"
      (ended_data (Samples.ended_event (JStr "Hello. Goodbye."))) (tables w).
Proof.
  exact (proj1 (proj2 (call_ended_analysis_is_not_written missing_getCall Samples.stringify
                         (Samples.unsigned_request (Samples.ended_event (JStr "Hello. Goodbye.")))
                         (Samples.world None [])))
           (Samples.ended_event (JStr "Hello. Goodbye.")) _ Samples.call1
           eq_refl eq_refl eq_refl eq_refl eq_refl eq_refl).
Defined.

Example analysis_does_not_reach_the_rows :
  let w' := snd (handleVapiWebhook missing_getCall Samples.stringify
                   (Samples.unsigned_request (Samples.ended_event (JStr "Hello. Goodbye.")))
                   (Samples.world None [])) in
  Samples.analysis1 <> JUndefined /\
  map (fun c => (VoiceCall.id c, VoiceCall.status c, VoiceCall.sentimentOverall c,
                 VoiceCall.callOutcome c))
    (voice_calls (tables w'))
  = [("call-1", JStr "completed", JNull, JNull)] /\
  map (fun a => (Activity.id a, Activity.callStatus a, Activity.sentiment a,
                 Activity.aiSummary a))
    (activities (tables w'))
  = [("act-1", JStr "completed", JNull, JNull)] /\
  reasoning_requests w' = [JStr "Hello. Goodbye."] /\
  map (fun c => match fst c with
                | Database.PoolQuery s | Database.Query s => Some (text s)
                | _ => None
                end)
    (Database.sent (db w'))
  = [Some UPDATE_VOICE_CALL_STATUS; None; None; None; None;
     Some UPDATE_ACTIVITY_CALL_STATUS].
Proof. vm_compute. intuition discriminate. Qed.

(** A failing reasoning service is swallowed as well: the status update
    still goes through. *)
Example analysis_failure_is_swallowed :
  let w := World.mk (db (Samples.world None [])) None [] [] "2024-05-01T10:03:01Z" [] []
             (fun _ => inl (JsError "timeout")) [] (fun _ => inr tt) in
  let run := updateCallStatus Samples.stringify "vapi-1" "completed"
               (ended_data (Samples.ended_event (JStr "Hello. Goodbye."))) w in
  fst run = inr tt /\
  map (fun c => (VoiceCall.status c, VoiceCall.sentimentOverall c))
    (voice_calls (tables (snd run))) = [(JStr "completed", JNull)] /\
  In (Error, "Failed to analyze call transcript") (logs (snd run)).
Proof. vm_compute. intuition. Qed.

End AnalysisFacts.



(** ** The frame of a status update *)

Module StatusUpdateFacts.
Import Store World Voice FrameFacts.

Lemma frame_refl status d r : status_update_frame status d r r.
Proof. repeat split. Qed.

Lemma frame_trans status d a b c :
  status_update_frame status d a b -> status_update_frame status d b c ->
  status_update_frame status d a c.
Proof.
  unfold status_update_frame, unsupplied_retained, untouched_columns.
  intros (U1 & T1 & A1) (U2 & T2 & A2).
  repeat split; try (intros H; etransitivity; [apply U2|apply U1]; exact H);
    try (etransitivity; [apply T2|apply T1]).
  intros H. rewrite (A2 H). apply A1, H.
Qed.

Lemma calls_framed_refl status d w : calls_framed status d w w.
Proof. intros H. split; [exact H|]. apply Forall2_same, frame_refl. Qed.

Lemma calls_framed_trans status d a b c :
  calls_framed status d a b -> calls_framed status d b c -> calls_framed status d a c.
Proof.
  intros Hab Hbc Ha. destruct (Hab Ha) as (Hb & Fab). destruct (Hbc Hb) as (Hc & Fbc).
  split; [exact Hc|]. eapply Forall2_chain; eauto using frame_trans.
Qed.

Lemma coalesce_unsupplied old : coalesce (JS.or JUndefined JNull) old = old.
Proof. reflexivity. Qed.

(** The COALESCE update keeps every field that is not supplied. *)
Lemma frame_of_status_update vapiCallId status d now r :
  status_update_frame status d r
    (set_call_status (call_status_params vapiCallId status d) now r).
Proof.
  unfold status_update_frame, unsupplied_retained, untouched_columns,
    call_status_params, param, Sql.param; simpl.
  repeat split; intros ->; reflexivity.
Qed.

Section Frame.

Variable JSON_stringify : JSVal -> JSVal.
Variables (status : string) (d : StatusData).

Lemma framed_db_query s :
  (forall t t' r, exec None s t = inr (t', r) ->
                  Forall2 (status_update_frame status d) (voice_calls t) (voice_calls t')) ->
  keeps (calls_framed status d) (db_query s).
Proof.
  intros Hexec w Hidle. unfold db_query, in_db.
  pose proof (DatabaseFacts.query_outcome exec s (db w)) as [Ht Hs].
  destruct (Database.query exec s (db w)) as [r d']. simpl in *. split.
  - destruct Ht; congruence.
  - unfold tables; simpl. destruct Hs as [->|(r0 & Hs)].
    + apply Forall2_same, frame_refl.
    + eapply Hexec, Hs.
Qed.

Lemma framed_db_queryWithContext org s :
  keeps (calls_framed status d) (db_queryWithContext org s).
Proof.
  intros w Hidle. unfold db_queryWithContext, in_db.
  pose proof (DatabaseFacts.queryWithContext_throws exec org s (db w)) as (_ & Hs & Ht & _).
  destruct (Database.queryWithContext exec org s (db w)) as [r d']. simpl in *. split.
  - exact Ht.
  - unfold tables; simpl. rewrite Hs. apply Forall2_same, frame_refl.
Qed.

Lemma framed_log w e : calls_framed status d w (add_log e w).
Proof. exact (calls_framed_refl status d w). Qed.

Lemma framed_request w r : calls_framed status d w (add_reasoning_request r w).
Proof. exact (calls_framed_refl status d w). Qed.

Lemma analyzeCallTranscript_framed callId transcript organizationId :
  keeps (calls_framed status d)
    (analyzeCallTranscript JSON_stringify callId transcript organizationId).
Proof.
  pose proof (calls_framed_refl status d) as Hrefl.
  pose proof (calls_framed_trans status d) as Htrans.
  pose proof framed_log as Hlog. pose proof framed_request as Hreq.
  unfold analyzeCallTranscript, analyzeCallTranscript_body.
  repeat first
    [ apply framed_db_queryWithContext
    | keeps_step ].
Qed.

Lemma updateCallStatus_keeps_frame vapiCallId :
  keeps (calls_framed status d) (updateCallStatus JSON_stringify vapiCallId status d).
Proof.
  pose proof (calls_framed_refl status d) as Hrefl.
  pose proof (calls_framed_trans status d) as Htrans.
  pose proof framed_log as Hlog.
  unfold updateCallStatus.
  fold (analysis_due status d). destruct (analysis_due status d) eqn:Hdue.
  all: repeat first
    [ apply framed_db_query
    | apply analyzeCallTranscript_framed
    | keeps_step ].
  all: intros t t' r [= <- _]; simpl.
  all: try (apply Forall2_same, frame_refl).
  all: apply Forall2_update_where; [apply frame_refl|]; intros x;
    apply frame_of_status_update.
Qed.

(** On a run the database accepts, and with no analysis due, the
    voice-call rows after [updateCallStatus] are exactly those of its
    COALESCE update. *)
Lemma updateCallStatus_plain_clean vapiCallId w :
  clean w ->
  analysis_due status d = false ->
  exists w',
    returns (updateCallStatus JSON_stringify vapiCallId status d) w tt w' /\
    voice_calls (tables w')
    = update_where (has_external_id (JStr vapiCallId))
        (set_call_status (call_status_params vapiCallId status d)
           (current_timestamp (tables w)))
        (voice_calls (tables w)).
Proof.
  intros Hclean Hdue.
  set (s1 := mkStmt UPDATE_VOICE_CALL_STATUS (call_status_params vapiCallId status d)).
  set (hit := has_external_id (JStr vapiCallId)).
  set (upd := set_call_status (call_status_params vapiCallId status d)
                (current_timestamp (tables w))).
  set (t1 := mkTables (update_where hit upd (voice_calls (tables w)))
               (activities (tables w)) (current_timestamp (tables w))).
  set (r1 := mkResult (map upd (filter hit (voice_calls (tables w))))
               (List.length (filter hit (voice_calls (tables w))))).
  set (w1 := after_db t1 [(Database.PoolQuery s1, Database.Done)]
               (add_log (Info, "Updating call status") w)).
  assert (Hclean1 : clean w1).
  { unfold w1. apply AnalysisFacts.clean_after_db, AnalysisFacts.clean_add_log, Hclean. }
  assert (Hstart :
            forall k h w',
              returns (k r1) w1 tt w' ->
              returns (try_catch
                         (log Info "Updating call status" ;;
                          updateResult <- db_query s1 ;; k updateResult) h) w tt w').
  { intros k h w' Hk. apply AnalysisFacts.returns_try_catch.
    eapply AnalysisFacts.returns_bind; [apply AnalysisFacts.returns_log|].
    eapply (AnalysisFacts.returns_bind _ _ _ r1 w1); [|exact Hk].
    apply AnalysisFacts.returns_db_query; [apply Hclean|reflexivity]. }
  unfold updateCallStatus. fold (analysis_due status d). rewrite Hdue.
  destruct (filter hit (voice_calls (tables w))) as [|call rest] eqn:Hrows.
  - eexists. split.
    + apply Hstart. unfold r1. cbn [rows]. rewrite ?Hrows. cbn [map].
      apply AnalysisFacts.returns_log.
    + reflexivity.
  - eexists. split.
    + apply Hstart. unfold r1. cbn [rows]. rewrite ?Hrows. cbn [map].
      eapply AnalysisFacts.returns_bind; [apply AnalysisFacts.returns_ret|].
      eapply AnalysisFacts.returns_bind.
      { apply AnalysisFacts.returns_db_query; [apply Hclean1|reflexivity]. }
      apply AnalysisFacts.returns_log.
    + reflexivity.
Qed.

(** C5, as amended: whatever [updateCallStatus] is given and however it
    ends, every voice-call row keeps each optional field that was not
    supplied, and keeps the columns no statement assigns; the analysis
    columns are kept too unless the status is completed and a transcript is
    supplied.  [status] and [updated_at] are free to change: on a run the
    database accepts, with no analysis due, the rows are exactly those of
    the COALESCE update, which sets both on the rows with the given
    external call id. *)
Theorem updateCallStatus_frame (vapiCallId : string) (w : World.t) :
  Database.txn (db w) = Database.Idle ->
  Forall2 (status_update_frame status d)
    (voice_calls (tables w))
    (voice_calls (tables (snd (updateCallStatus JSON_stringify vapiCallId status d w)))) /\
  (Database.faults (db w) = [] ->
   analysis_due status d = false ->
   voice_calls (tables (snd (updateCallStatus JSON_stringify vapiCallId status d w)))
   = update_where (has_external_id (JStr vapiCallId))
       (set_call_status (call_status_params vapiCallId status d)
          (current_timestamp (tables w)))
       (voice_calls (tables w))).
Proof.
  intros Hidle. split.
  - apply (updateCallStatus_keeps_frame vapiCallId w Hidle).
  - intros Hfaults Hdue.
    destruct (updateCallStatus_plain_clean vapiCallId w (conj Hfaults Hidle) Hdue)
      as (w' & Hrun & Hcalls).
    unfold returns in Hrun. rewrite Hrun. exact Hcalls.
Qed.

End Frame.

(** C5, as stated, fails: a status-only update of a known call also sets
    [updated_at], which is neither the status column nor a supplied
    field. *)
Lemma status_update_touches_updated_at :
  ~ (forall JSON_stringify vapiCallId status d w,
        Forall2 (only_status_and_supplied_change d)
          (voice_calls (tables w))
          (voice_calls (tables (snd (updateCallStatus JSON_stringify vapiCallId status d w))))).
Proof.
  intros H.
  specialize (H Samples.stringify "vapi-1" "ringing" no_data (Samples.world None [])).
  vm_compute in H.
  inversion H as [|r r' l l' Hrow Hrest]. subst.
  destruct Hrow as (_ & _ & _ & Hupdated). discriminate Hupdated.
Qed.

Lemma updateCallStatus_frame_witness :
  Database.txn (db (Samples.world None [])) = Database.Idle /\
  Forall2 (status_update_frame "ringing" no_data)
    (voice_calls (tables (Samples.world None [])))
    (voice_calls (tables (snd (updateCallStatus Samples.stringify "vapi-1" "ringing" no_data
                                 (Samples.world None []))))) /\
  voice_calls (tables (snd (updateCallStatus Samples.stringify "vapi-1" "ringing" no_data
                              (Samples.world None []))))
  = update_where (has_external_id (JStr "vapi-1"))
      (set_call_status (call_status_params "vapi-1" "ringing" no_data)
         (current_timestamp (tables (Samples.world None []))))
      (voice_calls (tables (Samples.world None []))).
Proof.
  split; [reflexivity|].
  destruct (updateCallStatus_frame Samples.stringify "ringing" no_data "vapi-1"
              (Samples.world None []) eq_refl) as [Hframe Hexact].
  split; [exact Hframe|]. apply Hexact; reflexivity.
Defined.

(** A status-only update of the sample call: the status and [updated_at]
    change, the transcript stored earlier stays. *)
Example status_only_update :
  let before := Samples.call1 in
  let after := hd before (voice_calls (tables (snd (updateCallStatus Samples.stringify "vapi-1"
                                                     "ringing" no_data
                                                     (Samples.world None []))))) in
  VoiceCall.status after = JStr "ringing" /\
  VoiceCall.transcript after = VoiceCall.transcript before /\
  VoiceCall.answeredAt after = VoiceCall.answeredAt before /\
  VoiceCall.updatedAt after = JDate (JStr "2024-05-01T10:03:00Z") /\
  VoiceCall.updatedAt before = JDate (JStr "2024-05-01T10:00:05Z").
Proof. vm_compute. intuition. Qed.

(** A supplied value that is falsy (a duration of 0, an empty transcript)
    reaches the database as NULL and is treated as not supplied. *)
Example falsy_values_do_not_overwrite :
  let d := mkStatusData JUndefined JUndefined (JNum (0 # 1)) (JStr "") JUndefined JUndefined
             JUndefined in
  let after := hd Samples.call1
                 (voice_calls (tables (snd (updateCallStatus Samples.stringify "vapi-1"
                                              "completed" d (Samples.world None []))))) in
  VoiceCall.transcript after = JStr "Hi, this is Ann." /\
  VoiceCall.durationSeconds after = JNull.
Proof. vm_compute. intuition. Qed.

End StatusUpdateFacts.

(** * Further properties of the code *)

(** ** Configuration and the signature gate *)

Module GateFacts.
Import Store World Voice Config.

Section Gate.

Variable body_json : VapiWebhookEvent -> string.
Variable hmac_sha256_hex : string -> string -> string.

(** A request is properly signed: it has a body and a non-empty signature
    header equal to the keyed hash of that body. *)
Lemma signed_request_passes_through (webhookSecret : string) (req : Request) (w : World.t)
  (event : VapiWebhookEvent) (sig : string) :
  webhookSecret <> "" ->
  body req = Some event ->
  signature req = Some sig ->
  sig <> "" ->
  sig = hmac_sha256_hex webhookSecret (body_json event) ->
  verifyWebhookMiddleware body_json hmac_sha256_hex webhookSecret req w = (inr Next, w).
Proof.
  intros Hsecret Hbody Hsig Hne Heq.
  unfold verifyWebhookMiddleware.
  rewrite (WebhookFacts.string_eqb_false _ _ Hsecret), Hsig, Hbody.
  assert (Hcheck : verifySignature hmac_sha256_hex (Some (body_json event)) sig
                     webhookSecret w = (inr true, w)).
  { unfold verifySignature, try_catch, bind, lift, timingSafeEqual, ret.
    rewrite <- Heq, Nat.eqb_refl, String.eqb_refl. reflexivity. }
  destruct sig as [|c sig]; [contradiction|].
  cbn [option_map]. unfold bind at 1. rewrite Hcheck. reflexivity.
Qed.

(** X1: with a secret configured the middleware never throws, and it calls
    next() exactly for the requests whose non-empty signature header is the
    HMAC of their body; a signature of another length, which makes
    [timingSafeEqual] throw, is refused like any wrong one. *)
Theorem middleware_passes_exactly_signed (webhookSecret : string) (req : Request)
  (w : World.t) :
  webhookSecret <> "" ->
  (exists passed w',
      verifyWebhookMiddleware body_json hmac_sha256_hex webhookSecret req w
      = (inr passed, w')) /\
  (fst (verifyWebhookMiddleware body_json hmac_sha256_hex webhookSecret req w) = inr Next
   <->
   exists event sig,
     body req = Some event /\ signature req = Some sig /\ sig <> "" /\
     sig = hmac_sha256_hex webhookSecret (body_json event)).
Proof.
  intros Hsecret. split; [|split].
  - unfold verifyWebhookMiddleware.
    rewrite (WebhookFacts.string_eqb_false _ _ Hsecret).
    destruct (signature req) as [[|c sig]|].
    + unfold bind, log, modify, ret; simpl; eauto.
    + unfold bind at 1.
      destruct (WebhookFacts.verifySignature_total hmac_sha256_hex
                  (option_map body_json (body req)) (String c sig) webhookSecret w)
        as (ok & w' & ->).
      destruct ok; unfold bind, log, modify, ret; simpl; eauto.
    + unfold bind, log, modify, ret; simpl; eauto.
  - intros Hnext.
    destruct (body req) as [event|] eqn:Hbody.
    + destruct (signature req) as [sig|] eqn:Hsig.
      * destruct (string_dec sig "") as [->|Hne].
        -- exfalso. revert Hnext. unfold verifyWebhookMiddleware.
           rewrite (WebhookFacts.string_eqb_false _ _ Hsecret), Hsig.
           unfold bind, log, modify, ret; simpl. discriminate.
        -- destruct (string_dec sig (hmac_sha256_hex webhookSecret (body_json event)))
             as [Heq|Hdiff]; [eauto 6|].
           exfalso.
           destruct (WebhookFacts.middleware_rejects body_json hmac_sha256_hex
                       webhookSecret req w Hsecret) as (res & w' & Hrun & _).
           { intros (e & Hb & Hs). rewrite Hbody in Hb. injection Hb as <-.
             rewrite Hsig in Hs. injection Hs as Hs. contradiction. }
           rewrite Hrun in Hnext. discriminate.
      * exfalso.
        destruct (WebhookFacts.middleware_rejects body_json hmac_sha256_hex
                    webhookSecret req w Hsecret) as (res & w' & Hrun & _).
        { intros (e & Hb & Hs). congruence. }
        rewrite Hrun in Hnext. discriminate.
    + exfalso.
      destruct (WebhookFacts.middleware_rejects body_json hmac_sha256_hex
                  webhookSecret req w Hsecret) as (res & w' & Hrun & _).
      { intros (e & Hb & Hs). congruence. }
      rewrite Hrun in Hnext. discriminate.
  - intros (event & sig & Hbody & Hsig & Hne & Heq).
    rewrite (signed_request_passes_through webhookSecret req w event sig); auto.
Qed.

(** X2: when VAPI_WEBHOOK_SECRET is absent from the environment, or empty, the
    configuration yields the empty secret and the middleware lets every
    request through, whatever its signature header. *)
Theorem unset_secret_disables_verification (env : string -> option string)
  (req : Request) (w : World.t) :
  env "VAPI_WEBHOOK_SECRET" = None \/ env "VAPI_WEBHOOK_SECRET" = Some "" ->
  exists secret,
    vapiWebhookSecret env = inr secret /\
    fst (verifyWebhookMiddleware body_json hmac_sha256_hex secret req w) = inr Next.
Proof.
  intros Hunset. exists "". split.
  - unfold vapiWebhookSecret, getEnv. destruct Hunset as [-> | ->]; reflexivity.
  - reflexivity.
Qed.

End Gate.

Lemma middleware_passes_exactly_signed_witness :
  "s3cret" <> "" /\
  fst (verifyWebhookMiddleware Samples.body_text Samples.toy_hmac "s3cret"
         (mkRequest (Some (Samples.toy_hmac "s3cret"
                             (Samples.body_text (Samples.started_event "vapi-1"))))
            (Some (Samples.started_event "vapi-1")))
         (Samples.world None [])) = inr Next.
Proof.
  split; [discriminate|].
  apply (middleware_passes_exactly_signed Samples.body_text Samples.toy_hmac "s3cret"
           (mkRequest (Some (Samples.toy_hmac "s3cret"
                               (Samples.body_text (Samples.started_event "vapi-1"))))
              (Some (Samples.started_event "vapi-1")))
           (Samples.world None [])).
  - discriminate.
  - exists (Samples.started_event "vapi-1"),
      (Samples.toy_hmac "s3cret" (Samples.body_text (Samples.started_event "vapi-1"))).
    repeat split; discriminate.
Defined.

Lemma unset_secret_disables_verification_witness :
  exists secret,
    vapiWebhookSecret (fun _ => None) = inr secret /\
    fst (verifyWebhookMiddleware Samples.body_text Samples.toy_hmac secret
           Samples.tampered_request (Samples.world None [])) = inr Next.
Proof.
  apply (unset_secret_disables_verification Samples.body_text Samples.toy_hmac
           (fun _ => None) Samples.tampered_request (Samples.world None [])).
  left. reflexivity.
Defined.

End GateFacts.

(** ** The first message of a call *)

Module FirstMessageFacts.
Import FirstMessage.

Lemma split_on_nonempty (sep : ascii) (s : string) : split_on sep s <> [].
Proof.
  destruct s as [|c rest]; simpl; [discriminate|].
  destruct (Ascii.eqb c sep); [discriminate|].
  destruct (split_on sep rest); discriminate.
Qed.

(** Splitting at a separator is undone by joining with it. *)
Lemma split_on_join (sep : ascii) (s : string) :
  ListQuery.join (String sep "") (split_on sep s) = s.
Proof.
  induction s as [|c rest IH]; [reflexivity|].
  simpl split_on. pose proof (split_on_nonempty sep rest) as Hne.
  destruct (split_on sep rest) as [|h t]; [contradiction|].
  destruct (Ascii.eqb_spec c sep) as [->|Hdiff].
  - change (ListQuery.join (String sep "") ("" :: h :: t))
      with ("" ++ String sep "" ++ ListQuery.join (String sep "") (h :: t)).
    rewrite IH. reflexivity.
  - destruct t as [|h' t'].
    + simpl in *. subst. reflexivity.
    + change (ListQuery.join (String sep "") (String c h :: h' :: t'))
        with (String c (h ++ String sep "" ++ ListQuery.join (String sep "") (h' :: t'))).
      change (ListQuery.join (String sep "") (h :: h' :: t'))
        with (h ++ String sep "" ++ ListQuery.join (String sep "") (h' :: t')) in IH.
      rewrite IH. reflexivity.
Qed.

Lemma find_first {A} (p : A -> bool) (l : list A) (x : A) :
  find p l = Some x ->
  exists before after,
    l = (before ++ x :: after)%list /\ p x = true /\
    forall y, In y before -> p y = false.
Proof.
  induction l as [|a l IH]; simpl; [discriminate|].
  destruct (p a) eqn:Hp.
  - intros [= ->]. exists [], l. repeat split; auto. intros y [].
  - intros Hfind. destruct (IH Hfind) as (before & after & -> & Hx & Hbefore).
    exists (a :: before), after. repeat split; auto.
    intros y [<-|Hy]; auto.
Qed.

Section Extract.

Variable trim : string -> string.
Variable toLowerCase : string -> string.

Lemma script_line_kept (script line : string) :
  In line (script_lines trim script) ->
  In line (split_on line_feed script) /\ trim line <> "".
Proof.
  unfold script_lines. rewrite filter_In. intros [Hin Hkeep]. split; [exact Hin|].
  intros Hempty. rewrite Hempty in Hkeep. discriminate.
Qed.

(** X3: [extractFirstMessage] answers "Hello!" exactly when no line of the
    script is left after trimming; otherwise it answers the trimmed text of
    a line of the script: the first line holding one of the four greetings
    or, when no line holds one, the first line.  The answer is never
    empty. *)
Theorem extractFirstMessage_first_greeting (script : string) :
  extractFirstMessage trim toLowerCase script <> "" /\
  ((script_lines trim script = [] /\
    extractFirstMessage trim toLowerCase script = "Hello!") \/
   (exists before line after,
       script_lines trim script = (before ++ line :: after)%list /\
       extractFirstMessage trim toLowerCase script = trim line /\
       In line (split_on line_feed script) /\
       (forall l, In l before -> is_greeting toLowerCase l = false) /\
       (is_greeting toLowerCase line = true \/
        before = [] /\ forall l, In l after -> is_greeting toLowerCase l = false))).
Proof.
  assert (Hchoice :
    (script_lines trim script = [] /\
     extractFirstMessage trim toLowerCase script = "Hello!") \/
    (exists before line after,
        script_lines trim script = (before ++ line :: after)%list /\
        extractFirstMessage trim toLowerCase script = trim line /\
        In line (split_on line_feed script) /\
        (forall l, In l before -> is_greeting toLowerCase l = false) /\
        (is_greeting toLowerCase line = true \/
         before = [] /\ forall l, In l after -> is_greeting toLowerCase l = false))).
  { unfold extractFirstMessage.
    destruct (script_lines trim script) as [|first rest] eqn:Hlines; [left; auto|].
    right.
    destruct (find (is_greeting toLowerCase) (first :: rest)) as [line|] eqn:Hfind.
    - destruct (find_first _ _ _ Hfind) as (before & after & Heq & Hgreets & Hbefore).
      exists before, line, after. repeat split; auto.
      apply (script_line_kept script). rewrite Hlines, Heq.
      apply in_or_app. right. left. reflexivity.
    - exists [], first, rest. repeat split; auto.
      + apply (script_line_kept script). rewrite Hlines. left. reflexivity.
      + intros l [].
      + right. split; [reflexivity|].
        intros l Hl. apply (find_none _ _ Hfind). right. exact Hl. }
  split; [|exact Hchoice].
  destruct Hchoice as [[_ ->]|(before & line & after & Hlines & -> & _)]; [discriminate|].
  apply (script_line_kept script). rewrite Hlines.
  apply in_or_app. right. left. reflexivity.
Qed.

End Extract.

End FirstMessageFacts.

(** ** The Socket.IO singleton *)

Module SocketFacts.
Import Store World WebSocketManager Voice Sockets.

(** X4: the first initialization wins: [getIO] throws until the manager is
    initialized, and after two initializations it still answers the server
    given first; initializing emits nothing. *)
Theorem first_initialization_wins (io1 io2 : nat) (w : World.t) :
  ioInstance w = None ->
  let w2 := snd (initializeWebSocketManager io2 (snd (initializeWebSocketManager io1 w))) in
  (exists e, getIO w = (inl e, w)) /\
  getIO w2 = (inr io1, w2) /\
  emitted w2 = emitted w.
Proof.
  intros Hnull. unfold initializeWebSocketManager, getIO. rewrite Hnull. simpl.
  repeat split. eauto.
Qed.

Lemma first_initialization_wins_witness :
  getIO (snd (initializeWebSocketManager 8
                (snd (initializeWebSocketManager 7 (Samples.world None [])))))
  = (inr 7, snd (initializeWebSocketManager 8
                   (snd (initializeWebSocketManager 7 (Samples.world None []))))).
Proof.
  exact (proj1 (proj2 (first_initialization_wins 7 8 (Samples.world None []) eq_refl))).
Defined.

(** X5: once the manager is initialized, each broadcast function emits its
    event through the registered server to its rooms, in order and with one
    payload for all of them, and touches neither the singleton nor the
    database, the lookups or the remote services. *)
Theorem broadcast_after_initialize_reaches_rooms (b : Broadcast) (w : World.t) (io : nat) :
  ioInstance w = Some io ->
  let w' := snd (broadcast b w) in
  map (fun e => (server e, room e, event e)) (new_emissions w w')
  = map (fun r => (io, r, event_of b)) (rooms_of b) /\
  (forall e1 e2, In e1 (new_emissions w w') -> In e2 (new_emissions w w') ->
                 payload e1 = payload e2) /\
  ioInstance w' = Some io /\
  same_backends w w' /\
  lookups w' = lookups w.
Proof.
  intros Hio.
  assert (Hshape : exists data,
    emitted (snd (broadcast b w))
    = (emitted w ++ map (fun r => mkEmission io r (event_of b) data) (rooms_of b))%list /\
    ioInstance (snd (broadcast b w)) = Some io /\
    same_backends w (snd (broadcast b w)) /\
    lookups (snd (broadcast b w)) = lookups w).
  { destruct b as [o ev d|c ev d|c o tr|c o st md]; simpl;
      unfold broadcastTranscriptUpdate, broadcastCallStatus, broadcastToOrganization,
        broadcastToCall, bind, gets, emit, log, modify, now_iso, lift;
      repeat (rewrite Hio; simpl).
    - eexists; repeat split; reflexivity.
    - eexists; repeat split; reflexivity.
    - destruct (JS.get tr "text") as [e|text]; simpl.
      + rewrite <- app_assoc. eexists; repeat split; try reflexivity; exact Hio.
      + destruct (JS.get text "length") as [e|len]; simpl;
          rewrite <- app_assoc; eexists; repeat split; try reflexivity; exact Hio.
    - rewrite <- app_assoc. eexists; repeat split; try reflexivity; exact Hio. }
  destruct Hshape as (data & Hemitted & Hsame & Hback & Hlook).
  cbv zeta. rewrite (HandlerFacts.new_emissions_more _ _ _ Hemitted).
  repeat split; try assumption; try apply Hback.
  - rewrite map_map. reflexivity.
  - intros e1 e2 H1 H2. apply in_map_iff in H1, H2.
    destruct H1 as (r1 & <- & _), H2 as (r2 & <- & _). reflexivity.
Qed.

Lemma broadcast_after_initialize_reaches_rooms_witness :
  map (fun e => (server e, room e, event e))
    (new_emissions (Samples.world (Some 7) [])
       (snd (broadcast (TranscriptUpdate "vapi-1" "org-1" (JObj [("text", JStr "Hi")]))
               (Samples.world (Some 7) []))))
  = [(7, "call:vapi-1", "call:transcript:update");
     (7, "org:org-1", "call:transcript:update")].
Proof.
  exact (proj1 (broadcast_after_initialize_reaches_rooms
                  (TranscriptUpdate "vapi-1" "org-1" (JObj [("text", JStr "Hi")]))
                  (Samples.world (Some 7) []) 7 eq_refl)).
Defined.

End SocketFacts.

(** ** What handling an event can touch *)

Module EventFacts.
Import Store World WebSocketManager Voice Sockets FrameFacts.

Section Keeps.

Variable R : World.t -> World.t -> Prop.
Hypothesis R_refl : forall w, R w w.
Hypothesis R_trans : forall a b c, R a b -> R b c -> R a c.
Hypothesis R_log : forall w e, R w (add_log e w).

Lemma keeps_bind_ret {A B} (a : A) (k : A -> M World.t B) :
  keeps R (k a) -> keeps R (bind (ret a) k).
Proof. intros H w. exact (H w). Qed.

Variable getCall : Tables -> string -> Exn + option VoiceCall.t.
Variable JSON_stringify : JSVal -> JSVal.

Hypothesis R_lookup : forall w l, R w (add_lookup l w).
Hypothesis R_emit : forall w e, R w (add_emission e w).

(** The four status handlers, given what [updateCallStatus] keeps for the
    status and data each of them passes. *)
Lemma keeps_status_handler (d : Dispatched) event :
  (forall status sd,
      (d = CallEnded \/ (status =? "completed") && JS.truthy (transcript sd) = false) ->
      keeps R (updateCallStatus JSON_stringify (callId event) status sd)) ->
  updates_status (Some d) = true ->
  keeps R (handler getCall JSON_stringify d event).
Proof.
  intros Hupdate Hd.
  destruct d; try discriminate Hd; simpl;
    unfold handleCallStarted, handleCallAnswered, handleCallEnded, handleCallFailed,
      handleCallStarted_body, handleCallAnswered_body, handleCallEnded_body,
      handleCallFailed_body;
    (apply keeps_try_catch; [assumption| |intros; keeps_auto]).
  - apply keeps_bind; [assumption|keeps_auto|intros _].
    apply keeps_bind; [assumption| |intros _; keeps_auto].
    apply Hupdate. right. reflexivity.
  - apply keeps_bind; [assumption|keeps_auto|intros _].
    apply keeps_bind; [assumption| |intros _; keeps_auto].
    apply Hupdate. right. reflexivity.
  - apply keeps_bind; [assumption|apply keeps_lift; assumption|intros durationSeconds].
    apply keeps_bind; [assumption|apply keeps_log; assumption|intros _].
    do 4 (apply keeps_bind; [assumption|apply keeps_lift; assumption|intros ?]).
    apply keeps_bind; [assumption| |intros _; keeps_auto].
    apply Hupdate. left. reflexivity.
  - apply keeps_bind; [assumption|keeps_auto|intros reason].
    apply keeps_bind; [assumption|keeps_auto|intros _].
    apply keeps_bind; [assumption| |intros _; keeps_auto].
    apply Hupdate. right. destruct (is_string reason "no-answer"); reflexivity.
Qed.

(** The endpoint keeps what the handler of the request's event keeps. *)
Lemma keeps_webhook_route body_json hmac_sha256_hex webhookSecret req :
  (forall event d,
      body req = Some event -> dispatch (type event) = Some d ->
      keeps R (handler getCall JSON_stringify d event)) ->
  keeps R (webhook_route getCall JSON_stringify body_json hmac_sha256_hex webhookSecret req).
Proof.
  intros Hhandler. unfold webhook_route.
  apply keeps_bind;
    [assumption|apply verifyWebhookMiddleware_respects; assumption|intros [|res]];
    [|keeps_auto].
  unfold handleVapiWebhook.
  apply keeps_try_catch; [assumption| |intros; keeps_auto].
  destruct (body req) as [event|] eqn:Hbody; [|keeps_auto].
  apply keeps_bind_ret.
  apply keeps_bind; [assumption|keeps_auto|intros _].
  apply keeps_bind; [assumption| |intros _; keeps_auto].
  destruct (dispatch (type event)) as [d|] eqn:Hd; [|keeps_auto].
  now apply (Hhandler event d).
Qed.

End Keeps.

Lemma same_backends_refl w : same_backends w w.
Proof. repeat split. Qed.

Lemma same_backends_trans a b c : same_backends a b -> same_backends b c -> same_backends a c.
Proof. unfold same_backends. intuition congruence. Qed.

Section Endpoint.

Variable getCall : Tables -> string -> Exn + option VoiceCall.t.
Variable JSON_stringify : JSVal -> JSVal.
Variable body_json : VapiWebhookEvent -> string.
Variable hmac_sha256_hex : string -> string -> string.

(** X6: whatever the request, the webhook endpoint sends no cancellation to the
    voice platform; unless the event is call.ended it sends nothing to the
    reasoning service; and unless the event is one of the four that update
    a status (so for transcript.updated, function.called, an unknown type
    or a missing body) it leaves the database as it is. *)
Theorem webhook_effects_by_event_type (webhookSecret : string) (req : Request)
  (w : World.t) :
  let w' := snd (webhook_route getCall JSON_stringify body_json hmac_sha256_hex
                   webhookSecret req w) in
  same_platform w w' /\
  ((forall event, body req = Some event -> dispatch (type event) <> Some CallEnded) ->
   same_reasoning w w') /\
  ((forall event, body req = Some event -> updates_status (dispatch (type event)) = false) ->
   same_backends w w').
Proof.
  cbv zeta. split; [|split].
  - pose proof same_platform_refl as Hrefl. pose proof same_platform_trans as Htrans.
    assert (Hlog : forall w e, same_platform w (add_log e w)) by reflexivity.
    assert (Hdb : forall w d, same_platform w (set_db d w)) by reflexivity.
    assert (Hlookup : forall w l, same_platform w (add_lookup l w)) by reflexivity.
    assert (Hemit : forall w e, same_platform w (add_emission e w)) by reflexivity.
    assert (Hreq : forall w r, same_platform w (add_reasoning_request r w)) by reflexivity.
    apply keeps_webhook_route; try assumption.
    intros event d _ _.
    destruct (updates_status (Some d)) eqn:Hd.
    + apply keeps_status_handler; try assumption.
      intros status sd _. apply updateCallStatus_keeps; assumption.
    + destruct d; try discriminate Hd; simpl.
      * apply handleFunctionCalled_respects; assumption.
      * apply handleTranscriptUpdated_respects; assumption.
  - intros Hnot_ended.
    pose proof same_reasoning_refl as Hrefl. pose proof same_reasoning_trans as Htrans.
    assert (Hlog : forall w e, same_reasoning w (add_log e w)) by reflexivity.
    assert (Hdb : forall w d, same_reasoning w (set_db d w)) by reflexivity.
    assert (Hlookup : forall w l, same_reasoning w (add_lookup l w)) by reflexivity.
    assert (Hemit : forall w e, same_reasoning w (add_emission e w)) by reflexivity.
    apply keeps_webhook_route; try assumption.
    intros event d Hbody Hdispatch.
    destruct (updates_status (Some d)) eqn:Hd.
    + apply keeps_status_handler; try assumption.
      intros status sd [->|Hplain].
      * exfalso. exact (Hnot_ended event Hbody Hdispatch).
      * apply updateCallStatus_keeps_without_analysis; assumption.
    + destruct d; try discriminate Hd; simpl.
      * apply handleFunctionCalled_respects; assumption.
      * apply handleTranscriptUpdated_respects; assumption.
  - intros Hreads.
    pose proof same_backends_refl as Hrefl. pose proof same_backends_trans as Htrans.
    assert (Hlog : forall w e, same_backends w (add_log e w)) by (intros; repeat split).
    assert (Hlookup : forall w l, same_backends w (add_lookup l w)) by (intros; repeat split).
    assert (Hemit : forall w e, same_backends w (add_emission e w)) by (intros; repeat split).
    apply keeps_webhook_route; try assumption.
    intros event d Hbody Hdispatch.
    specialize (Hreads event Hbody). rewrite Hdispatch in Hreads.
    destruct d; try discriminate Hreads; simpl.
    + apply handleFunctionCalled_respects; assumption.
    + apply handleTranscriptUpdated_respects; assumption.
Qed.

Lemma only_logged_refl w : only_logged w w.
Proof. exists []. destruct w; simpl. rewrite app_nil_r. reflexivity. Qed.

Lemma only_logged_log w w' e : only_logged w w' -> only_logged w (add_log e w').
Proof.
  intros (entries & ->). exists (entries ++ [e])%list.
  unfold add_log; simpl. rewrite app_assoc. reflexivity.
Qed.

(** X7: a request whose event is function.called or of a type the switch does
    not know, or which has no body at all, is answered 200 and leaves
    nothing behind but log entries: no statement is sent, nothing is
    emitted, no call is looked up. *)
Theorem unhandled_requests_only_logged (req : Request) (w : World.t) :
  (forall event, body req = Some event ->
                 dispatch (type event) = None \/
                 dispatch (type event) = Some FunctionCalled) ->
  exists res,
    fst (handleVapiWebhook getCall JSON_stringify req w) = inr res /\
    status res = 200 /\
    only_logged w (snd (handleVapiWebhook getCall JSON_stringify req w)).
Proof.
  intros Hunhandled. unfold handleVapiWebhook.
  destruct (body req) as [event|].
  - unfold try_catch, bind, ret, log, modify; cbn beta iota.
    destruct (Hunhandled event eq_refl) as [-> | ->]; cbn [handler].
    + eexists. repeat split.
      apply only_logged_log, only_logged_log, only_logged_refl.
    + destruct (HandlerFacts.handleFunctionCalled_only_logs event
                  (add_log (Info, "Received Vapi webhook") w)) as (entries & ->).
      eexists. repeat split. cbn [snd].
      exists ((Info, "Received Vapi webhook") :: entries). simpl.
      rewrite <- app_assoc. reflexivity.
  - unfold try_catch, bind, throw, ret, log, modify; cbn beta iota.
    eexists. repeat split. apply only_logged_log, only_logged_refl.
Qed.

End Endpoint.

Lemma webhook_effects_by_event_type_witness :
  same_backends (Samples.world (Some 7) [])
    (snd (webhook_route missing_getCall Samples.stringify Samples.body_text
            Samples.toy_hmac "" (Samples.unsigned_request MoreSamples.transcript_event)
            (Samples.world (Some 7) []))).
Proof.
  apply (webhook_effects_by_event_type missing_getCall Samples.stringify Samples.body_text
           Samples.toy_hmac "" (Samples.unsigned_request MoreSamples.transcript_event)
           (Samples.world (Some 7) [])).
  intros event [= <-]. reflexivity.
Defined.

Lemma unhandled_requests_only_logged_witness :
  exists res,
    fst (handleVapiWebhook missing_getCall Samples.stringify
           (Samples.unsigned_request MoreSamples.unknown_event) (Samples.world (Some 7) []))
    = inr res /\
    status res = 200 /\
    only_logged (Samples.world (Some 7) [])
      (snd (handleVapiWebhook missing_getCall Samples.stringify
              (Samples.unsigned_request MoreSamples.unknown_event)
              (Samples.world (Some 7) []))).
Proof.
  apply (unhandled_requests_only_logged missing_getCall Samples.stringify
           (Samples.unsigned_request MoreSamples.unknown_event) (Samples.world (Some 7) [])).
  intros event [= <-]. left. reflexivity.
Defined.

End EventFacts.

(** ** Status updates from the webhook *)

Module StatusFacts.
Import Store World WebSocketManager Voice Sockets Statuses FrameFacts.

Section Status.

Variable JSON_stringify : JSVal -> JSVal.

(** A status update with no analysis due, on a database that accepts the
    statements: it returns, and leaves the rows of both UPDATEs. *)
Lemma updateCallStatus_plain_run vapiCallId status d w :
  clean w ->
  analysis_due status d = false ->
  exists w',
    returns (updateCallStatus JSON_stringify vapiCallId status d) w tt w' /\
    clean w' /\
    only_db_and_log w w' /\
    voice_calls (tables w') = calls_after_status vapiCallId status d (tables w) /\
    activities (tables w') = activities_after_status vapiCallId status d (tables w) /\
    current_timestamp (tables w') = current_timestamp (tables w).
Proof.
  intros Hclean Hdue.
  set (s1 := mkStmt UPDATE_VOICE_CALL_STATUS (call_status_params vapiCallId status d)).
  set (hit := has_external_id (JStr vapiCallId)).
  set (upd := set_call_status (call_status_params vapiCallId status d)
                (current_timestamp (tables w))).
  set (t1 := mkTables (update_where hit upd (voice_calls (tables w)))
               (activities (tables w)) (current_timestamp (tables w))).
  set (r1 := mkResult (map upd (filter hit (voice_calls (tables w))))
               (List.length (filter hit (voice_calls (tables w))))).
  set (w1 := after_db t1 [(Database.PoolQuery s1, Database.Done)]
               (add_log (Info, "Updating call status") w)).
  assert (Hclean1 : clean w1).
  { unfold w1. apply AnalysisFacts.clean_after_db, AnalysisFacts.clean_add_log, Hclean. }
  assert (Hstart :
            forall k h w',
              returns (k r1) w1 tt w' ->
              returns (try_catch
                         (log Info "Updating call status" ;;
                          updateResult <- db_query s1 ;; k updateResult) h) w tt w').
  { intros k h w' Hk. apply AnalysisFacts.returns_try_catch.
    eapply AnalysisFacts.returns_bind; [apply AnalysisFacts.returns_log|].
    eapply (AnalysisFacts.returns_bind _ _ _ r1 w1); [|exact Hk].
    apply AnalysisFacts.returns_db_query; [apply Hclean|reflexivity]. }
  unfold updateCallStatus. fold (analysis_due status d). rewrite Hdue.
  unfold activities_after_status, calls_after_status. fold hit.
  destruct (filter hit (voice_calls (tables w))) as [|call rest] eqn:Hrows.
  - eexists. split.
    + apply Hstart. unfold r1. cbn [rows]. rewrite ?Hrows. cbn [map].
      apply AnalysisFacts.returns_log.
    + split; [exact Hclean1|]. repeat split.
  - eexists. split.
    + apply Hstart. unfold r1. cbn [rows]. rewrite ?Hrows. cbn [map].
      eapply AnalysisFacts.returns_bind; [apply AnalysisFacts.returns_ret|].
      eapply AnalysisFacts.returns_bind.
      { apply AnalysisFacts.returns_db_query; [apply Hclean1|reflexivity]. }
      apply AnalysisFacts.returns_log.
    + split; [apply AnalysisFacts.clean_add_log, AnalysisFacts.clean_after_db, Hclean1|].
      repeat split.
Qed.

(** Any status update, on a database that accepts the statements: it
    returns and leaves the rows of both UPDATEs, whether or not the
    transcript was sent for analysis. *)
Lemma updateCallStatus_stores vapiCallId status d w :
  clean w ->
  exists w',
    returns (updateCallStatus JSON_stringify vapiCallId status d) w tt w' /\
    voice_calls (tables w') = calls_after_status vapiCallId status d (tables w) /\
    activities (tables w') = activities_after_status vapiCallId status d (tables w).
Proof.
  intros Hclean.
  destruct (analysis_due status d) eqn:Hdue.
  - unfold analysis_due in Hdue. apply andb_true_iff in Hdue. destruct Hdue as [Hs Ht].
    apply String.eqb_eq in Hs. subst status.
    destruct (find (has_external_id (JStr vapiCallId)) (voice_calls (tables w)))
      as [call|] eqn:Hfind.
    + destruct (AnalysisFacts.updateCallStatus_completed_run JSON_stringify vapiCallId d w
                  call (proj1 Hclean) Ht Hfind) as (w' & Hrun & _ & Hc & Ha & _).
      exists w'. repeat split; assumption.
    + assert (Hnone : forall c, In c (voice_calls (tables w)) ->
                                has_external_id (JStr vapiCallId) c = false).
      { intros x Hx. exact (find_none _ _ Hfind x Hx). }
      clear Hfind. destruct Hclean as [Hf Hi].
      destruct w as [[st tx le se fs] io em lg nw lk rr rp pc pp].
      unfold tables in *. simpl in *. subst fs tx.
      unfold returns, calls_after_status, activities_after_status, updateCallStatus,
        try_catch, bind, log, modify, db_query, in_db,
        Database.query, Database.driver_call, Database.next_fault. simpl.
      change (param (call_status_params vapiCallId "completed" d) 9) with (JStr vapiCallId).
      rewrite (CallManagerFacts.filter_none _ _ Hnone),
        (CallManagerFacts.update_where_none _ _ _ Hnone). simpl.
      eexists. repeat split.
  - destruct (updateCallStatus_plain_run vapiCallId status d w Hclean Hdue)
      as (w' & Hrun & _ & _ & Hc & Ha & _).
    exists w'. repeat split; assumption.
Qed.

Lemma updateCallStatus_logs_grow vapiCallId status d :
  keeps logs_grow (updateCallStatus JSON_stringify vapiCallId status d).
Proof.
  apply (updateCallStatus_keeps JSON_stringify logs_grow logs_grow_refl logs_grow_trans);
    intros; first [apply logs_grow_log | apply logs_grow_same; reflexivity].
Qed.

(** What follows the update in the four status handlers: the lookup throws,
    and the handler logs that and returns. *)
Lemma stored_then_lookup_fails vapiCallId st sd callId
  (k : option VoiceCall.t -> M World.t unit) msg w0 :
  clean w0 ->
  exists w1,
    voice_calls (tables w1) = calls_after_status vapiCallId st sd (tables w0) /\
    activities (tables w1) = activities_after_status vapiCallId st sd (tables w0) /\
    emitted w1 = emitted w0 /\
    logs_grow w0 w1 /\
    try_catch
      (updateCallStatus JSON_stringify vapiCallId st sd ;;
       call <- callManager_getCall missing_getCall callId ;;
       k call)
      (fun _ => log Error msg) w0 = (inr tt, add_log (Error, msg) w1).
Proof.
  intros Hclean.
  destruct (updateCallStatus_stores vapiCallId st sd w0 Hclean) as (w1 & Hrun & Hc & Ha).
  pose proof (HandlerFacts.updateCallStatus_same_sockets JSON_stringify vapiCallId st sd w0)
    as (_ & Hem & _).
  pose proof (updateCallStatus_logs_grow vapiCallId st sd w0) as Hgrow.
  unfold returns in Hrun. rewrite Hrun in Hem, Hgrow. simpl in Hem, Hgrow.
  exists w1. repeat split; try assumption.
  rewrite (AnalysisFacts.try_catch_returns _ _ _ _ _ _ Hrun). reflexivity.
Qed.

(** X8: The four status events (call.started, call.answered, call.ended,
    call.failed) store their status and announce nothing.  On a database
    that accepts the statements (for call.ended and call.failed, an event
    whose data is an object), the handler returns; the voice-call rows and
    the activities are those of the two UPDATEs of [updateCallStatus] with
    the status and the fields of the event; the lookup of the call that
    follows throws, since the class defines none, so nothing is emitted to
    any room, and the handler logs its failure message. *)
Theorem status_events_are_stored_but_not_announced (d : Dispatched)
  (event : VapiWebhookEvent) (w : World.t) :
  updates_status (Some d) = true ->
  clean w ->
  (d = CallEnded \/ d = CallFailed -> exists fields, data event = JObj fields) ->
  exists w',
    handler missing_getCall JSON_stringify d event w = (inr tt, w') /\
    voice_calls (tables w')
    = calls_after_status (callId event) (stored_status d event) (handler_data d event)
        (tables w) /\
    activities (tables w')
    = activities_after_status (callId event) (stored_status d event) (handler_data d event)
        (tables w) /\
    new_emissions w w' = [] /\
    In (Error, handler_failure d) (new_logs w w').
Proof.
  intros Hd Hclean Hdata.
  assert (Hfinish :
            forall vapiCallId st sd cid k entry,
              exists w',
                try_catch
                  (updateCallStatus JSON_stringify vapiCallId st sd ;;
                   call <- callManager_getCall missing_getCall cid ;;
                   k call)
                  (fun _ => log Error (handler_failure d)) (add_log entry w) = (inr tt, w') /\
                voice_calls (tables w') = calls_after_status vapiCallId st sd (tables w) /\
                activities (tables w')
                = activities_after_status vapiCallId st sd (tables w) /\
                new_emissions w w' = [] /\
                In (Error, handler_failure d) (new_logs w w')).
  { intros vapiCallId st sd cid k entry.
    destruct (stored_then_lookup_fails vapiCallId st sd cid k (handler_failure d)
                (add_log entry w) (AnalysisFacts.clean_add_log _ _ Hclean))
      as (w1 & Hc & Ha & Hem & Hgrow & Hrun).
    exists (add_log (Error, handler_failure d) w1). split; [exact Hrun|].
    split; [exact Hc|]. split; [exact Ha|]. split.
    - apply HandlerFacts.new_emissions_same. exact Hem.
    - apply logged_last_is_new. eapply logs_grow_trans; [apply logs_grow_log|exact Hgrow]. }
  destruct d; try discriminate Hd; cbn [handler stored_status handler_data handler_failure].
  - unfold handleCallStarted, handleCallStarted_body.
    rewrite HandlerFacts.try_catch_log. apply Hfinish.
  - unfold handleCallAnswered, handleCallAnswered_body.
    rewrite HandlerFacts.try_catch_log. apply Hfinish.
  - destruct (Hdata (or_introl eq_refl)) as [fields Hfields].
    unfold handleCallEnded, handleCallEnded_body, ended_data, analysis_field.
    rewrite Hfields. cbn [JS.get].
    rewrite HandlerFacts.try_catch_lift, HandlerFacts.try_catch_log.
    rewrite !HandlerFacts.try_catch_lift. apply Hfinish.
  - destruct (Hdata (or_intror eq_refl)) as [fields Hfields].
    unfold handleCallFailed, handleCallFailed_body, analysis_field.
    rewrite Hfields. cbn [JS.get].
    rewrite HandlerFacts.try_catch_lift, HandlerFacts.try_catch_log.
    apply Hfinish.
Qed.

End Status.

(** A failed call that was not answered: the row takes the status
    no-answer, and no room hears of it. *)
Lemma status_events_are_stored_but_not_announced_witness :
  let w := Samples.world (Some 7) [] in
  let event := MoreSamples.failed_event "no-answer" in
  exists w',
    handler missing_getCall Samples.stringify CallFailed event w = (inr tt, w') /\
    map VoiceCall.status (voice_calls (tables w')) = [JStr "no-answer"] /\
    new_emissions w w' = [] /\
    In (Error, "Failed to handle call.failed") (new_logs w w').
Proof.
  destruct (status_events_are_stored_but_not_announced Samples.stringify CallFailed
              (MoreSamples.failed_event "no-answer") (Samples.world (Some 7) []))
    as (w' & Hrun & Hcalls & _ & Hemitted & Hlogged).
  - reflexivity.
  - split; reflexivity.
  - intros _. eexists. reflexivity.
  - exists w'. split; [exact Hrun|]. split; [|split; assumption].
    rewrite Hcalls. vm_compute. reflexivity.
Defined.

End StatusFacts.

(** ** Status updates that fail *)

Module FailureFacts.
Import Store World WebSocketManager Voice Sockets Statuses FrameFacts.

Lemma try_catch_throws {A B} (m : M World.t A) (k : A -> M World.t B) h w e w1 :
  m w = (inl e, w1) -> try_catch (bind m k) h w = h e w1.
Proof. unfold try_catch, bind. intros ->. reflexivity. Qed.

(** [pool.query] when the driver fails, and when it does not. *)
Lemma db_query_fault s w rest :
  Database.faults (db w) = true :: rest ->
  db_query s w
  = (inl Database.connection_lost,
     set_db (Database.mkDB (tables w) Database.Idle (Database.leased (db w))
               (Database.sent (db w) ++ [(Database.PoolQuery s, Database.Threw)]) rest) w).
Proof.
  intros Hfaults.
  unfold db_query, in_db, Database.query, Database.driver_call, Database.next_fault.
  rewrite Hfaults. reflexivity.
Qed.

Lemma db_query_done s w rest tables' r :
  Database.faults (db w) = false :: rest ->
  exec None s (tables w) = inr (tables', r) ->
  db_query s w
  = (inr r,
     set_db (Database.mkDB tables' (Database.txn (db w)) (Database.leased (db w))
               (Database.sent (db w) ++ [(Database.PoolQuery s, Database.Done)]) rest) w).
Proof.
  intros Hfaults Hexec.
  unfold db_query, in_db, Database.query, Database.driver_call, Database.next_fault.
  rewrite Hfaults. cbn [Database.store Database.txn Database.leased Database.sent].
  unfold tables in Hexec. rewrite Hexec. reflexivity.
Qed.

Section Failure.

Variable getCall : Tables -> string -> Exn + option VoiceCall.t.
Variable JSON_stringify : JSVal -> JSVal.

Lemma updateCallStatus_first_fault vapiCallId status d w rest :
  Database.faults (db w) = true :: rest ->
  exists w',
    updateCallStatus JSON_stringify vapiCallId status d w
    = (inl Database.connection_lost, w') /\
    tables w' = tables w /\ only_db_and_log w w'.
Proof.
  intros Hfaults. unfold updateCallStatus.
  rewrite HandlerFacts.try_catch_log.
  erewrite try_catch_throws by (apply db_query_fault; exact Hfaults).
  eexists. split; [reflexivity|]. repeat split.
Qed.

(** X9: when the first statement of the status update fails, the handler of a
    status event swallows the error: it returns, the tables are as they
    were, and no lookup and no broadcast follow, so the sockets are never
    told of a status that was not stored. *)
Theorem failed_update_is_not_announced (d : Dispatched) (event : VapiWebhookEvent)
  (w : World.t) (rest : list bool) :
  updates_status (Some d) = true ->
  Database.faults (db w) = true :: rest ->
  let run := handler getCall JSON_stringify d event w in
  fst run = inr tt /\
  tables (snd run) = tables w /\
  emitted (snd run) = emitted w /\
  lookups (snd run) = lookups w.
Proof.
  intros Hd Hfaults. cbv zeta.
  assert (Hcore :
    forall vapiCallId st sd (tail : unit -> M World.t unit) msg w0,
      Database.faults (db w0) = true :: rest ->
      exists w',
        try_catch (bind (updateCallStatus JSON_stringify vapiCallId st sd) tail)
          (fun _ => log Error msg) w0 = (inr tt, w') /\
        tables w' = tables w0 /\ emitted w' = emitted w0 /\ lookups w' = lookups w0).
  { intros vapiCallId st sd tail msg w0 Hf.
    destruct (updateCallStatus_first_fault vapiCallId st sd w0 rest Hf)
      as (w1 & Hrun & Htables & Hframe).
    rewrite (try_catch_throws _ _ _ _ _ _ Hrun).
    eexists. split; [reflexivity|].
    destruct Hframe as (_ & Hem & _ & Hlk & _). repeat split; assumption. }
  destruct d; try discriminate Hd; cbn [handler].
  - unfold handleCallStarted, handleCallStarted_body. rewrite HandlerFacts.try_catch_log.
    match goal with
    | |- context [try_catch (bind (updateCallStatus _ ?c ?st ?sd) ?tail) (fun _ => log Error ?msg) ?w0] =>
        destruct (Hcore c st sd tail msg w0 Hfaults) as (w' & Hrun & Hrest)
    end.
    rewrite Hrun. split; [reflexivity|exact Hrest].
  - unfold handleCallAnswered, handleCallAnswered_body. rewrite HandlerFacts.try_catch_log.
    match goal with
    | |- context [try_catch (bind (updateCallStatus _ ?c ?st ?sd) ?tail) (fun _ => log Error ?msg) ?w0] =>
        destruct (Hcore c st sd tail msg w0 Hfaults) as (w' & Hrun & Hrest)
    end.
    rewrite Hrun. split; [reflexivity|exact Hrest].
  - unfold handleCallEnded, handleCallEnded_body. rewrite HandlerFacts.try_catch_lift.
    destruct (JS.get (data event) "durationSeconds") as [e|durationSeconds];
      [repeat split|].
    rewrite HandlerFacts.try_catch_log.
    rewrite HandlerFacts.try_catch_lift.
    destruct (JS.get (data event) "transcript") as [e|transcript]; [repeat split|].
    rewrite HandlerFacts.try_catch_lift.
    destruct (JS.get (data event) "recordingUrl") as [e|recordingUrl]; [repeat split|].
    rewrite HandlerFacts.try_catch_lift.
    destruct (JS.get (data event) "cost") as [e|cost]; [repeat split|].
    rewrite HandlerFacts.try_catch_lift.
    destruct (JS.get (data event) "costBreakdown") as [e|costBreakdown]; [repeat split|].
    match goal with
    | |- context [try_catch (bind (updateCallStatus _ ?c ?st ?sd) ?tail) (fun _ => log Error ?msg) ?w0] =>
        destruct (Hcore c st sd tail msg w0 Hfaults) as (w' & Hrun & Hrest)
    end.
    rewrite Hrun. split; [reflexivity|exact Hrest].
  - unfold handleCallFailed, handleCallFailed_body. rewrite HandlerFacts.try_catch_lift.
    destruct (JS.get (data event) "reason") as [e|reason]; [repeat split|].
    rewrite HandlerFacts.try_catch_log.
    match goal with
    | |- context [try_catch (bind (updateCallStatus _ ?c ?st ?sd) ?tail) (fun _ => log Error ?msg) ?w0] =>
        destruct (Hcore c st sd tail msg w0 Hfaults) as (w' & Hrun & Hrest)
    end.
    rewrite Hrun. split; [reflexivity|exact Hrest].
Qed.

(** X10: the two UPDATEs of [updateCallStatus] are sent one by one on the pool,
    outside any transaction: when the second fails, the call throws and the
    voice-call rows keep the new status while the activities keep the old
    one. *)
Theorem updateCallStatus_is_not_atomic (vapiCallId status : string) (d : StatusData)
  (w : World.t) (call : VoiceCall.t) (rest : list bool) :
  Database.faults (db w) = false :: true :: rest ->
  analysis_due status d = false ->
  find (has_external_id (JStr vapiCallId)) (voice_calls (tables w)) = Some call ->
  let run := updateCallStatus JSON_stringify vapiCallId status d w in
  fst run = inl Database.connection_lost /\
  voice_calls (tables (snd run)) = calls_after_status vapiCallId status d (tables w) /\
  activities (tables (snd run)) = activities (tables w).
Proof.
  intros Hfaults Hdue Hfind. cbv zeta.
  destruct (AnalysisFacts.find_filter _ _ _ Hfind) as (others & Hrows).
  set (s1 := mkStmt UPDATE_VOICE_CALL_STATUS (call_status_params vapiCallId status d)).
  set (hit := has_external_id (JStr vapiCallId)) in *.
  set (upd := set_call_status (call_status_params vapiCallId status d)
                (current_timestamp (tables w))).
  set (t1 := mkTables (update_where hit upd (voice_calls (tables w)))
               (activities (tables w)) (current_timestamp (tables w))).
  set (r1 := mkResult (map upd (filter hit (voice_calls (tables w))))
               (List.length (filter hit (voice_calls (tables w))))).
  unfold updateCallStatus. fold (analysis_due status d). rewrite Hdue. fold s1.
  rewrite HandlerFacts.try_catch_log.
  rewrite (AnalysisFacts.try_catch_returns _ _ _ _ r1 _
             (db_query_done s1 (add_log (Info, "Updating call status") w) (true :: rest)
                t1 r1 Hfaults eq_refl)).
  unfold r1. cbn [rows]. rewrite Hrows. cbn [map].
  erewrite AnalysisFacts.try_catch_returns by apply AnalysisFacts.returns_ret.
  erewrite try_catch_throws by (apply db_query_fault; reflexivity).
  repeat split.
Qed.

End Failure.

Lemma failed_update_is_not_announced_witness :
  let run := handler missing_getCall Samples.stringify CallStarted
               (Samples.started_event "vapi-1") (Samples.world (Some 7) [true]) in
  fst run = inr tt /\
  tables (snd run) = tables (Samples.world (Some 7) [true]) /\
  emitted (snd run) = emitted (Samples.world (Some 7) [true]) /\
  lookups (snd run) = lookups (Samples.world (Some 7) [true]).
Proof.
  apply (failed_update_is_not_announced missing_getCall Samples.stringify CallStarted
           (Samples.started_event "vapi-1") (Samples.world (Some 7) [true]) []);
    reflexivity.
Defined.

Lemma updateCallStatus_is_not_atomic_witness :
  let run := updateCallStatus Samples.stringify "vapi-1" "ringing" no_data
               (Samples.world None [false; true]) in
  fst run = inl Database.connection_lost /\
  voice_calls (tables (snd run))
  = calls_after_status "vapi-1" "ringing" no_data (tables (Samples.world None [false; true])) /\
  activities (tables (snd run)) = activities (tables (Samples.world None [false; true])).
Proof.
  apply (updateCallStatus_is_not_atomic Samples.stringify "vapi-1" "ringing" no_data
           (Samples.world None [false; true]) Samples.call1 []);
    reflexivity.
Defined.

End FailureFacts.

(** ** Transcript analysis that fails *)

Module AnalysisFailureFacts.
Import Store World Voice Sockets Statuses FrameFacts.

Section Failure.

Variable JSON_stringify : JSVal -> JSVal.

(** X11: a completed call with a transcript whose analysis fails (the reasoning
    service throws, or answers undefined or null): the status update is
    not affected.  [updateCallStatus] returns, the rows of both tables are
    those of the two COALESCE updates, and the failure is only logged. *)
Theorem analysis_failure_keeps_status_update (vapiCallId : string) (d : StatusData)
  (w : World.t) (call : VoiceCall.t) :
  clean w ->
  JS.truthy (transcript d) = true ->
  find (has_external_id (JStr vapiCallId)) (voice_calls (tables w)) = Some call ->
  no_analysis (reasoning_reply w (transcript d)) = true ->
  exists w',
    returns (updateCallStatus JSON_stringify vapiCallId "completed" d) w tt w' /\
    reasoning_requests w' = (reasoning_requests w ++ [transcript d])%list /\
    voice_calls (tables w') = calls_after_status vapiCallId "completed" d (tables w) /\
    activities (tables w') = activities_after_status vapiCallId "completed" d (tables w) /\
    In (Error, "Failed to analyze call transcript") (logs w').
Proof.
  intros Hclean Htruthy Hfind _.
  destruct (AnalysisFacts.updateCallStatus_completed_run JSON_stringify vapiCallId d w call
              (proj1 Hclean) Htruthy Hfind) as (w' & Hrun & Hrr & Hc & Ha & Hlog & _).
  exists w'. repeat split; assumption.
Qed.

End Failure.

Lemma analysis_failure_keeps_status_update_witness :
  exists w',
    returns (updateCallStatus Samples.stringify "vapi-1" "completed"
               (ended_data (Samples.ended_event (JStr "Hello. Goodbye."))))
      (World.mk (db (Samples.world None [])) None [] [] "2024-05-01T10:03:01Z" [] []
         (fun _ => inl (JsError "timeout")) [] (fun _ => inr tt)) tt w' /\
    reasoning_requests w' = [JStr "Hello. Goodbye."] /\
    map VoiceCall.status (voice_calls (tables w')) = [JStr "completed"] /\
    map VoiceCall.sentimentOverall (voice_calls (tables w')) = [JNull].
Proof.
  destruct (analysis_failure_keeps_status_update Samples.stringify "vapi-1"
              (ended_data (Samples.ended_event (JStr "Hello. Goodbye.")))
              (World.mk (db (Samples.world None [])) None [] [] "2024-05-01T10:03:01Z" [] []
                 (fun _ => inl (JsError "timeout")) [] (fun _ => inr tt))
              Samples.call1 (conj eq_refl eq_refl) eq_refl eq_refl eq_refl)
    as (w' & Hrun & Hrr & Hcalls & _).
  exists w'. rewrite Hcalls. repeat split; assumption.
Defined.

End AnalysisFailureFacts.

(** ** Cancelling a call through the call manager *)

Module ManagerCancelFacts.
Import Store World Voice Sockets Statuses FrameFacts.

Section Cancel.

Variable JSON_stringify : JSVal -> JSVal.

(** X12: [CallManager.cancelCall] never cancels a call.  Its first step is the
    SELECT of the call through [queryWithContext], which throws at its SET
    LOCAL; the [catch] logs and rethrows.  So on every run the call throws,
    the tables are as they were, the voice platform is not asked to cancel
    anything, no status update follows, and the failure is logged; with no
    driver failure pending, what is thrown is the refusal of the SET
    LOCAL. *)
Theorem managed_cancelCall_always_throws (callId organizationId : string) (w : World.t) :
  let run := cancelCall JSON_stringify callId organizationId w in
  (exists e, fst run = inl e) /\
  tables (snd run) = tables w /\
  platform_cancels (snd run) = platform_cancels w /\
  reasoning_requests (snd run) = reasoning_requests w /\
  emitted (snd run) = emitted w /\
  new_logs w (snd run) = [(Error, "Failed to cancel call")] /\
  (clean w -> fst run = inl Database.set_local_refused).
Proof.
  cbv zeta. unfold cancelCall.
  set (s := mkStmt SELECT_VOICE_CALL_BY_ID [JStr callId]).
  pose proof (DatabaseFacts.queryWithContext_throws exec organizationId s (db w))
    as ((e & He) & Hstore & _).
  assert (Hclean : clean w ->
                   fst (Database.queryWithContext exec organizationId s (db w))
                   = inl Database.set_local_refused).
  { intros [Hf Hi].
    rewrite (DatabaseFacts.queryWithContext_refused exec organizationId s (db w) Hf Hi).
    reflexivity. }
  unfold try_catch, bind, db_queryWithContext, in_db, log, modify, throw.
  destruct (Database.queryWithContext exec organizationId s (db w)) as [[e0|r] d];
    simpl in *; [|discriminate He].
  split; [eauto|]. split; [exact Hstore|]. repeat split.
  - unfold new_logs. simpl. apply DatabaseFacts.skipn_length_app.
  - intros Hc. injection (Hclean Hc) as ->. reflexivity.
Qed.

End Cancel.

(** A call in progress with an external id, on a database with no failure
    pending: the cancellation throws the refusal, the row stays in progress
    and the platform is not asked. *)
Example managed_cancelCall_of_a_running_call :
  let run := cancelCall Samples.stringify "call-1" "org-1" (Samples.world None []) in
  fst run = inl Database.set_local_refused /\
  map VoiceCall.status (voice_calls (tables (snd run))) = [JStr "in-progress"] /\
  platform_cancels (snd run) = [].
Proof. vm_compute. repeat split. Qed.

End ManagerCancelFacts.

(** ** The tenant-scoped helper never answers *)

Module ContextFacts.
Import Database.

(** X15: [queryWithContext] never returns a result.  Its SET LOCAL carries
    the organization as a bind parameter, which the server refuses, so on
    every run the call throws, the committed data is as it was, no
    transaction is left open, and the caller's statement is not sent: the
    driver is asked no query at all.  From an idle connection with no
    driver failure pending, what is thrown is the refusal, and the driver
    was asked exactly for a client, BEGIN, the SET LOCAL (refused) and
    ROLLBACK, and the client was released. *)
Theorem queryWithContext_never_returns {Store Stmt Res : Type}
  (exec : option string -> Stmt -> Store -> Exn + (Store * Res))
  (org : string) (s : Stmt) (db : DB Store Stmt) :
  let run := queryWithContext exec org s db in
  (exists e, fst run = inl e) /\
  store (snd run) = store db /\
  txn (snd run) = Idle /\
  (forall q o, ~ In (Query q, o) (new_calls db (snd run))) /\
  (faults db = [] -> txn db = Idle ->
   fst run = inl set_local_refused /\
   leased (snd run) = leased db /\
   new_calls db (snd run)
   = [(Connect, Done); (Begin, Done); (SetLocalOrg org, Threw); (Rollback, Done)]).
Proof.
  cbv zeta.
  destruct (DatabaseFacts.queryWithContext_throws exec org s db)
    as (Hthrows & Hstore & Htxn & calls & Hsent & Hcalls).
  split; [exact Hthrows|]. split; [exact Hstore|]. split; [exact Htxn|]. split.
  - intros q o Hin. unfold new_calls in Hin. rewrite Hsent in Hin.
    rewrite DatabaseFacts.skipn_length_app in Hin.
    destruct (Hcalls _ _ Hin) as [H|[H|[H|H]]]; discriminate H.
  - intros Hfaults Hidle.
    rewrite (DatabaseFacts.queryWithContext_refused exec org s db Hfaults Hidle).
    unfold new_calls. simpl. rewrite DatabaseFacts.skipn_length_app. repeat split.
Qed.

(** An INSERT that the ledger would accept is not run. *)
Example queryWithContext_runs_no_statement :
  let run := queryWithContext Samples.ledger_exec "org-1" "INSERT second"
               (Samples.ledger []) in
  fst run = inl set_local_refused /\
  Samples.ledger_exec (Some "org-1") "INSERT second" (store (Samples.ledger []))
  <> inr (store (snd run), 1) /\
  store (snd run) = store (Samples.ledger []).
Proof. vm_compute. repeat split. intros H. discriminate H. Qed.

End ContextFacts.


(** ** Health of the service *)

Module HealthFacts.
Import Database Lifecycle Health.

Lemma client_healthCheck_200 reply : client_healthCheck reply = true <-> reply = inr 200.
Proof.
  destruct reply as [e|status]; simpl.
  - split; discriminate.
  - rewrite Nat.eqb_eq. split; [intros ->; reflexivity|intros [= ->]; reflexivity].
Qed.

Lemma is_healthy (v : JSVal) : Voice.is_string v "healthy" = true <-> v = JStr "healthy".
Proof.
  destruct v; simpl; try (split; discriminate).
  rewrite String.eqb_eq. split; [intros ->; reflexivity|intros [= ->]; reflexivity].
Qed.

Lemma graphRAG_healthy_fields reply :
  postgres (graphRAG_healthCheck reply) && neo4j (graphRAG_healthCheck reply)
  && qdrant (graphRAG_healthCheck reply) = true <->
  exists fields,
    reply = inr (JObj fields) /\
    JS.lookup "postgres" fields = JStr "healthy" /\
    JS.lookup "neo4j" fields = JStr "healthy" /\
    JS.lookup "qdrant" fields = JStr "healthy".
Proof.
  split.
  - destruct reply as [e|data]; [discriminate|].
    destruct data; try (simpl; discriminate).
    cbn [graphRAG_healthCheck JS.get postgres neo4j qdrant].
    intros H. apply andb_true_iff in H. destruct H as [H Hq].
    apply andb_true_iff in H. destruct H as [Hp Hn].
    apply is_healthy in Hp, Hn, Hq. eauto 6.
  - intros (fields & -> & Hp & Hn & Hq). simpl. rewrite Hp, Hn, Hq. reflexivity.
Qed.

(** [healthCheckAll] says all is healthy exactly when each of the four
    plain checks got status 200 and the three fields read by the GraphRAG
    check are the string healthy. *)
Lemma allHealthy_iff remote : allHealthy (healthCheckAll remote) = true <-> services_answer remote.
Proof.
  unfold healthCheckAll, services_answer. cbn [allHealthy].
  pose proof (client_healthCheck_200 (orchestration remote)) as Ho.
  pose proof (client_healthCheck_200 (mage remote)) as Hm.
  pose proof (client_healthCheck_200 (geo remote)) as Hg.
  pose proof (client_healthCheck_200 (auth remote)) as Ha.
  pose proof (graphRAG_healthy_fields (graphRAG remote)) as Hr.
  destruct (client_healthCheck (orchestration remote)),
    (client_healthCheck (mage remote)), (client_healthCheck (geo remote)),
    (client_healthCheck (auth remote)),
    (postgres (graphRAG_healthCheck (graphRAG remote))),
    (neo4j (graphRAG_healthCheck (graphRAG remote))),
    (qdrant (graphRAG_healthCheck (graphRAG remote)));
    simpl in *; intuition discriminate.
Qed.

Section Endpoints.

Variables Store Stmt Res : Type.
Variable exec : option string -> Stmt -> Store -> Exn + (Store * Res).
Variable select_health : Stmt.
Variable health_is_one : Res -> bool.
Variable serviceName : string.
Variable now : string.

(** [Database.healthCheck] never throws; it answers true exactly when the
    probe goes through with health 1. *)
Lemma healthCheck_answers (h : Handle Store Stmt) :
  exists b h',
    healthCheck exec select_health health_is_one h = (inr b, h') /\
    (b = true <-> database_answers exec select_health health_is_one h).
Proof.
  destruct h as [[st t n tr fs] c].
  unfold healthCheck, database_answers, try_catch, bind, ret, on_pool, query, driver_call,
    next_fault. simpl.
  destruct fs as [|[] fs]; simpl.
  - destruct (exec None select_health st) as [e|[st' r]] eqn:Hexec; simpl.
    + do 2 eexists. split; [reflexivity|]. split; [discriminate|].
      intros (_ & st' & r & [=] & _).
    + do 2 eexists. split; [reflexivity|]. split.
      * intros H. split; [reflexivity|]. eauto.
      * intros (_ & st2 & r2 & [= <- <-] & H). exact H.
  - do 2 eexists. split; [reflexivity|]. split; [discriminate|].
    intros (Hf & _). discriminate Hf.
  - destruct (exec None select_health st) as [e|[st' r]] eqn:Hexec; simpl.
    + do 2 eexists. split; [reflexivity|]. split; [discriminate|].
      intros (_ & st' & r & [=] & _).
    + do 2 eexists. split; [reflexivity|]. split.
      * intros H. split; [reflexivity|]. eauto.
      * intros (_ & st2 & r2 & [= <- <-] & H). exact H.
Qed.

(** X16: GET /health and GET /health/ready always answer, with 200 or 503.
    /health answers 200 exactly when the database probe goes through with
    health 1 and every remote service reports healthy; /health/ready
    answers 200 exactly when the database probe does, whatever the remote
    services say; the health query of the GraphQL layer says healthy
    exactly when the remote services do, whatever the database says. *)
Theorem health_endpoints (remote : Remote) (h : Handle Store Stmt) :
  (exists res h',
      health exec select_health health_is_one serviceName now remote h = (inr res, h') /\
      (Voice.status res = 200 \/ Voice.status res = 503) /\
      (Voice.status res = 200 <->
       database_answers exec select_health health_is_one h /\ services_answer remote)) /\
  (exists res h',
      ready exec select_health health_is_one h = (inr res, h') /\
      (Voice.status res = 200 \/ Voice.status res = 503) /\
      (Voice.status res = 200 <-> database_answers exec select_health health_is_one h)) /\
  (Voice.analysis_field (query_health now remote) "status" = JStr "healthy" <->
   services_answer remote).
Proof.
  destruct (healthCheck_answers h) as (b & h' & Hrun & Hb).
  pose proof (allHealthy_iff remote) as Hall.
  split; [|split].
  - unfold health, try_catch, bind, ret. rewrite Hrun.
    do 2 eexists. split; [reflexivity|].
    destruct b, (allHealthy (healthCheckAll remote)); simpl;
      (split; [auto|]); split; intuition discriminate.
  - unfold ready, try_catch, bind, ret. rewrite Hrun.
    destruct b; simpl; do 2 eexists;
      (split; [reflexivity|]); (split; [auto|]); split; intuition discriminate.
  - unfold query_health. cbn [Voice.analysis_field JS.lookup String.eqb Ascii.eqb Bool.eqb].
    destruct (allHealthy (healthCheckAll remote)); split; intros H;
      try reflexivity; try discriminate H; intuition discriminate.
Qed.

End Endpoints.

Lemma health_endpoints_witness :
  exists res h',
    health MoreSamples.probe_exec "SELECT 1 as health" (Nat.eqb 1) "nexus-crm"
      "2024-05-01T10:00:00Z" MoreSamples.healthy_remote (MoreSamples.ledger_handle [] true)
    = (inr res, h') /\
    (Voice.status res = 200 \/ Voice.status res = 503) /\
    (Voice.status res = 200 <->
     database_answers MoreSamples.probe_exec "SELECT 1 as health" (Nat.eqb 1)
       (MoreSamples.ledger_handle [] true) /\
     services_answer MoreSamples.healthy_remote).
Proof.
  exact (proj1 (health_endpoints (list string) string nat MoreSamples.probe_exec
                  "SELECT 1 as health" (Nat.eqb 1) "nexus-crm" "2024-05-01T10:00:00Z"
                  MoreSamples.healthy_remote (MoreSamples.ledger_handle [] true))).
Defined.

(** With the database down the readiness probe says 503 while the GraphQL
    health query still says healthy. *)
Example database_down :
  Voice.status (match fst (ready MoreSamples.probe_exec "SELECT 1 as health" (Nat.eqb 1)
                             (MoreSamples.ledger_handle [true] true)) with
                | inr res => res
                | inl _ => Voice.mkResponse 0 JNull
                end) = 503 /\
  query_health "2024-05-01T10:00:00Z" MoreSamples.healthy_remote
  = JObj [("status", JStr "healthy");
          ("services", services_json (healthCheckAll MoreSamples.healthy_remote));
          ("timestamp", JDate (JStr "2024-05-01T10:00:00Z"))].
Proof. split; reflexivity. Qed.

End HealthFacts.

(** ** Connecting to the database *)

Module ConnectFacts.
Import Database Lifecycle.

Section Connect.

Variables Store Stmt Res : Type.
Variable exec : option string -> Stmt -> Store -> Exn + (Store * Res).
Variable select_now : Stmt.
Variable schema_check : Stmt.
Variable no_rows : Res -> bool.

(** X17: [connect] does nothing on a connected handle.  Otherwise it sets the
    flag only when it returns, after the connection test and a schema check
    that found the schema, and then the client it took is back in the pool;
    when it throws the flag stays unset, an empty schema check gives the
    migration error, and a client that was acquired is not released. *)
Theorem connect_outcomes (h : Handle Store Stmt) :
  let run := connect exec select_now schema_check no_rows h in
  (isConnected h = true -> run = (inr tt, h)) /\
  (isConnected h = false ->
   match fst run with
   | inr _ =>
       isConnected (snd run) = true /\
       leased (pool (snd run)) = leased (pool h) /\
       new_calls (pool h) (pool (snd run))
       = [(Connect, Done); (Query select_now, Done); (Query schema_check, Done)]
   | inl e =>
       isConnected (snd run) = false /\
       (In (Connect, Done) (new_calls (pool h) (pool (snd run))) ->
        leased (pool (snd run)) = S (leased (pool h))) /\
       (new_calls (pool h) (pool (snd run))
        = [(Connect, Done); (Query select_now, Done); (Query schema_check, Done)] ->
        e = schema_missing)
   end).
Proof.
  destruct h as [[st t n tr fs] c]. cbv zeta. unfold connect. simpl. split.
  - intros ->. reflexivity.
  - intros ->.
    unfold on_pool, modify. DatabaseFacts.unfold_driver. simpl.
    repeat (simpl; DatabaseFacts.driver_case).
    all: simpl; repeat rewrite <- app_assoc; rewrite ?DatabaseFacts.skipn_length_app; simpl.
    all: try match goal with
             | |- context [no_rows ?r] => destruct (no_rows r) eqn:?; simpl
             end.
    all: repeat rewrite <- app_assoc; rewrite ?DatabaseFacts.skipn_length_app; simpl.
    all: repeat split; try reflexivity; try discriminate; try tauto; try congruence.
    all: try (intros [H|H]; try discriminate H; try tauto).
Qed.

End Connect.

Lemma connect_outcomes_witness :
  let h := MoreSamples.ledger_handle [] false in
  let run := connect MoreSamples.probe_exec "SELECT NOW()" "SELECT schema_name"
               (Nat.eqb 0) h in
  isConnected (snd run) = true /\
  leased (pool (snd run)) = leased (pool h) /\
  new_calls (pool h) (pool (snd run))
  = [(Connect, Done); (Query "SELECT NOW()", Done); (Query "SELECT schema_name", Done)].
Proof.
  exact (proj2 (connect_outcomes (list string) string nat MoreSamples.probe_exec
                  "SELECT NOW()" "SELECT schema_name" (Nat.eqb 0)
                  (MoreSamples.ledger_handle [] false)) eq_refl).
Defined.

End ConnectFacts.

(** ** Placeholders and windows of the list queries *)

Module ListShapeFacts.
Import ListQuery Sql ListShape.

Lemma placeholders_of_app (a b : list Cond) :
  placeholders_of (a ++ b) = (placeholders_of a ++ placeholders_of b)%list.
Proof.
  induction a as [|c a IH]; simpl; [reflexivity|].
  destruct (cond_placeholder c); simpl; rewrite IH; reflexivity.
Qed.

Lemma push_well_numbered (mk : nat -> Cond) (v : JSVal) (b : Builder) :
  (forall n, cond_placeholder (mk n) = Some n) ->
  well_numbered b -> well_numbered (push mk v b).
Proof.
  intros Hmk [Hconds Hindex]. unfold well_numbered, push; simpl.
  rewrite placeholders_of_app, Hconds, length_app, Nat.add_1_r, seq_S. simpl.
  rewrite Hmk, Hindex. split; reflexivity.
Qed.

Lemma when_push_well_numbered (test : bool) (mk : nat -> Cond) (v : JSVal) (b : Builder) :
  (forall n, cond_placeholder (mk n) = Some n) ->
  well_numbered b -> well_numbered (when test (push mk v) b).
Proof.
  intros Hmk Hb. unfold when. destruct test; [now apply push_well_numbered|exact Hb].
Qed.

Lemma start_not_deleted_numbered : well_numbered start_not_deleted.
Proof. split; reflexivity. Qed.

Lemma start_empty_numbered : well_numbered start_empty.
Proof. split; reflexivity. Qed.

Lemma nth_after {A} (l : list A) (x y d : A) :
  nth (List.length l) (l ++ [x; y]) d = x /\ nth (S (List.length l)) (l ++ [x; y]) d = y.
Proof. induction l as [|a l IH]; simpl; auto. Qed.

Lemma finish_numbered (tbl : string) (limit offset : Arg Z) (b : Builder) :
  well_numbered b ->
  placeholders (finish tbl limit offset b)
  = seq 1 (List.length (args (finish tbl limit offset b))) /\
  param (args (finish tbl limit offset b)) (limit_at (finish tbl limit offset b))
  = default_arg 50 limit /\
  param (args (finish tbl limit offset b)) (offset_at (finish tbl limit offset b))
  = default_arg 0 offset.
Proof.
  intros [Hconds Hindex]. unfold placeholders, finish, param; simpl.
  rewrite Hconds, Hindex, length_app. simpl.
  destruct (nth_after (params b) (default_arg 50 limit) (default_arg 0 offset) JNull)
    as [Hl Ho].
  repeat split; try assumption.
  replace (List.length (params b) + 2) with (S (S (List.length (params b))))
    by (rewrite Nat.add_comm; reflexivity).
  rewrite !seq_S. simpl. rewrite <- app_assoc. reflexivity.
Qed.

#[local] Hint Resolve when_push_well_numbered start_not_deleted_numbered
  start_empty_numbered : keeps.

Lemma build_numbered (r : Request) :
  placeholders (build r) = seq 1 (List.length (args (build r))) /\
  param (args (build r)) (limit_at (build r)) = default_arg 50 (limit_of r) /\
  param (args (build r)) (offset_at (build r)) = default_arg 0 (offset_of r).
Proof.
  destruct r as [f l o|s l o|s w l o|c co d t l o|s l o|s l o]; simpl.
  - unfold contacts. apply finish_numbered.
    destruct f as [| |f]; unfold contacts_filter; auto 10 with keeps.
  - unfold companies. destruct (arg_string_truthy s); repeat split.
  - unfold deals. apply finish_numbered. auto 10 with keeps.
  - unfold activities. apply finish_numbered. auto 10 with keeps.
  - unfold campaigns. apply finish_numbered. auto 10 with keeps.
  - unfold voiceCalls. apply finish_numbered. auto 10 with keeps.
Qed.

(** X18: in the SELECT of every list resolver, whatever the arguments, the
    placeholders read in the order of the text are $1, $2, ... up to the
    number of parameters sent, so that each condition reads the value pushed
    with it and no parameter is left over; LIMIT reads the limit given (50
    when left out) and OFFSET the offset given (0 when left out). *)
Theorem placeholders_are_consecutive (r : Request) :
  placeholders (build r) = seq 1 (List.length (args (build r))) /\
  param (args (build r)) (limit_at (build r)) = default_arg 50 (limit_of r) /\
  param (args (build r)) (offset_at (build r)) = default_arg 0 (offset_of r).
Proof. exact (build_numbered r). Qed.

Lemma row_count_default (d : Z) (a : Arg Z) :
  (0 <= d)%Z ->
  row_count (default_arg d a)
  = match a with
    | Undef => inr (Some (Z.to_nat d))
    | Null => inr None
    | Val z => if (z <? 0)%Z then inl (JsError "row count must not be negative")
               else inr (Some (Z.to_nat z))
    end.
Proof.
  intros Hd. destruct a as [| |z]; simpl.
  - destruct (d <? 0)%Z eqn:Hneg;
      [apply Z.ltb_lt, Z.lt_nge in Hneg; contradiction|].
    unfold Qfloor; simpl. rewrite Z.div_1_r. reflexivity.
  - reflexivity.
  - destruct (z <? 0)%Z; [reflexivity|].
    unfold Qfloor; simpl. rewrite Z.div_1_r. reflexivity.
Qed.

Lemma take_length (n : option nat) (k : nat) (l : list Row) :
  n = Some k -> List.length (take n l) <= k.
Proof. intros ->. simpl. apply firstn_le_length. Qed.

Lemma run_shape (E : Engine) (q : Select) (db : Tables) (rows : list Row) :
  run E q db = inr rows ->
  exists lim off,
    row_count (param (args q) (limit_at q)) = inr lim /\
    row_count (param (args q) (offset_at q)) = inr off /\
    rows = take lim (drop off
             (order_desc E (filter (where_holds E (args q) (where_ q)) (db (table q))))).
Proof.
  unfold run.
  destruct (row_count (param (args q) (limit_at q))) as [e|lim]; [discriminate|].
  destruct (row_count (param (args q) (offset_at q))) as [e|off]; [discriminate|].
  intros H. exists lim, off. repeat split. congruence.
Qed.

Lemma list_rows_in_table (E : Engine) (r : Request) (db : Tables) (rows : list Row) :
  run E (build r) db = inr rows ->
  forall row, In row rows -> In row (db (table (build r))).
Proof.
  intros Hrun row Hin.
  destruct (run_shape E (build r) db rows Hrun) as (lim & off & _ & _ & ->).
  apply ListQueryFacts.take_in, ListQueryFacts.drop_in, ListQueryFacts.order_desc_in,
    filter_In in Hin.
  tauto.
Qed.

(** X19: what a list resolver can get back.  The database refuses the query
    exactly when a negative limit or offset is given.  Otherwise the rows
    are rows of the resolver's table, at most as many as the limit given,
    at most 50 when the limit is left out; an explicit null limit lifts the
    bound. *)
Theorem list_result_window (E : Engine) (r : Request) (db : Tables) :
  (forall rows,
      run E (build r) db = inr rows ->
      (forall k, window (limit_of r) = Some k -> List.length rows <= k) /\
      (forall row, In row rows -> In row (db (table (build r))))) /\
  ((exists e, run E (build r) db = inl e) <->
   (exists z, (limit_of r = Val z \/ offset_of r = Val z) /\ (z < 0)%Z)).
Proof.
  destruct (build_numbered r) as (_ & Hlimit & Hoffset).
  split.
  - intros rows Hrun.
    destruct (run_shape E (build r) db rows Hrun) as (lim & off & Hlim & _ & ->).
    rewrite Hlimit, (row_count_default 50 (limit_of r)) in Hlim by discriminate.
    split.
    + intros k Hk. apply take_length.
      destruct (limit_of r) as [| |z]; simpl in Hk; try discriminate Hk.
      * injection Hk as <-. injection Hlim as <-. reflexivity.
      * injection Hk as <-. destruct (z <? 0)%Z; [discriminate Hlim|].
        injection Hlim as <-. reflexivity.
    + intros row Hin.
      apply ListQueryFacts.take_in, ListQueryFacts.drop_in, ListQueryFacts.order_desc_in,
        filter_In in Hin.
      tauto.
  - unfold run. rewrite Hlimit, Hoffset.
    rewrite (row_count_default 50 (limit_of r)) by discriminate.
    rewrite (row_count_default 0 (offset_of r)) by discriminate.
    split.
    + intros (e & Hrun).
      destruct (limit_of r) as [| |z] eqn:Hl.
      * destruct (offset_of r) as [| |z'] eqn:Ho; try discriminate Hrun.
        destruct (z' <? 0)%Z eqn:Hneg; [|discriminate Hrun].
        exists z'. split; [auto|]. now apply Z.ltb_lt.
      * destruct (offset_of r) as [| |z'] eqn:Ho; try discriminate Hrun.
        destruct (z' <? 0)%Z eqn:Hneg; [|discriminate Hrun].
        exists z'. split; [auto|]. now apply Z.ltb_lt.
      * destruct (z <? 0)%Z eqn:Hneg; [exists z; split; [auto|now apply Z.ltb_lt]|].
        destruct (offset_of r) as [| |z'] eqn:Ho; try discriminate Hrun.
        destruct (z' <? 0)%Z eqn:Hneg'; [|discriminate Hrun].
        exists z'. split; [auto|]. now apply Z.ltb_lt.
    + intros (z & [Hz|Hz] & Hneg); rewrite Hz; apply Z.ltb_lt in Hneg; rewrite Hneg.
      * eauto.
      * destruct (limit_of r) as [| |z']; try destruct (z' <? 0)%Z; eauto.
Qed.

Lemma list_result_window_witness :
  List.length [ [("id", JStr "k1"); ("company_id", JStr "c1"); ("owner_id", JStr "u1");
                 ("deleted_at", JNull)] ] <= 1.
Proof.
  apply (proj1 (proj1 (list_result_window text_engine
                         (Contacts (MoreSamples.owned_by "u1") (Val 1%Z) Undef)
                         MoreSamples.contacts_db) _ eq_refl)).
  reflexivity.
Defined.

Lemma extends_refl b : extends b b.
Proof. exists [], []. rewrite !app_nil_r. split; reflexivity. Qed.

Lemma extends_when_push test mk v b b0 :
  extends b0 b -> extends b0 (when test (push mk v) b).
Proof.
  intros (conds & ps & Hc & Hp). unfold when. destruct test; [|exists conds, ps; auto].
  exists (conds ++ [mk (paramIndex b)])%list, (ps ++ [v])%list. simpl.
  rewrite Hc, Hp, !app_assoc. split; reflexivity.
Qed.

(** A condition whose placeholder lies within [ps] reads the same value
    when more parameters follow. *)
Lemma cond_holds_more E (ps more : list JSVal) (row : Row) (c : Cond) :
  (forall n, cond_placeholder c = Some n -> 1 <= n <= List.length ps) ->
  cond_holds E (ps ++ more) row c = cond_holds E ps row c.
Proof.
  intros Hin.
  assert (Hparam : forall n, 1 <= n <= List.length ps ->
                             param (ps ++ more) n = param ps n).
  { intros n [Hlo Hhi]. unfold param. apply app_nth1.
    destruct n as [|n]; [inversion Hlo|]. exact Hhi. }
  destruct c as [col|col n|col n|col n|cols n]; simpl; try reflexivity;
    rewrite (Hparam n) by (apply Hin; reflexivity); reflexivity.
Qed.

Lemma placeholders_of_in (conds : list Cond) (c : Cond) (n : nat) :
  In c conds -> cond_placeholder c = Some n -> In n (placeholders_of conds).
Proof.
  induction conds as [|c' conds IH]; simpl; [tauto|].
  intros [->|Hin] Hn.
  - rewrite Hn. left. reflexivity.
  - destruct (cond_placeholder c'); [right|]; auto.
Qed.

Lemma where_holds_prefix E (b : Builder) (conds : list Cond) (more : list JSVal) (row : Row) :
  well_numbered b ->
  where_holds E (params b ++ more) (conditions b ++ conds) row = true ->
  where_holds E (params b) (conditions b) row = true.
Proof.
  intros [Hnum _]. unfold where_holds. rewrite forallb_app, andb_true_iff.
  intros [Hall _]. rewrite forallb_forall in *. intros c Hc.
  specialize (Hall c Hc). rewrite cond_holds_more in Hall; [exact Hall|].
  intros n Hn. pose proof (placeholders_of_in _ _ _ Hc Hn) as Hin.
  rewrite Hnum, in_seq in Hin. split; [apply Hin|].
  destruct Hin as [_ Hhi]. apply Nat.lt_succ_r. exact Hhi.
Qed.

Lemma insert_desc_length E (r : Row) (l : list Row) :
  List.length (insert_desc E r l) = S (List.length l).
Proof.
  induction l as [|s rest IH]; simpl; [reflexivity|].
  destruct (created_after E s r); simpl; [rewrite IH|]; reflexivity.
Qed.

Lemma order_desc_length E (l : list Row) : List.length (order_desc E l) = List.length l.
Proof.
  induction l as [|r rest IH]; simpl; [reflexivity|].
  rewrite insert_desc_length, IH. reflexivity.
Qed.

Lemma filter_length_le {A} (P Q : A -> bool) (l : list A) :
  (forall x, In x l -> P x = true -> Q x = true) ->
  List.length (filter P l) <= List.length (filter Q l).
Proof.
  induction l as [|a l IH]; simpl; intros H; [apply Nat.le_refl|].
  assert (IH' : List.length (filter P l) <= List.length (filter Q l)) by (apply IH; auto).
  destruct (P a) eqn:HP.
  - rewrite (H a (or_introl eq_refl) HP). simpl. apply le_n_S, IH'.
  - destruct (Q a); simpl; [apply Nat.le_le_succ_r|]; exact IH'.
Qed.

Lemma window_length (lim off : option nat) (l : list Row) :
  List.length (take lim (drop off l)) <= List.length l.
Proof.
  apply Nat.le_trans with (List.length (drop off l)).
  - destruct lim as [k|]; simpl; [|apply Nat.le_refl].
    rewrite length_firstn. apply Nat.le_min_r.
  - destruct off as [k|]; simpl; [|apply Nat.le_refl].
    rewrite length_skipn. apply Nat.le_sub_l.
Qed.

(** The builder of [contacts] continues the one of [contactsCount]. *)
Lemma contacts_extends_count (filter : Arg ContactFilter) :
  exists b,
    well_numbered b /\
    count_where (contactsCount filter) = conditions b /\
    count_args (contactsCount filter) = params b /\
    forall limit offset,
      exists conds ps,
        where_ (contacts filter limit offset) = (conditions b ++ conds)%list /\
        args (contacts filter limit offset) = (params b ++ ps)%list.
Proof.
  destruct filter as [| |f].
  - exists start_not_deleted. repeat split. intros limit offset.
    exists [], [default_arg 50 limit; default_arg 0 offset]. split; reflexivity.
  - exists start_not_deleted. repeat split. intros limit offset.
    exists [], [default_arg 50 limit; default_arg 0 offset]. split; reflexivity.
  - set (b := when (arg_string_truthy (leadStatus f))
                (push (EqParam "lead_status") (arg_str (leadStatus f)))
                (when (arg_string_truthy (companyId f))
                   (push (EqParam "company_id") (arg_str (companyId f)))
                   start_not_deleted)).
    exists b. split; [unfold b; auto 10 with keeps|]. split; [reflexivity|].
    split; [reflexivity|]. intros limit offset.
    assert (Hext : extends b (contacts_filter f start_not_deleted)).
    { unfold contacts_filter. fold b. do 4 apply extends_when_push. apply extends_refl. }
    destruct Hext as (conds & ps & Hc & Hp).
    exists conds, (ps ++ [default_arg 50 limit; default_arg 0 offset])%list.
    unfold contacts, finish; simpl. rewrite Hc, Hp, app_assoc. split; reflexivity.
Qed.

(** X20: [contactsCount] reads only [companyId] and [leadStatus] of the filter
    [contacts] reads in full, so its number does not fall below what the
    list can show: every row [contacts] returns for a filter is counted by
    [contactsCount] for that filter. *)
Theorem contactsCount_bounds_contacts (E : Engine) (filter : Arg ContactFilter)
  (limit offset : Arg Z) (db : Tables) (rows : list Row) :
  run E (contacts filter limit offset) db = inr rows ->
  List.length rows <= run_count E (contactsCount filter) db /\
  forall row, In row rows ->
              where_holds E (count_args (contactsCount filter))
                (count_where (contactsCount filter)) row = true.
Proof.
  intros Hrun.
  destruct (contacts_extends_count filter) as (b & Hnum & Hwhere & Hargs & Hext).
  destruct (Hext limit offset) as (conds & ps & Hc & Hp).
  assert (Himp : forall row,
             where_holds E (args (contacts filter limit offset))
               (where_ (contacts filter limit offset)) row = true ->
             where_holds E (count_args (contactsCount filter))
               (count_where (contactsCount filter)) row = true).
  { intros row. rewrite Hc, Hp, Hwhere, Hargs. now apply where_holds_prefix. }
  split.
  - destruct (run_shape E _ db rows Hrun) as (lim & off & _ & _ & ->).
    eapply Nat.le_trans; [apply window_length|].
    rewrite order_desc_length. unfold run_count.
    replace (count_table (contactsCount filter))
      with (table (contacts filter limit offset)) by reflexivity.
    apply filter_length_le. intros row _. apply Himp.
  - intros row Hin. apply Himp.
    exact (ListQueryFacts.run_rows_satisfy E _ db rows row Hrun Hin).
Qed.

Lemma contactsCount_bounds_contacts_witness :
  List.length [ [("id", JStr "k1"); ("company_id", JStr "c1"); ("owner_id", JStr "u1");
                 ("deleted_at", JNull)] ]
  <= run_count text_engine (contactsCount (MoreSamples.owned_by "u1")) MoreSamples.contacts_db.
Proof.
  exact (proj1 (contactsCount_bounds_contacts text_engine (MoreSamples.owned_by "u1")
                  Undef Undef MoreSamples.contacts_db _ eq_refl)).
Defined.

(** The bound is not always met: with an owner given, the list shows one
    contact and the count says two. *)
Example count_ignores_owner :
  run text_engine (contacts (MoreSamples.owned_by "u1") Undef Undef) MoreSamples.contacts_db
  = inr [ [("id", JStr "k1"); ("company_id", JStr "c1"); ("owner_id", JStr "u1");
           ("deleted_at", JNull)] ] /\
  run_count text_engine (contactsCount (MoreSamples.owned_by "u1")) MoreSamples.contacts_db = 2 /\
  count_text (contactsCount (MoreSamples.owned_by "u1"))
  = "SELECT COUNT(" ++ "*" ++ ") FROM nexuscrm.contacts WHERE deleted_at IS NULL AND company_id = $1".
Proof. repeat split. Qed.

End ListShapeFacts.

(** ** The resolvers: who may reach what *)

Module ResolverFacts.
Import Database Resolvers.

(** What [queryWithContext] asks of the driver is within the organization
    it was given. *)
Lemma queryWithContext_scoped {Store Res : Type}
  (exec : option string -> Stmt -> Store -> Exn + (Store * Res))
  (org : string) (s : Stmt) (d : DB Store Stmt) :
  exists calls,
    sent (snd (Database.queryWithContext exec org s d)) = (sent d ++ calls)%list /\
    Forall (scoped_to org) calls.
Proof.
  destruct d as [st t n tr fs].
  DatabaseFacts.unfold_driver. simpl.
  repeat (simpl; DatabaseFacts.driver_case).
  all: simpl; repeat rewrite <- app_assoc.
  all: eexists; split; [reflexivity|].
  all: repeat constructor.
Qed.

Section Preserves.

Variable Store : Type.
Variable R : t Store -> t Store -> Prop.
Hypothesis R_refl : forall w, R w w.
Hypothesis R_trans : forall a b c, R a b -> R b c -> R a c.

Lemma preserves_ret {A} (a : A) : preserves R (ret a).
Proof. intros w. apply R_refl. Qed.

Lemma preserves_throw {A} (e : Exn) : preserves R (@throw (t Store) A e).
Proof. intros w. apply R_refl. Qed.

Lemma preserves_lift {A} (r : Exn + A) : preserves R (lift r).
Proof. intros w. apply R_refl. Qed.

Lemma preserves_bind {A B} (m : M (t Store) A) (k : A -> M (t Store) B) :
  preserves R m -> (forall a, preserves R (k a)) -> preserves R (bind m k).
Proof.
  intros Hm Hk w. unfold bind. specialize (Hm w).
  destruct (m w) as [[e|a] w1]; simpl in *; [exact Hm|].
  eapply R_trans; [exact Hm|apply Hk].
Qed.

Lemma preserves_bind_ret {A B} (a : A) (k : A -> M (t Store) B) :
  preserves R (k a) -> preserves R (bind (ret a) k).
Proof. intros H w. exact (H w). Qed.

Lemma preserves_try_catch {A} (body : M (t Store) A) (h : Exn -> M (t Store) A) :
  preserves R body -> (forall e, preserves R (h e)) -> preserves R (try_catch body h).
Proof.
  intros Hb Hh w. unfold try_catch. specialize (Hb w).
  destruct (body w) as [[e|a] w1]; simpl in *; [|exact Hb].
  eapply R_trans; [exact Hb|apply Hh].
Qed.

Hypothesis R_log : forall w e, R w (add_log e w).

Lemma preserves_log (l : World.Level) (msg : string) : preserves R (log l msg).
Proof. intros w. apply R_log. Qed.

Lemma preserves_user_of (auth : option AuthUser) : preserves R (user_of auth).
Proof. destruct auth; [apply preserves_ret|apply preserves_throw]. Qed.

Hypothesis R_execution : forall w r, R w (add_execution r w).
Hypothesis R_document : forall w d, R w (add_document d w).
Hypothesis R_enrichment : forall w c, R w (add_enrichment c w).

Lemma preserves_orchestration_execute goal metadata :
  preserves R (orchestration_execute goal metadata).
Proof.
  unfold orchestration_execute.
  apply preserves_try_catch.
  - apply preserves_bind; [apply preserves_log|intros _].
    apply preserves_bind; [intros w; apply R_execution|intros data].
    do 4 (apply preserves_bind; [apply preserves_lift|intros ?]).
    apply preserves_bind; [apply preserves_log|intros _; apply preserves_ret].
  - intros e. apply preserves_bind; [apply preserves_log|intros _; apply preserves_throw].
Qed.

Lemma preserves_storeDocument content metadata :
  preserves R (graphRAG_storeDocument content metadata).
Proof.
  unfold graphRAG_storeDocument.
  apply preserves_try_catch.
  - apply preserves_bind; [apply preserves_log|intros _].
    apply preserves_bind; [intros w; apply R_document|intros data].
    do 2 (apply preserves_bind; [apply preserves_lift|intros ?]).
    apply preserves_bind; [apply preserves_log|intros _; apply preserves_ret].
  - intros e. apply preserves_bind; [apply preserves_log|intros _; apply preserves_throw].
Qed.

Lemma preserves_enrichContact contactId : preserves R (graphRAG_enrichContact contactId).
Proof.
  unfold graphRAG_enrichContact.
  apply preserves_try_catch.
  - apply preserves_bind; [intros w; apply R_enrichment|intros data].
    do 3 (apply preserves_bind; [apply preserves_lift|intros ?]).
    apply preserves_ret.
  - intros e. apply preserves_bind; [apply preserves_log|intros _; apply preserves_throw].
Qed.

End Preserves.

Ltac preserves_step :=
  first
    [ apply preserves_ret; assumption
    | apply preserves_throw; assumption
    | apply preserves_lift; assumption
    | apply preserves_log; assumption
    | apply preserves_user_of; assumption
    | apply preserves_orchestration_execute; assumption
    | apply preserves_storeDocument; assumption
    | apply preserves_enrichContact; assumption
    | assumption
    | apply preserves_bind_ret
    | apply preserves_bind; [assumption| |intros]
    | apply preserves_try_catch; [assumption| |intros]
    | match goal with
      | |- preserves _ (match ?x with _ => _ end) => destruct x
      | |- preserves _ (if ?x then _ else _) => destruct x
      end ].

Ltac preserves_auto := repeat preserves_step.

Section Resolvers.

Variable Store : Type.
Variable exec : option string -> Stmt -> Store -> Exn + (Store * Rows).
Variable JSON_stringify : JSVal -> JSVal.
Variable template : JSVal -> string.
Variable parseInt : JSVal -> JSVal.

(** A relation that logging, remote requests and the database calls of one
    organization respect is respected by every resolver called for a user
    of that organization. *)
Lemma resolve_preserves (R : t Store -> t Store -> Prop) (c : Call) (user : AuthUser) :
  (forall w, R w w) ->
  (forall a b c, R a b -> R b c -> R a c) ->
  (forall w e, R w (add_log e w)) ->
  (forall w r, R w (add_execution r w)) ->
  (forall w d, R w (add_document d w)) ->
  (forall w c, R w (add_enrichment c w)) ->
  (forall s, preserves R (queryWithContext exec (user_organizationId user) s)) ->
  preserves R (resolve exec JSON_stringify template parseInt c (Some user)).
Proof.
  intros Hrefl Htrans Hlog Hexe Hdoc Henr Hquery.
  destruct c; simpl;
    unfold contact, company, deal, activity, campaign, voiceCall, fetch_one, fetch_list,
      contactsCount, createContact, updateContact, deleteContact, enrichContact, makeCall,
      launchCampaign, pauseCampaign, resumeCampaign, cancelCampaign, set_campaign_status,
      Resolvers.cancelCall;
    cbv zeta; cbn [user_of]; preserves_auto; try apply Hquery.
Qed.

Lemma within_refl org (w : t Store) : within org w w.
Proof. exists []. rewrite app_nil_r. split; [reflexivity|constructor]. Qed.

Lemma within_trans org (a b c : t Store) : within org a b -> within org b c -> within org a c.
Proof.
  intros (c1 & H1 & F1) (c2 & H2 & F2). exists (c1 ++ c2)%list.
  rewrite H2, H1, app_assoc. split; [reflexivity|]. apply Forall_app. split; assumption.
Qed.

(** X21: whatever a resolver is asked by an authenticated user, and whatever
    the database and the remote services answer, all it sends to the
    database goes through [queryWithContext] under the organization of that
    user: no statement is sent on the pool, and every SET LOCAL names the
    user's organization. *)
Theorem resolvers_stay_within_the_organization (c : Call) (user : AuthUser) (w : t Store) :
  within (user_organizationId user) w
    (snd (resolve exec JSON_stringify template parseInt c (Some user) w)).
Proof.
  apply (resolve_preserves (within (user_organizationId user)) c user).
  - apply within_refl.
  - apply within_trans.
  - intros w0 e. exact (within_refl _ w0).
  - intros w0 r. exact (within_refl _ w0).
  - intros w0 d. exact (within_refl _ w0).
  - intros w0 e. exact (within_refl _ w0).
  - intros s w0. unfold queryWithContext.
    destruct (queryWithContext_scoped exec (user_organizationId user) s (db w0))
      as (calls & Hsent & Hscoped).
    destruct (Database.queryWithContext exec (user_organizationId user) s (db w0))
      as [r d]. exists calls. split; assumption.
Qed.

Lemma try_catch_step {S A B} (m : M S A) (k : A -> M S B) (h : Exn -> M S B) (w : S) :
  try_catch (bind m k) h w
  = match m w with
    | (inl e, w1) => h e w1
    | (inr a, w1) => try_catch (k a) h w1
    end.
Proof. unfold try_catch, bind. destruct (m w) as [[e|a] w1]; reflexivity. Qed.

Lemma try_catch_after_ret {S A B} (a : A) (k : A -> M S B) (h : Exn -> M S B) (w : S) :
  try_catch (bind (ret a) k) h w = try_catch (k a) h w.
Proof. reflexivity. Qed.

(** The message of an error a resolver throws. *)
Lemma masked {A} (body : M (t Store) A) (l : World.Level) (msg : string) (thrown : Exn)
  (w : t Store) (e : Exn) :
  fst (try_catch body (fun _ => log l msg ;; throw thrown) w) = inl e -> e = thrown.
Proof.
  unfold try_catch, bind, log, modify, throw.
  destruct (body w) as [[e0|a] w1]; simpl; [|discriminate]. congruence.
Qed.

Lemma masked_with_cause {A} (body : M (t Store) A) (l : World.Level) (msg prefix : string)
  (w : t Store) (e : Exn) :
  fst (try_catch body
         (fun error => log l msg ;; throw (JsError (prefix ++ message error))) w) = inl e ->
  exists cause, message e = prefix ++ cause.
Proof.
  unfold try_catch, bind, log, modify, throw.
  destruct (body w) as [[e0|a] w1]; simpl; [|discriminate].
  intros [= <-]. exists (message e0). reflexivity.
Qed.

(** X22: whatever goes wrong in a resolver (no verified user, a statement the
    database refuses, a lost connection, a row that is not there, a remote
    service that fails), the error it throws carries the resolver's own
    fixed message; only [makeCall] and [launchCampaign] append the message
    of the error they caught. *)
Theorem resolver_errors_are_masked (c : Call) (auth : option AuthUser) (w : t Store)
  (e : Exn) :
  fst (resolve exec JSON_stringify template parseInt c auth w) = inl e ->
  if appends_cause c then exists cause, message e = failure c ++ ": " ++ cause
  else message e = failure c.
Proof.
  destruct c; simpl; intros Herr.
  1-6, 8-10, 12, 15-17:
    unfold contact, company, deal, activity, campaign, voiceCall, fetch_one,
      contactsCount, createContact, updateContact, enrichContact, pauseCampaign,
      resumeCampaign, cancelCampaign, set_campaign_status in Herr;
    cbv zeta in Herr; apply masked in Herr; subst e; reflexivity.
  - unfold bind in Herr.
    destruct (fetch_list exec r auth w) as [[e0|rows] w1] eqn:Hrun; [|discriminate Herr].
    simpl in Herr. injection Herr as ->.
    assert (H : fst (fetch_list exec r auth w) = inl e) by (rewrite Hrun; reflexivity).
    unfold fetch_list in H. cbv zeta in H. apply masked in H. subst e. reflexivity.
  - unfold bind in Herr.
    destruct (deleteContact exec id auth w) as [[e0|b] w1] eqn:Hrun; [|discriminate Herr].
    simpl in Herr. injection Herr as ->.
    assert (H : fst (deleteContact exec id auth w) = inl e) by (rewrite Hrun; reflexivity).
    unfold deleteContact in H. apply masked in H. subst e. reflexivity.
  - unfold makeCall in Herr.
    apply (masked_with_cause _ _ _ "Failed to make call: ") in Herr.
    destruct Herr as (cause & ->). exists cause. reflexivity.
  - unfold launchCampaign in Herr.
    apply (masked_with_cause _ _ _ "Failed to launch campaign: ") in Herr.
    destruct Herr as (cause & ->). exists cause. reflexivity.
  - unfold bind in Herr.
    destruct (Resolvers.cancelCall exec callId auth w) as [[e0|b] w1] eqn:Hrun;
      [|discriminate Herr].
    simpl in Herr. injection Herr as ->.
    assert (H : fst (Resolvers.cancelCall exec callId auth w) = inl e)
      by (rewrite Hrun; reflexivity).
    unfold Resolvers.cancelCall in H. apply masked in H. subst e. reflexivity.
Qed.

(** The request [orchestration_execute] makes is made whatever follows. *)
Lemma orchestration_execute_asks goal metadata (w : t Store) :
  db (snd (orchestration_execute goal metadata w)) = db w /\
  executions (snd (orchestration_execute goal metadata w))
  = (executions w ++ [execute_request goal metadata])%list /\
  documents (snd (orchestration_execute goal metadata w)) = documents w /\
  enrichments (snd (orchestration_execute goal metadata w)) = enrichments w.
Proof.
  unfold orchestration_execute, try_catch, bind, log, modify, lift, throw, ret. simpl.
  destruct (execute_reply w (execute_request goal metadata)) as [e|data]; simpl;
    [repeat split|].
  destruct (JS.get data "executionId"); simpl; [repeat split|].
  destruct (JS.get data "status"); simpl; [repeat split|].
  destruct (JS.get data "output"); simpl; [repeat split|].
  destruct (JS.get data "duration"); simpl; repeat split.
Qed.

(** X23: without a verified user ([context.auth] is null) every resolver fails
    before anything is sent to the database, and nothing is asked of the
    GraphRAG service.  All of them but [makeCall] fail before any remote
    request; [makeCall] has by then asked the orchestration service to make
    the call. *)
Theorem unauthenticated_calls_reach_no_database (c : Call) (w : t Store) :
  let run := resolve exec JSON_stringify template parseInt c None w in
  (exists e, fst run = inl e) /\
  db (snd run) = db w /\
  documents (snd run) = documents w /\
  enrichments (snd run) = enrichments w /\
  executions (snd run)
  = match c with
    | MakeCall input =>
        (executions w
         ++ [execute_request (makeCall_goal template input) (makeCall_metadata input)])%list
    | _ => executions w
    end.
Proof.
  cbv zeta. destruct c; simpl.
  1-12, 14-18: repeat split; eexists; reflexivity.
  unfold makeCall. rewrite try_catch_step.
  change (log World.Info "Initiating voice call" w)
    with (@inr Exn unit tt, add_log (World.Info, "Initiating voice call") w).
  cbv beta iota. rewrite try_catch_step.
  pose proof (orchestration_execute_asks (makeCall_goal template input)
                (makeCall_metadata input)
                (add_log (World.Info, "Initiating voice call") w)) as Hasks.
  destruct (orchestration_execute (makeCall_goal template input) (makeCall_metadata input)
              (add_log (World.Info, "Initiating voice call") w)) as [[e|result] w1].
  - simpl in *. split; [eexists; reflexivity|tauto].
  - rewrite try_catch_step. simpl in *. split; [eexists; reflexivity|tauto].
Qed.

(** With the user verified, what each resolver does first (after the
    request of [makeCall] to the orchestration service) is a
    [queryWithContext], and that throws. *)
Lemma queryWithContext_nothing_ran (org : string) (s : Stmt) :
  fails nothing_ran (queryWithContext exec org s).
Proof.
  intros w. unfold queryWithContext.
  destruct (DatabaseFacts.queryWithContext_throws exec org s (db w))
    as (Hthrows & Hstore & _ & calls & Hsent & Hcalls).
  destruct (Database.queryWithContext exec org s (db w)) as [r d]. simpl in *.
  split; [exact Hthrows|]. split; [exact Hstore|]. split; [|repeat split].
  exists calls. split; [exact Hsent|].
  intros q o Hin. destruct (Hcalls _ _ Hin) as [H|[H|[H|H]]]; discriminate H.
Qed.

Lemma nothing_ran_trans (a b c : t Store) :
  nothing_ran a b -> nothing_ran b c -> nothing_ran a c.
Proof.
  intros (S1 & (c1 & H1 & N1) & E1 & D1 & G1) (S2 & (c2 & H2 & N2) & E2 & D2 & G2).
  split; [congruence|]. split; [|repeat split; congruence].
  exists (c1 ++ c2)%list. rewrite H2, H1, app_assoc. split; [reflexivity|].
  intros q o Hin. apply in_app_or in Hin. destruct Hin as [Hin|Hin].
  - exact (N1 _ _ Hin).
  - exact (N2 _ _ Hin).
Qed.

Lemma fails_first {A B} (R : t Store -> t Store -> Prop) (m : M (t Store) A)
  (k : A -> M (t Store) B) :
  fails R m -> fails R (bind m k).
Proof.
  intros Hm w. unfold bind. destruct (Hm w) as ((e & He) & HR).
  destruct (m w) as [[e0|a] w1]; simpl in *; [|discriminate He].
  split; [eauto|exact HR].
Qed.

Lemma fails_after_ret {A B} (R : t Store -> t Store -> Prop) (a : A)
  (k : A -> M (t Store) B) :
  fails R (k a) -> fails R (bind (ret a) k).
Proof. intros H w. exact (H w). Qed.

Lemma fails_masked {A} (body : M (t Store) A) (l : World.Level) (msg : string)
  (thrown : Exn -> Exn) :
  fails nothing_ran body ->
  fails nothing_ran (try_catch body (fun error => log l msg ;; throw (thrown error))).
Proof.
  intros Hb w. unfold try_catch. destruct (Hb w) as ((e & He) & HR).
  destruct (body w) as [[e0|a] w1]; simpl in *; [|discriminate He].
  split; [eexists; reflexivity|].
  eapply nothing_ran_trans; [exact HR|].
  split; [reflexivity|]. split; [|repeat split].
  exists []. simpl. rewrite app_nil_r. split; [reflexivity|]. intros q o [].
Qed.

(** X25: with a verified user, no resolver answers.  Each of them goes to the
    database through [queryWithContext] before anything else ([makeCall]
    after its request to the orchestration service), and that call throws
    at its SET LOCAL.  So whatever the arguments and the state, the
    resolver throws; the committed data is as it was, the driver was asked
    to run no statement, the GraphRAG service was asked nothing, and the
    orchestration service was asked only by [makeCall]. *)
Theorem authenticated_calls_never_answer (c : Call) (user : AuthUser) (w : t Store) :
  let run := resolve exec JSON_stringify template parseInt c (Some user) w in
  (exists e, fst run = inl e) /\
  Database.store (db (snd run)) = Database.store (db w) /\
  (forall q o, ~ In (Database.Query q, o) (Database.new_calls (db w) (db (snd run)))) /\
  documents (snd run) = documents w /\
  enrichments (snd run) = enrichments w /\
  executions (snd run)
  = match c with
    | MakeCall input =>
        (executions w
         ++ [execute_request (makeCall_goal template input) (makeCall_metadata input)])%list
    | _ => executions w
    end.
Proof.
  cbv zeta.
  assert (Hstated :
            forall w', nothing_ran w w' ->
                       Database.store (db w') = Database.store (db w) /\
                       (forall q o, ~ In (Database.Query q, o)
                                      (Database.new_calls (db w) (db w'))) /\
                       documents w' = documents w /\
                       enrichments w' = enrichments w /\
                       executions w' = executions w).
  { intros w' (Hs & (calls & Hsent & Hnone) & He & Hd & Hg).
    split; [exact Hs|]. split; [|repeat split; assumption].
    unfold Database.new_calls. rewrite Hsent, DatabaseFacts.skipn_length_app. exact Hnone. }
  assert (Hfails :
            match c with
            | MakeCall _ => True
            | _ => fails nothing_ran (resolve exec JSON_stringify template parseInt c (Some user))
            end).
  { destruct c; simpl; try exact I;
      unfold contact, company, deal, activity, campaign, voiceCall, fetch_one, fetch_list,
        contactsCount, createContact, updateContact, deleteContact, enrichContact,
        launchCampaign, pauseCampaign, resumeCampaign, cancelCampaign, set_campaign_status,
        Resolvers.cancelCall;
      cbv zeta; cbn [user_of];
      try apply fails_first;
      apply (fails_masked _ _ _ (fun _ => _));
      apply fails_after_ret, fails_first, queryWithContext_nothing_ran. }
  destruct c;
    try (destruct (Hfails w) as (Hthrows & Hran);
         destruct (Hstated _ Hran) as (Hs & Hq & Hd & Hg & He);
         repeat split; assumption).
  clear Hfails. simpl. unfold makeCall. rewrite try_catch_step.
  change (log World.Info "Initiating voice call" w)
    with (@inr Exn unit tt, add_log (World.Info, "Initiating voice call") w).
  cbv beta iota. rewrite try_catch_step.
  pose proof (orchestration_execute_asks (makeCall_goal template input)
                (makeCall_metadata input)
                (add_log (World.Info, "Initiating voice call") w)) as Hasks.
  destruct (orchestration_execute (makeCall_goal template input) (makeCall_metadata input)
              (add_log (World.Info, "Initiating voice call") w)) as [[e|result] w1].
  - simpl in *. destruct Hasks as (Hdb & He & Hd & Hg). rewrite Hdb.
    split; [eexists; reflexivity|]. split; [reflexivity|]. split; [|tauto].
    intros q o. unfold Database.new_calls. rewrite skipn_all. intros [].
  - cbn [user_of]. rewrite try_catch_after_ret, try_catch_step.
    simpl in Hasks. destruct Hasks as (Hdb & He & Hd & Hg).
    match goal with
    | |- context [queryWithContext exec ?org ?s w1] =>
        destruct (queryWithContext_nothing_ran org s w1)
          as ((e & Hthrows) & Hs1 & (calls & Hsent & Hnone) & He1 & Hd1 & Hg1);
        destruct (queryWithContext exec org s w1) as [[e0|r] w2]
    end; simpl in *; [|discriminate Hthrows].
    split; [eexists; reflexivity|].
    split; [rewrite Hs1, Hdb; reflexivity|].
    split; [|repeat split; congruence].
    unfold Database.new_calls. rewrite Hsent, Hdb, DatabaseFacts.skipn_length_app.
    exact Hnone.
Qed.

End Resolvers.

(** A verified user who asks for a contact that is there gets the
    resolver's error; the SELECT was not sent. *)
Example authenticated_contact_query :
  let run := resolve ResolverSamples.echo_exec Samples.stringify ResolverSamples.text_of
               Samples.stringify (Contact "k1") (Some ResolverSamples.ann)
               (ResolverSamples.world []) in
  fst run = inl (JsError "Failed to fetch contact") /\
  map fst (Database.sent (db (snd run)))
  = [Database.Connect; Database.Begin; Database.SetLocalOrg "org-1"; Database.Rollback].
Proof. split; reflexivity. Qed.

Lemma resolvers_stay_within_the_organization_witness :
  within "org-1" (ResolverSamples.world [])
    (snd (resolve ResolverSamples.echo_exec Samples.stringify ResolverSamples.text_of
            Samples.stringify (CreateContact [("email", JStr "ann@example.com")])
            (Some ResolverSamples.ann) (ResolverSamples.world []))).
Proof.
  apply (resolvers_stay_within_the_organization (list string) ResolverSamples.echo_exec
           Samples.stringify ResolverSamples.text_of Samples.stringify
           (CreateContact [("email", JStr "ann@example.com")]) ResolverSamples.ann
           (ResolverSamples.world [])).
Defined.

Lemma resolver_errors_are_masked_witness :
  message (JsError "Failed to delete contact") = failure (DeleteContact "k1").
Proof.
  apply (resolver_errors_are_masked (list string) ResolverSamples.echo_exec Samples.stringify
           ResolverSamples.text_of Samples.stringify (DeleteContact "k1")
           (Some ResolverSamples.ann) (ResolverSamples.world [true])
           (JsError "Failed to delete contact")).
  reflexivity.
Defined.

(** An unauthenticated makeCall: the error, and the request already made. *)
Example unauthenticated_makeCall :
  let run := resolve ResolverSamples.echo_exec Samples.stringify ResolverSamples.text_of
               Samples.stringify (MakeCall ResolverSamples.call_input) None
               (ResolverSamples.world []) in
  fst run = inl (JsError "Failed to make call: Cannot read properties of null (reading 'user')")
  /\ List.length (executions (snd run)) = 1 /\ Database.sent (db (snd run)) = [].
Proof. repeat split. Qed.

End ResolverFacts.

(** ** Updating a contact *)

Module ContactFacts.
Import Database Resolvers.

Lemma fold_add_field (input : Input) (fields : list (string * string)) (u : Updates) :
  fold_left (add_field input) fields u
  = {| updates := updates u
                  ++ combine (map snd (filter (fun fc => is_defined (field input (fst fc)))
                                         fields))
                       (seq (paramIndex u)
                          (List.length (filter (fun fc => is_defined (field input (fst fc)))
                                          fields)));
       params := params u
                 ++ map (fun fc => field input (fst fc))
                      (filter (fun fc => is_defined (field input (fst fc))) fields);
       paramIndex := paramIndex u
                     + List.length (filter (fun fc => is_defined (field input (fst fc)))
                                      fields) |}.
Proof.
  revert u. induction fields as [|fc fields IH]; intros u.
  - destruct u as [us ps n]. simpl. rewrite !app_nil_r, Nat.add_0_r. reflexivity.
  - simpl fold_left. rewrite IH. unfold add_field. simpl filter.
    destruct (field input (fst fc)) eqn:Hfield; simpl; try reflexivity;
      rewrite Hfield, <- !app_assoc, Nat.add_succ_r; reflexivity.
Qed.

(** X24: the UPDATE built by [updateContact] names exactly the columns of the
    fields the input defines, in the resolver's order, with the
    placeholders $1 ... $n; a field given as null is among them and is
    bound to NULL, a field left out is not mentioned; the id is bound last,
    to $(n+1). *)
Theorem updateContact_sends_the_given_fields (id : string) (input : Input) :
  update_statement id input
  = UpdateContact
      (combine (map snd (given input)) (seq 1 (List.length (given input))))
      (S (List.length (given input)))
      (map (fun fc => field input (fst fc)) (given input) ++ [JStr id]).
Proof.
  unfold update_statement, collect_updates. rewrite fold_add_field. reflexivity.
Qed.

(** With nothing to set the statement reads SET , updated_at = ... *)
Example update_of_nothing :
  stmt_text (update_statement "k1" [])
  = "UPDATE nexuscrm.contacts SET , updated_at = CURRENT_TIMESTAMP WHERE id = $1 AND deleted_at IS NULL RETURNING *".
Proof. reflexivity. Qed.

Example update_with_null :
  let s := update_statement "k1" [("phone", JNull); ("leadScore", JInt 70)] in
  stmt_text s
  = "UPDATE nexuscrm.contacts SET phone = $1, lead_score = $2, updated_at = CURRENT_TIMESTAMP WHERE id = $3 AND deleted_at IS NULL RETURNING *"
  /\ stmt_values s = [JNull; JInt 70; JStr "k1"].
Proof. split; reflexivity. Qed.

End ContactFacts.


